(** * HeartRateMonitor (src/main.py): moving-average filter, peak detector and
      rate estimator of the pulse oximeter, embedded shallowly.

    Numbers.  The raw readings and everything derived from them with [/] and
    [* 0.5] are Python numbers.  The methods are embedded twice.  The first
    embedding computes with exact rationals [Q]; it carries the statements
    that do not depend on how a computed number is rounded: the lengths of
    the lists, what a method changes, which exception is raised and when,
    the clock.  The second embedding, module [F64], computes as Python
    does, with [int]s and binary64 [float]s, every float operation rounded
    to nearest; it carries the statements about the values the methods
    store, compare and return.  Clock readings and tick differences are
    Python ints, modelled as [Z].

    Effects.  A method mutates the three lists of [self] in place and may
    raise; a mutation made before the [raise] stays.  A method is therefore
    a function from the monitor to an outcome together with the monitor it
    leaves behind (the monad [M] below). *)

From Stdlib Require Import ZArith QArith Qabs Qround Qpower List Lia Lqa Bool Sorting.Sorted.
From Stdlib Require PrimFloat FloatOps SpecFloat Uint63.
Import ListNotations.

Local Open Scope Z_scope.

(** ** Python values the methods rely on *)

Inductive exn : Type :=
| ZeroDivisionError
| ValueError
| IndexError
| TypeError.

Inductive outcome (A : Type) : Type :=
| Returns (a : A)
| Raises (e : exn).

Arguments Returns {A} a.
Arguments Raises {A} e.

(** [a < b] on numbers, as a boolean. *)
Definition Qltb (a b : Q) : bool :=
  (Qnum a * QDen b <? Qnum b * QDen a)%Z.

(** [a / b]: true division, [ZeroDivisionError] on a zero divisor. *)
Definition py_truediv (a b : Q) : outcome Q :=
  if Qeq_bool b 0 then Raises ZeroDivisionError else Returns (a / b)%Q.

(** [sum(l)] over numbers and over ints. *)
Definition py_sum (l : list Q) : Q := fold_left Qplus l 0%Q.
Definition py_sumZ (l : list Z) : Z := fold_left Z.add l 0.

(** [len(l)] as an int. *)
Definition len {A : Type} (l : list A) : Z := Z.of_nat (length l).

(** [l[start:]] with Python's treatment of a negative or too large start. *)
Definition py_slice_from {A : Type} (start : Z) (l : list A) : list A :=
  if start <? 0
  then skipn (Z.to_nat (Z.max 0 (len l + start))) l
  else skipn (Z.to_nat start) l.

(** [l[i]] for an index that is never negative here. *)
Definition py_getitem {A : Type} (l : list A) (i : nat) : outcome A :=
  match nth_error l i with
  | Some x => Returns x
  | None => Raises IndexError
  end.

(** [l.pop(0)]: the list that is left. *)
Definition py_pop0 {A : Type} (l : list A) : outcome (list A) :=
  match l with
  | [] => Raises IndexError
  | _ :: t => Returns t
  end.

(** [min(l)] and [max(l)]: the first least (greatest) element,
    [ValueError] on an empty sequence. *)
Definition py_min (l : list Q) : outcome Q :=
  match l with
  | [] => Raises ValueError
  | x :: t => Returns (fold_left (fun acc y => if Qltb y acc then y else acc) t x)
  end.

Definition py_max (l : list Q) : outcome Q :=
  match l with
  | [] => Raises ValueError
  | x :: t => Returns (fold_left (fun acc y => if Qltb acc y then y else acc) t x)
  end.

(** [utime.ticks_ms()] counts modulo [TICKS_PERIOD]; [utime.ticks_diff(a, b)]
    is the signed difference in [-TICKS_PERIOD/2, TICKS_PERIOD/2).  The
    period is MicroPython's default, 2^30. *)
Definition TICKS_PERIOD : Z := 2 ^ 30.

Definition ticks_diff (a b : Z) : Z :=
  (a - b + TICKS_PERIOD / 2) mod TICKS_PERIOD - TICKS_PERIOD / 2.

(** ** The monitor *)

Record HeartRateMonitor : Type := mkMonitor {
  sample_rate : Z;
  window_size : Z;
  smoothing_window : Z;
  samples : list Q;
  timestamps : list Z;
  filtered_samples : list Q
}.

(** [HeartRateMonitor(sample_rate, window_size, smoothing_window)]: the
    constructor stores its arguments as they come. *)
Definition init (sample_rate window_size smoothing_window : Z) : HeartRateMonitor :=
  mkMonitor sample_rate window_size smoothing_window [] [] [].

Definition set_samples (l : list Q) (m : HeartRateMonitor) : HeartRateMonitor :=
  mkMonitor (sample_rate m) (window_size m) (smoothing_window m)
            l (timestamps m) (filtered_samples m).

Definition set_timestamps (l : list Z) (m : HeartRateMonitor) : HeartRateMonitor :=
  mkMonitor (sample_rate m) (window_size m) (smoothing_window m)
            (samples m) l (filtered_samples m).

Definition set_filtered_samples (l : list Q) (m : HeartRateMonitor) : HeartRateMonitor :=
  mkMonitor (sample_rate m) (window_size m) (smoothing_window m)
            (samples m) (timestamps m) l.

(** ** Methods as state transformers that may raise *)

Definition M (A : Type) : Type := HeartRateMonitor -> outcome A * HeartRateMonitor.

Definition ret {A : Type} (a : A) : M A := fun m => (Returns a, m).

Definition bind {A B : Type} (c : M A) (k : A -> M B) : M B :=
  fun m =>
    match c m with
    | (Returns a, m') => k a m'
    | (Raises e, m') => (Raises e, m')
    end.

Definition get : M HeartRateMonitor := fun m => (Returns m, m).

Definition modify (f : HeartRateMonitor -> HeartRateMonitor) : M unit :=
  fun m => (Returns tt, f m).

Definition lift {A : Type} (o : outcome A) : M A := fun m => (o, m).

Declare Scope py_scope.
Delimit Scope py_scope with py.
Notation "x <- c ;; k" := (bind c (fun x => k))
  (at level 61, c at next level, right associativity) : py_scope.
Notation "c ;; k" := (bind c (fun _ => k))
  (at level 61, right associativity) : py_scope.
Local Open Scope py_scope.

(** [add_sample(self, sample)].  [now] is what [ticks_ms()] returns when the
    method reads the clock: it comes from the environment, not from the
    caller. *)
Definition add_sample (now : Z) (sample : Q) : M unit :=
  modify (fun m => set_samples (samples m ++ [sample]) m) ;;
  modify (fun m => set_timestamps (timestamps m ++ [now]) m) ;;
  m <- get ;;
  (if smoothing_window m <=? len (samples m)
   then
     smoothed_sample <-
       lift (py_truediv (py_sum (py_slice_from (- smoothing_window m) (samples m)))
                        (inject_Z (smoothing_window m))) ;;
     modify (fun m => set_filtered_samples (filtered_samples m ++ [smoothed_sample]) m)
   else
     modify (fun m => set_filtered_samples (filtered_samples m ++ [sample]) m)) ;;
  m <- get ;;
  if window_size m <? len (samples m)
  then
    s <- lift (py_pop0 (samples m)) ;;
    modify (set_samples s) ;;
    m <- get ;;
    t <- lift (py_pop0 (timestamps m)) ;;
    modify (set_timestamps t) ;;
    m <- get ;;
    f <- lift (py_pop0 (filtered_samples m)) ;;
    modify (set_filtered_samples f)
  else ret tt.

(** A call of [add_sample] with the positional arguments [args]: the method
    has one parameter besides [self], so any other number of arguments is a
    [TypeError] raised before the body runs. *)
Definition call_add_sample (now : Z) (args : list Q) : M unit :=
  match args with
  | [sample] => add_sample now sample
  | _ => lift (Raises TypeError)
  end.

(** Feeding readings one after the other, each with the clock value read
    during its call; an exception ends the run. *)
Fixpoint add_samples (inputs : list (Z * Q)) : M unit :=
  match inputs with
  | [] => ret tt
  | (now, sample) :: rest => add_sample now sample ;; add_samples rest
  end.

(** One round of the scan of [find_peaks], for index [i]. *)
Definition peak_step (threshold : Q) (peaks : list (Z * Q)) (i : nat)
  : M (list (Z * Q)) :=
  m <- get ;;
  cur <- lift (py_getitem (filtered_samples m) i) ;;
  if Qltb threshold cur then
    prev <- lift (py_getitem (filtered_samples m) (i - 1)) ;;
    if Qltb prev cur then
      next <- lift (py_getitem (filtered_samples m) (i + 1)) ;;
      if Qltb next cur then
        peak_time <- lift (py_getitem (timestamps m) i) ;;
        ret (peaks ++ [(peak_time, cur)])
      else ret peaks
    else ret peaks
  else ret peaks.

(** [for i in range(...)] threading the list built so far. *)
Fixpoint for_each {A : Type} (body : A -> nat -> M A) (acc : A) (idx : list nat)
  : M A :=
  match idx with
  | [] => ret acc
  | i :: rest => acc' <- body acc i ;; for_each body acc' rest
  end.

(** [range(lo, hi)] for ints, empty when [hi <= lo]. *)
Definition py_range (lo hi : Z) : list nat :=
  seq (Z.to_nat lo) (Z.to_nat (hi - lo)).

(** The detection threshold of [find_peaks]: half way between the least and
    the greatest of [recent_samples]. *)
Definition dynamic_threshold (recent_samples : list Q) : outcome Q :=
  match py_min recent_samples with
  | Raises e => Raises e
  | Returns min_val =>
      match py_max recent_samples with
      | Raises e => Raises e
      | Returns max_val => Returns (min_val + (max_val - min_val) * (1 # 2))%Q
      end
  end.

(** [find_peaks(self)]. *)
Definition find_peaks : M (list (Z * Q)) :=
  m <- get ;;
  if len (filtered_samples m) <? 3 then ret []
  else
    let recent_samples := py_slice_from (- window_size m) (filtered_samples m) in
    threshold <- lift (dynamic_threshold recent_samples) ;;
    for_each (peak_step threshold) [] (py_range 1 (len (filtered_samples m) - 1)).

(** One round of the interval loop of [calculate_heart_rate]. *)
Definition interval_step (peaks : list (Z * Q)) (intervals : list Z) (i : nat)
  : M (list Z) :=
  p <- lift (py_getitem peaks i) ;;
  q <- lift (py_getitem peaks (i - 1)) ;;
  ret (intervals ++ [ticks_diff (fst p) (fst q)]).

(** [calculate_heart_rate(self)]; [None] is the no-estimate result. *)
Definition calculate_heart_rate : M (option Q) :=
  peaks <- find_peaks ;;
  if len peaks <? 2 then ret None
  else
    intervals <- for_each (interval_step peaks) [] (py_range 1 (len peaks)) ;;
    average_interval <-
      lift (py_truediv (inject_Z (py_sumZ intervals)) (inject_Z (len intervals))) ;;
    heart_rate <- lift (py_truediv (inject_Z 60000) average_interval) ;;
    ret (Some heart_rate).

(** State after feeding [inputs] to a fresh monitor. *)
Definition fed (sr ws sw : Z) (inputs : list (Z * Q)) : HeartRateMonitor :=
  snd (add_samples inputs (init sr ws sw)).


(** ** Vocabulary of the statements *)

(** The last [n] elements of [l] (all of [l] when it is shorter). *)
Definition lastn {A : Type} (n : nat) (l : list A) : list A :=
  skipn (length l - n) l.

(** What [add_sample] does at the front of each list once the buffer is
    over capacity. *)
Definition evicted {A : Type} (over : bool) (l : list A) : list A :=
  if over then tl l else l.

(** Arithmetic mean of ints. *)
Definition arith_meanZ (l : list Z) : Q :=
  (inject_Z (py_sumZ l) / inject_Z (len l))%Q.

(** Wraparound-safe differences between consecutive clock readings. *)
Fixpoint consecutive_diffs (ts : list Z) : list Z :=
  match ts with
  | a :: (b :: _) as rest => ticks_diff b a :: consecutive_diffs rest
  | _ => []
  end.

(** The window invariant of the data model. *)
Definition window_inv (m : HeartRateMonitor) : Prop :=
  length (samples m) = length (timestamps m) /\
  length (timestamps m) = length (filtered_samples m) /\
  len (samples m) <= window_size m.

(** Reads issued by a caller that looks at every outcome. *)
Inductive read_op : Type := FindPeaks | CalculateHeartRate.

Inductive read_result : Type :=
| PeaksResult (o : outcome (list (Z * Q)))
| RateResult (o : outcome (option Q)).

Definition do_read (op : read_op) (m : HeartRateMonitor)
  : read_result * HeartRateMonitor :=
  match op with
  | FindPeaks => let (o, m') := find_peaks m in (PeaksResult o, m')
  | CalculateHeartRate => let (o, m') := calculate_heart_rate m in (RateResult o, m')
  end.

Fixpoint do_reads (ops : list read_op) (m : HeartRateMonitor)
  : list read_result * HeartRateMonitor :=
  match ops with
  | [] => ([], m)
  | op :: rest =>
      let (r, m') := do_read op m in
      let (rs, m'') := do_reads rest m' in
      (r :: rs, m'')
  end.

(** The filtered value [add_sample] computes once [sample] is in [samples]. *)
Definition filter_value (m : HeartRateMonitor) (sample : Q) : outcome Q :=
  if smoothing_window m <=? len (samples m) + 1
  then py_truediv (py_sum (py_slice_from (- smoothing_window m) (samples m ++ [sample])))
                  (inject_Z (smoothing_window m))
  else Returns sample.

(** The synthetic window of the single clean pulse: filtered values
    0,0,0,10,0,0,0 with unit-spaced timestamps. *)
Definition pulse_window : HeartRateMonitor :=
  mkMonitor 100 10 5
            [0; 0; 0; 10 # 1; 0; 0; 0]%Q
            [0; 1; 2; 3; 4; 5; 6]
            [0; 0; 0; 10 # 1; 0; 0; 0]%Q.

(** Readings with integer values. *)
Definition readings (l : list (Z * Z)) : list (Z * Q) :=
  map (fun p => (fst p, inject_Z (snd p))) l.

(** Three beats one second apart, fed through [add_sample] without
    smoothing. *)
Definition steady_window : HeartRateMonitor :=
  fed 100 10 1
      (readings [(0, 0); (0, 10); (500, 0); (1000, 10); (1500, 0); (2000, 10); (2500, 0)]).

(** Two beats read at one and the same clock value. *)
Definition duplicate_clock_window : HeartRateMonitor :=
  fed 100 10 1 (readings [(5, 0); (5, 10); (5, 0); (5, 10); (5, 0)]).

(** Two beats with the second one read at an earlier clock value. *)
Definition backward_clock_window : HeartRateMonitor :=
  fed 100 10 1 (readings [(0, 0); (1000, 10); (1000, 0); (500, 10); (500, 0)]).

(** Five rising readings. *)
Definition rising_inputs : list (Z * Q) :=
  readings [(0, 1); (10, 2); (20, 3); (30, 4); (40, 5)].

(** A read leaves the monitor as it found it. *)
Definition read_only {A : Type} (c : M A) : Prop :=
  forall m, snd (c m) = m.

(** The test [find_peaks] applies at index [i], on the list [f]. *)
Definition is_peak_at (threshold : Q) (f : list Q) (i : nat) : bool :=
  Qltb threshold (nth i f 0%Q) &&
  Qltb (nth (i - 1) f 0%Q) (nth i f 0%Q) &&
  Qltb (nth (i + 1) f 0%Q) (nth i f 0%Q).

(** The peak [find_peaks] reports for index [i]. *)
Definition peak_of (m : HeartRateMonitor) (i : nat) : Z * Q :=
  (nth i (timestamps m) 0, nth i (filtered_samples m) 0%Q).

(** Clock readings whose consecutive differences fit the range of
    [ticks_diff], so that none of them wraps. *)
Fixpoint small_steps (ts : list Z) : Prop :=
  match ts with
  | a :: (b :: _) as rest =>
      - (TICKS_PERIOD / 2) <= b - a < TICKS_PERIOD / 2 /\ small_steps rest
  | _ => True
  end.

(** The monitor as it would be had the clock been [c] ticks ahead at every
    reading. *)
Definition shift_clock (c : Z) (m : HeartRateMonitor) : HeartRateMonitor :=
  set_timestamps (map (fun t => (t + c) mod TICKS_PERIOD) (timestamps m)) m.

(** Times that never go back and never advance by half a period or more
    from one to the next. *)
Fixpoint forward_steps (ts : list Z) : Prop :=
  match ts with
  | a :: (b :: _) as rest =>
      0 <= b - a < TICKS_PERIOD / 2 /\ forward_steps rest
  | _ => True
  end.

Definition shift_peak (c : Z) (p : Z * Q) : Z * Q :=
  ((fst p + c) mod TICKS_PERIOD, snd p).

Definition outcome_map {A B : Type} (g : A -> B) (o : outcome A) : outcome B :=
  match o with
  | Returns a => Returns (g a)
  | Raises e => Raises e
  end.

(** ** The program around the monitor: [main]

    The sensor driver and the bus are not part of the program text; what
    they answer is an input of the model, what [main] asks of them and what
    it prints is an output. *)

(** [int(x)] on a number: truncation towards zero. *)
Definition py_int (x : Q) : Z := Z.quot (Qnum x) (Zpos (Qden x)).

(** The lines [main] can print; the heart-rate line carries the value that
    is formatted into it. *)
Inductive printed : Type :=
| SensorNotFound
| IncompatibleDevice
| HeartRateLine (heart_rate : Q)
| Recalculating.

(** The configuration calls [main] makes on the sensor, in order. *)
Inductive sensor_call : Type :=
| SetupSensor
| SetSampleRate (hz : Z)
| SetFifoAverage (n : Z)
| SetActiveLedsAmplitudeMedium.

Definition sensor_sample_rate : Z := 400.
Definition sensor_fifo_average : Z := 8.
Definition actual_acquisition_rate : Z :=
  py_int (inject_Z sensor_sample_rate / inject_Z sensor_fifo_average).
Definition hr_compute_interval : Q := inject_Z 2.

(** [HeartRateMonitor(sample_rate=..., window_size=int(... * 3))]; the
    smoothing size is the constructor's default, 5. *)
Definition main_monitor : HeartRateMonitor :=
  init actual_acquisition_rate (actual_acquisition_rate * 3) 5.

Record loop_state : Type := mkLoop {
  hr_monitor : HeartRateMonitor;
  ref_time : Z
}.

(** How [main] gets to its loop, or stops before it.  [scan] is what
    [i2c.scan()] returns, [part_id_ok] what [sensor.check_part_id()]
    answers, [now] the first clock reading. *)
Inductive startup : Type :=
| Stopped (line : printed)
| Running (calls : list sensor_call) (st : loop_state).

Definition main_startup (i2c_address : Z) (scan : list Z) (part_id_ok : bool)
           (now : Z) : startup :=
  if negb (existsb (Z.eqb i2c_address) scan) then Stopped SensorNotFound
  else if negb part_id_ok then Stopped IncompatibleDevice
  else Running [SetupSensor; SetSampleRate sensor_sample_rate;
                SetFifoAverage sensor_fifo_average; SetActiveLedsAmplitudeMedium]
               (mkLoop main_monitor now).

(** What the outside world supplies during one round of the loop: the red
    and infrared readings when [sensor.available()], and the clock values
    read by [add_sample], by the interval test and by the reset of
    [ref_time] (each used only if that read takes place). *)
Record loop_env : Type := mkEnv {
  reading : option (Q * Q);
  clock_add : Z;
  clock_check : Z;
  clock_reset : Z
}.

(** First half of a round: [if sensor.available(): ... add_sample(ir)]. *)
Definition feed_if_available (e : loop_env) (m : HeartRateMonitor)
  : outcome unit * HeartRateMonitor :=
  match reading e with
  | Some (red_reading, ir_reading) => add_sample (clock_add e) ir_reading m
  | None => (Returns tt, m)
  end.

(** Second half: the periodic report. *)
Definition report_if_due (e : loop_env) (ref : Z) (m : HeartRateMonitor)
  : outcome (list printed) * loop_state :=
  match py_truediv (inject_Z (ticks_diff (clock_check e) ref)) (inject_Z 1000) with
  | Raises ex => (Raises ex, mkLoop m ref)
  | Returns elapsed =>
      if Qltb hr_compute_interval elapsed then
        match calculate_heart_rate m with
        | (Raises ex, m2) => (Raises ex, mkLoop m2 ref)
        | (Returns (Some heart_rate), m2) =>
            (Returns [HeartRateLine heart_rate], mkLoop m2 (clock_reset e))
        | (Returns None, m2) =>
            (Returns [Recalculating], mkLoop m2 (clock_reset e))
        end
      else (Returns [], mkLoop m ref)
  end.

(** One round of [while True]: the lines printed and the state left, or the
    exception that ends the program. *)
Definition loop_iteration (e : loop_env) (st : loop_state)
  : outcome (list printed) * loop_state :=
  match feed_if_available e (hr_monitor st) with
  | (Raises ex, m1) => (Raises ex, mkLoop m1 (ref_time st))
  | (Returns _, m1) => report_if_due e (ref_time st) m1
  end.

(** The first rounds of the loop, one per element of [envs]. *)
Fixpoint main_loop (envs : list loop_env) (st : loop_state)
  : outcome (list printed) * loop_state :=
  match envs with
  | [] => (Returns [], st)
  | e :: rest =>
      match loop_iteration e st with
      | (Raises ex, st1) => (Raises ex, st1)
      | (Returns out, st1) =>
          match main_loop rest st1 with
          | (Raises ex, st2) => (Raises ex, st2)
          | (Returns out', st2) => (Returns (out ++ out'), st2)
          end
      end
  end.

(** Number of rounds in which a reading was available. *)
Definition readings_taken (envs : list loop_env) : nat :=
  length (filter (fun e => match reading e with Some _ => true | None => false end) envs).

(** ** The methods with the arithmetic Python performs

    The definitions so far compute with exact rationals; they carry the
    statements that do not depend on how a computed number is rounded.
    Module [F64] embeds the same four methods with the numbers the program
    really stores: a number is an [int] or a [float], [int] arithmetic is
    exact, every [float] operation is the exact operation followed by
    rounding to the nearest binary64 value (ties to even), an [int] meeting
    a [float] is converted first, and the quotient of two [int]s is rounded
    once.  A [float] is given by the rational it denotes: the two zeros,
    which compare equal, are one number, and infinities and NaN, which the
    readings of the sensor cannot produce, are not part of the model. *)

Module F64.

(** *** Rounding to binary64 *)

Definition pow2 (e : Z) : Q := Qpower (2 # 1) e.

(** For [q > 0], the [l] with [2^l <= q < 2^(l+1)]. *)
Definition binade (q : Q) : Z :=
  let a := Z.log2 (Qnum q) in
  let b := Z.log2 (Zpos (Qden q)) in
  if Qle_bool (pow2 (a - b)) q then a - b else a - b - 1.

(** Nearest integer, ties to the even one. *)
Definition round_half_even (x : Q) : Z :=
  let f := Qfloor x in
  match Qcompare (x - inject_Z f) (1 # 2) with
  | Lt => f
  | Gt => f + 1
  | Eq => if Z.even f then f else f + 1
  end.

(** Exponent of the last place: 53 significant bits, subnormals below
    [2^-1022]. *)
Definition quantum (q : Q) : Z := Z.max (binade q - 52) (-1074).

Definition round_pos (q : Q) : Q :=
  Qred (inject_Z (round_half_even (q / pow2 (quantum q))) * pow2 (quantum q)).

Definition round64 (q : Q) : Q :=
  match Qnum q with
  | 0 => 0%Q
  | Zpos _ => round_pos q
  | Zneg _ => Qopp (round_pos (Qopp q))
  end.

(** *** The machine's binary64 *)

(** The rational a machine float denotes (0 for an infinity or a NaN), and
    the machine float of a small natural number. *)
Definition machine_value (f : PrimFloat.float) : Q :=
  match FloatOps.Prim2SF f with
  | SpecFloat.S754_finite s m e =>
      Qred ((if s then - (1) else 1) * inject_Z (Zpos m) * pow2 e)
  | _ => 0%Q
  end.

Definition machine_int (z : Z) : PrimFloat.float :=
  PrimFloat.of_uint63 (Uint63.of_Z z).

(** *** Python numbers *)

Inductive num : Type :=
| PyInt (z : Z)
| PyFloat (x : Q).

(** The real number a Python number denotes; comparisons between numbers,
    also between an [int] and a [float], compare these. *)
Definition value (a : num) : Q :=
  match a with
  | PyInt z => inject_Z z
  | PyFloat x => x
  end.

(** [float(a)]. *)
Definition to_float (a : num) : Q :=
  match a with
  | PyInt z => round64 (inject_Z z)
  | PyFloat x => x
  end.

Definition py_lt (a b : num) : bool := Qltb (value a) (value b).

Definition py_add (a b : num) : num :=
  match a, b with
  | PyInt x, PyInt y => PyInt (x + y)
  | _, _ => PyFloat (round64 (to_float a + to_float b))
  end.

Definition py_sub (a b : num) : num :=
  match a, b with
  | PyInt x, PyInt y => PyInt (x - y)
  | _, _ => PyFloat (round64 (to_float a - to_float b))
  end.

Definition py_mul (a b : num) : num :=
  match a, b with
  | PyInt x, PyInt y => PyInt (x * y)
  | _, _ => PyFloat (round64 (to_float a * to_float b))
  end.

(** [a / b]: always a [float]; the quotient of two [int]s is rounded once. *)
Definition py_truediv (a b : num) : outcome num :=
  if Qeq_bool (value b) 0 then Raises ZeroDivisionError
  else
    Returns (PyFloat
               match a, b with
               | PyInt x, PyInt y => round64 (inject_Z x / inject_Z y)
               | _, _ => round64 (to_float a / to_float b)
               end).

(** The value of [a / b] when [b] is not zero. *)
Definition div_value (a b : num) : Q :=
  match py_truediv a b with
  | Returns q => value q
  | Raises _ => 0%Q
  end.

(** [sum(l)]: from the [int] 0, left to right. *)
Definition py_sum (l : list num) : num := fold_left py_add l (PyInt 0).

Definition py_min (l : list num) : outcome num :=
  match l with
  | [] => Raises ValueError
  | x :: t => Returns (fold_left (fun acc y => if py_lt y acc then y else acc) t x)
  end.

Definition py_max (l : list num) : outcome num :=
  match l with
  | [] => Raises ValueError
  | x :: t => Returns (fold_left (fun acc y => if py_lt acc y then y else acc) t x)
  end.

(** *** The monitor and its methods *)

Record HeartRateMonitor : Type := mkMonitor {
  sample_rate : Z;
  window_size : Z;
  smoothing_window : Z;
  samples : list num;
  timestamps : list Z;
  filtered_samples : list num
}.

Definition init (sample_rate window_size smoothing_window : Z) : HeartRateMonitor :=
  mkMonitor sample_rate window_size smoothing_window [] [] [].

Definition set_samples (l : list num) (m : HeartRateMonitor) : HeartRateMonitor :=
  mkMonitor (sample_rate m) (window_size m) (smoothing_window m)
            l (timestamps m) (filtered_samples m).

Definition set_timestamps (l : list Z) (m : HeartRateMonitor) : HeartRateMonitor :=
  mkMonitor (sample_rate m) (window_size m) (smoothing_window m)
            (samples m) l (filtered_samples m).

Definition set_filtered_samples (l : list num) (m : HeartRateMonitor) : HeartRateMonitor :=
  mkMonitor (sample_rate m) (window_size m) (smoothing_window m)
            (samples m) (timestamps m) l.

Definition M (A : Type) : Type := HeartRateMonitor -> outcome A * HeartRateMonitor.

Definition ret {A : Type} (a : A) : M A := fun m => (Returns a, m).

Definition bind {A B : Type} (c : M A) (k : A -> M B) : M B :=
  fun m =>
    match c m with
    | (Returns a, m') => k a m'
    | (Raises e, m') => (Raises e, m')
    end.

Definition get : M HeartRateMonitor := fun m => (Returns m, m).

Definition modify (f : HeartRateMonitor -> HeartRateMonitor) : M unit :=
  fun m => (Returns tt, f m).

Definition lift {A : Type} (o : outcome A) : M A := fun m => (o, m).

Declare Scope f64_scope.
Notation "x <- c ;; k" := (bind c (fun x => k))
  (at level 61, c at next level, right associativity) : f64_scope.
Notation "c ;; k" := (bind c (fun _ => k))
  (at level 61, right associativity) : f64_scope.
Local Open Scope f64_scope.

(** [add_sample(self, sample)]; [now] is the value [ticks_ms()] returns. *)
Definition add_sample (now : Z) (sample : num) : M unit :=
  modify (fun m => set_samples (samples m ++ [sample]) m) ;;
  modify (fun m => set_timestamps (timestamps m ++ [now]) m) ;;
  m <- get ;;
  (if smoothing_window m <=? len (samples m)
   then
     smoothed_sample <-
       lift (py_truediv (py_sum (py_slice_from (- smoothing_window m) (samples m)))
                        (PyInt (smoothing_window m))) ;;
     modify (fun m => set_filtered_samples (filtered_samples m ++ [smoothed_sample]) m)
   else
     modify (fun m => set_filtered_samples (filtered_samples m ++ [sample]) m)) ;;
  m <- get ;;
  if window_size m <? len (samples m)
  then
    s <- lift (py_pop0 (samples m)) ;;
    modify (set_samples s) ;;
    m <- get ;;
    t <- lift (py_pop0 (timestamps m)) ;;
    modify (set_timestamps t) ;;
    m <- get ;;
    f <- lift (py_pop0 (filtered_samples m)) ;;
    modify (set_filtered_samples f)
  else ret tt.

Fixpoint add_samples (inputs : list (Z * num)) : M unit :=
  match inputs with
  | [] => ret tt
  | (now, sample) :: rest => add_sample now sample ;; add_samples rest
  end.

Definition peak_step (threshold : num) (peaks : list (Z * num)) (i : nat)
  : M (list (Z * num)) :=
  m <- get ;;
  cur <- lift (py_getitem (filtered_samples m) i) ;;
  if py_lt threshold cur then
    prev <- lift (py_getitem (filtered_samples m) (i - 1)) ;;
    if py_lt prev cur then
      next <- lift (py_getitem (filtered_samples m) (i + 1)) ;;
      if py_lt next cur then
        peak_time <- lift (py_getitem (timestamps m) i) ;;
        ret (peaks ++ [(peak_time, cur)])
      else ret peaks
    else ret peaks
  else ret peaks.

Fixpoint for_each {A : Type} (body : A -> nat -> M A) (acc : A) (idx : list nat)
  : M A :=
  match idx with
  | [] => ret acc
  | i :: rest => acc' <- body acc i ;; for_each body acc' rest
  end.

(** [min_val + (max_val - min_val) * 0.5]. *)
Definition dynamic_threshold (recent_samples : list num) : outcome num :=
  match py_min recent_samples with
  | Raises e => Raises e
  | Returns min_val =>
      match py_max recent_samples with
      | Raises e => Raises e
      | Returns max_val =>
          Returns (py_add min_val (py_mul (py_sub max_val min_val) (PyFloat (1 # 2))))
      end
  end.

(** [find_peaks(self)]. *)
Definition find_peaks : M (list (Z * num)) :=
  m <- get ;;
  if len (filtered_samples m) <? 3 then ret []
  else
    let recent_samples := py_slice_from (- window_size m) (filtered_samples m) in
    threshold <- lift (dynamic_threshold recent_samples) ;;
    for_each (peak_step threshold) [] (py_range 1 (len (filtered_samples m) - 1)).

Definition interval_step (peaks : list (Z * num)) (intervals : list Z) (i : nat)
  : M (list Z) :=
  p <- lift (py_getitem peaks i) ;;
  q <- lift (py_getitem peaks (i - 1)) ;;
  ret (intervals ++ [ticks_diff (fst p) (fst q)]).

(** [calculate_heart_rate(self)]. *)
Definition calculate_heart_rate : M (option num) :=
  peaks <- find_peaks ;;
  if len peaks <? 2 then ret None
  else
    intervals <- for_each (interval_step peaks) [] (py_range 1 (len peaks)) ;;
    average_interval <-
      lift (py_truediv (PyInt (py_sumZ intervals)) (PyInt (len intervals))) ;;
    heart_rate <- lift (py_truediv (PyInt 60000) average_interval) ;;
    ret (Some heart_rate).

(** State after feeding [inputs] to a fresh monitor. *)
Definition fed (sr ws sw : Z) (inputs : list (Z * num)) : HeartRateMonitor :=
  snd (add_samples inputs (init sr ws sw)).

(** Readings that are [int]s, as the sensor delivers them, and readings
    that are [float]s. *)
Definition readings (l : list (Z * Z)) : list (Z * num) :=
  map (fun p => (fst p, PyInt (snd p))) l.

Definition float_readings (l : list (Z * Q)) : list (Z * num) :=
  map (fun p => (fst p, PyFloat (snd p))) l.

(** *** Vocabulary of the statements *)

Definition lt (a b : num) : Prop := (value a < value b)%Q.
Definition le (a b : num) : Prop := (value a <= value b)%Q.

(** The filtered value [add_sample] computes once [sample] is in [samples]. *)
Definition filter_value (m : HeartRateMonitor) (sample : num) : outcome num :=
  if smoothing_window m <=? len (samples m) + 1
  then py_truediv (py_sum (py_slice_from (- smoothing_window m) (samples m ++ [sample])))
                  (PyInt (smoothing_window m))
  else Returns sample.

(** [sum(l) / sw] for a smoothing size that is not zero. *)
Definition smoothed (sw : Z) (l : list num) : num :=
  PyFloat (div_value (py_sum l) (PyInt sw)).

(** The value a call appends to [filtered_samples] on a monitor of capacity
    [ws] and smoothing size [sw] that was fed the readings [pre] before:
    [sum(...) / smoothing_window] over the last [sw] readings when the
    buffer holds that many, the reading otherwise. *)
Definition appended (ws sw : Z) (pre : list num) (x : num) : num :=
  if sw <=? Z.min (len pre + 1) (ws + 1)
  then smoothed sw (lastn (Z.to_nat sw) (pre ++ [x]))
  else x.

(** The values the calls append to [filtered_samples] one after the other,
    eviction left aside, when the readings [xs] follow the readings [pre]. *)
Fixpoint trace_from (ws sw : Z) (pre xs : list num) : list num :=
  match xs with
  | [] => []
  | x :: rest => appended ws sw pre x :: trace_from ws sw (pre ++ [x]) rest
  end.

Definition is_int (a : num) : bool :=
  match a with
  | PyInt _ => true
  | PyFloat _ => false
  end.

(** Readings that are all [int]s or all [float]s. *)
Definition homogeneous (l : list num) : Prop :=
  Forall (fun a => is_int a = true) l \/ Forall (fun a => is_int a = false) l.

(** Shapes of a sequence of numbers. *)
Definition adjacent (R : num -> num -> Prop) (l : list num) : Prop :=
  forall i : nat, (S i < length l)%nat -> R (nth i l (PyInt 0)) (nth (S i) l (PyInt 0)).

Definition nondecreasing : list num -> Prop := adjacent le.
Definition nonincreasing : list num -> Prop := adjacent (fun a b => le b a).
Definition strictly_increasing : list num -> Prop := adjacent lt.
Definition strictly_decreasing : list num -> Prop := adjacent (fun a b => lt b a).

(** The mean of [l] as Python computes it, [sum(l) / len(l)]. *)
Definition py_mean (l : list num) : outcome num :=
  py_truediv (py_sum l) (PyInt (len l)).

Definition window_inv (m : HeartRateMonitor) : Prop :=
  length (samples m) = length (timestamps m) /\
  length (timestamps m) = length (filtered_samples m) /\
  len (samples m) <= window_size m.

Definition read_only {A : Type} (c : M A) : Prop :=
  forall m, snd (c m) = m.

Definition is_peak_at (threshold : num) (f : list num) (i : nat) : bool :=
  py_lt threshold (nth i f (PyInt 0)) &&
  py_lt (nth (i - 1) f (PyInt 0)) (nth i f (PyInt 0)) &&
  py_lt (nth (i + 1) f (PyInt 0)) (nth i f (PyInt 0)).

Definition peak_of (m : HeartRateMonitor) (i : nat) : Z * num :=
  (nth i (timestamps m) 0, nth i (filtered_samples m) (PyInt 0)).

(** *** Windows and runs used as instances *)

(** Seven readings whose means 1.8, 1.2 and 0.6 are not dyadic. *)
Definition rounding_window : HeartRateMonitor :=
  fed 100 10 5 (readings [(0, 3); (10, 3); (20, 1); (30, 1); (40, 1); (50, 0); (60, 0)]).

(** Three beats one second apart, without smoothing. *)
Definition steady_window : HeartRateMonitor :=
  fed 100 10 1
      (readings [(0, 0); (0, 10); (500, 0); (1000, 10); (1500, 0); (2000, 10); (2500, 0)]).

(** Three beats one second apart, the first one just before the clock
    wraps. *)
Definition wrapping_window : HeartRateMonitor :=
  fed 100 10 1
      (readings [(1073741324, 0); (1073741324, 10); (0, 0); (500, 10); (1000, 0);
                 (1500, 10); (2000, 0)]).

(** Runs of rising and of falling readings. *)
Definition rising_inputs : list (Z * num) :=
  readings [(0, 1); (10, 2); (20, 3); (30, 4); (40, 5)].

Definition falling_inputs : list (Z * num) :=
  readings [(0, 1000); (10, 40); (20, 30); (30, 20); (40, 10); (50, 9);
            (60, 8); (70, 7); (80, 6); (90, 5); (100, 4); (110, 3)].

Definition large_falling_inputs : list (Z * num) :=
  readings [(0, 18014398509481987); (10, 18014398509481986); (20, 18014398509481985)].

(** The float 0.1, read four times. *)
Definition tenth : Q := 3602879701896397 # 36028797018963968.

Definition flat_float_inputs : list (Z * num) :=
  float_readings [(0, tenth); (10, tenth); (20, tenth); (30, tenth)].

End F64.

(** ** Facts about the Python values *)

(** Reduce the record projections and the monad, leave the arithmetic. *)
Ltac run_py :=
  cbn -[len Z.leb Z.ltb py_truediv py_sum py_slice_from app Z.add Z.sub
        Z.opp Z.of_nat Z.to_nat].


Lemma Qltb_lt (a b : Q) : Qltb a b = true <-> (a < b)%Q.
Proof. unfold Qltb, Qlt. apply Z.ltb_lt. Qed.

Lemma Qltb_ge (a b : Q) : Qltb a b = false <-> (b <= a)%Q.
Proof. unfold Qltb, Qle. apply Z.ltb_ge. Qed.

Lemma len_app {A : Type} (l : list A) (x : A) : len (l ++ [x]) = len l + 1.
Proof. unfold len. rewrite length_app. simpl. lia. Qed.

Lemma len_nonneg {A : Type} (l : list A) : 0 <= len l.
Proof. unfold len. lia. Qed.

Lemma py_pop0_snoc {A : Type} (l : list A) (x : A) :
  py_pop0 (l ++ [x]) = Returns (tl (l ++ [x])).
Proof. destruct l; reflexivity. Qed.

(** [add_sample] in one equation. *)
Lemma add_sample_eq (now : Z) (sample : Q) (m : HeartRateMonitor) :
  add_sample now sample m =
  match filter_value m sample with
  | Raises e =>
      (Raises e,
       mkMonitor (sample_rate m) (window_size m) (smoothing_window m)
                 (samples m ++ [sample]) (timestamps m ++ [now]) (filtered_samples m))
  | Returns v =>
      let over := window_size m <? len (samples m) + 1 in
      (Returns tt,
       mkMonitor (sample_rate m) (window_size m) (smoothing_window m)
                 (evicted over (samples m ++ [sample]))
                 (evicted over (timestamps m ++ [now]))
                 (evicted over (filtered_samples m ++ [v])))
  end.
Proof.
  destruct m as [sr ws sw s t f].
  unfold add_sample, filter_value, bind, modify, get, lift, ret,
    set_samples, set_timestamps, set_filtered_samples.
  run_py. rewrite len_app.
  destruct (sw <=? len s + 1); run_py.
  - destruct (py_truediv _ _) as [v | e]; run_py; [ | reflexivity ].
    rewrite len_app.
    destruct (ws <? len s + 1); run_py; [ | reflexivity ].
    rewrite !py_pop0_snoc. reflexivity.
  - rewrite len_app.
    destruct (ws <? len s + 1); run_py; [ | reflexivity ].
    rewrite !py_pop0_snoc. reflexivity.
Qed.

Lemma py_truediv_nonzero (a : Q) (d : Z) :
  d <> 0 -> py_truediv a (inject_Z d) = Returns (a / inject_Z d)%Q.
Proof.
  intros Hd. unfold py_truediv.
  destruct (Qeq_bool (inject_Z d) 0) eqn:E; [ | reflexivity ].
  apply Qeq_bool_eq in E. unfold Qeq in E. simpl in E. lia.
Qed.

Lemma py_truediv_zero (a : Q) : py_truediv a (inject_Z 0) = Raises ZeroDivisionError.
Proof. reflexivity. Qed.

(** ** The sliding window *)

Lemma filter_value_returns (m : HeartRateMonitor) (x : Q) :
  smoothing_window m <> 0 -> exists v, filter_value m x = Returns v.
Proof.
  intros Hsw. unfold filter_value.
  destruct (smoothing_window m <=? len (samples m) + 1).
  - rewrite py_truediv_nonzero by assumption. eauto.
  - eauto.
Qed.

Lemma length_evicted_snoc {A : Type} (over : bool) (l : list A) (x : A) :
  length (evicted over (l ++ [x])) = if over then length l else S (length l).
Proof.
  destruct over; simpl.
  - destruct l; simpl; [ reflexivity | ]. rewrite length_app. simpl. lia.
  - rewrite length_app. simpl. lia.
Qed.

Lemma add_sample_keeps_inv (now : Z) (x : Q) (m : HeartRateMonitor) :
  window_inv m -> smoothing_window m <> 0 ->
  fst (add_sample now x m) = Returns tt /\
  window_inv (snd (add_sample now x m)) /\
  window_size (snd (add_sample now x m)) = window_size m /\
  smoothing_window (snd (add_sample now x m)) = smoothing_window m.
Proof.
  intros (Hst & Htf & Hcap) Hsw.
  rewrite add_sample_eq.
  destruct (filter_value_returns m x Hsw) as [v ->].
  cbv zeta. unfold window_inv. cbn [fst snd samples timestamps filtered_samples
                                     window_size smoothing_window].
  unfold len in *. rewrite !length_evicted_snoc.
  destruct (window_size m <? Z.of_nat (length (samples m)) + 1) eqn:E.
  - apply Z.ltb_lt in E. split; [ | split; [ split; [ | split ] | split ] ];
      try reflexivity; lia.
  - apply Z.ltb_ge in E. split; [ | split; [ split; [ | split ] | split ] ];
      try reflexivity; lia.
Qed.

Lemma add_samples_keep_inv (inputs : list (Z * Q)) :
  forall m, window_inv m -> smoothing_window m <> 0 ->
  fst (add_samples inputs m) = Returns tt /\
  window_inv (snd (add_samples inputs m)) /\
  window_size (snd (add_samples inputs m)) = window_size m /\
  smoothing_window (snd (add_samples inputs m)) = smoothing_window m.
Proof.
  induction inputs as [ | [now x] rest IH ]; intros m Hinv Hsw.
  - simpl. auto.
  - destruct (add_sample_keeps_inv now x m Hinv Hsw) as (Ho & Hi & Hw & Hs).
    cbn [add_samples]. unfold bind.
    destruct (add_sample now x m) as [[[] | e] m1]; cbn [fst snd] in *;
      [ | discriminate ].
    destruct (IH m1 Hi) as (Ho' & Hi' & Hw' & Hs'); [ congruence | ].
    split; [ assumption | split; [ assumption | split; congruence ] ].
Qed.

Lemma init_inv (sr ws sw : Z) : 0 <= ws -> window_inv (init sr ws sw).
Proof. intros H. unfold window_inv, init, len. simpl. auto. Qed.

(** C2: the three sequences keep one length, at most [window_size], after
    every [add_sample] call.  Stated for a monitor built by the constructor
    with a capacity that is not negative and a smoothing size that is not
    zero, after any sequence of calls (so after each call of a longer one),
    and as a step from any window state that satisfies the invariant; no
    call raises. *)
Theorem window_bounded_after_each_add_sample :
  (forall (sr ws sw : Z) (inputs : list (Z * Q)),
      0 <= ws -> sw <> 0 ->
      let m := fed sr ws sw inputs in
      fst (add_samples inputs (init sr ws sw)) = Returns tt /\
      length (samples m) = length (timestamps m) /\
      length (timestamps m) = length (filtered_samples m) /\
      len (samples m) <= ws) /\
  (forall (m : HeartRateMonitor) (now : Z) (x : Q),
      window_inv m -> smoothing_window m <> 0 ->
      fst (add_sample now x m) = Returns tt /\
      window_inv (snd (add_sample now x m))).
Proof.
  split.
  - intros sr ws sw inputs Hws Hsw m.
    destruct (add_samples_keep_inv inputs (init sr ws sw) (init_inv sr ws sw Hws) Hsw)
      as (Ho & (H1 & H2 & H3) & Hw & _).
    subst m. unfold fed. cbn [window_size init] in Hw.
    rewrite Hw in H3. auto.
  - intros m now x Hinv Hsw.
    destruct (add_sample_keeps_inv now x m Hinv Hsw) as (Ho & Hi & _). auto.
Qed.

Lemma window_bounded_after_each_add_sample_witness :
  let m := fed 50 2 2 [(0, 5%Q); (1, 7%Q); (2, 9%Q)] in
  length (samples m) = length (timestamps m) /\
  length (timestamps m) = length (filtered_samples m) /\
  len (samples m) <= 2.
Proof.
  pose proof (proj1 window_bounded_after_each_add_sample 50 2 2
                [(0, 5%Q); (1, 7%Q); (2, 9%Q)]) as H.
  destruct H as (_ & H); [ lia | lia | exact H ].
Defined.

(** C10: the constructor keeps any [smoothing_window], also a non-positive
    one; with [smoothing_window = 0] every [add_sample] call, the first
    included, raises [ZeroDivisionError] in the moving average; with
    [smoothing_window >= 1] no [add_sample] call raises. *)
Theorem smoothing_window_zero_divides_by_zero :
  (forall sr ws sw : Z, init sr ws sw = mkMonitor sr ws sw [] [] []) /\
  (forall (m : HeartRateMonitor) (now : Z) (x : Q),
      smoothing_window m = 0 ->
      (smoothing_window m <=? len (samples m ++ [x])) = true /\
      fst (add_sample now x m) = Raises ZeroDivisionError) /\
  (forall (m : HeartRateMonitor) (now : Z) (x : Q),
      1 <= smoothing_window m ->
      inject_Z (smoothing_window m) <> 0%Q /\
      fst (add_sample now x m) = Returns tt).
Proof.
  split; [ reflexivity | split ].
  - intros m now x Hsw. split.
    + rewrite Hsw. apply Z.leb_le. apply len_nonneg.
    + rewrite add_sample_eq. unfold filter_value. rewrite Hsw.
      replace (0 <=? len (samples m) + 1) with true
        by (symmetry; apply Z.leb_le; pose proof (len_nonneg (samples m)); lia).
      rewrite py_truediv_zero. reflexivity.
  - intros m now x Hsw. split.
    + intros H. injection H. lia.
    + rewrite add_sample_eq.
      destruct (filter_value_returns m x) as [v ->]; [ lia | reflexivity ].
Qed.

Lemma smoothing_window_zero_divides_by_zero_witness :
  fst (add_sample 7 (3 # 1) (init 100 10 0)) = Raises ZeroDivisionError /\
  fst (add_sample 7 (3 # 1) (init 100 10 5)) = Returns tt.
Proof.
  split.
  - apply (proj1 (proj2 smoothing_window_zero_divides_by_zero)). reflexivity.
  - apply (proj2 (proj2 smoothing_window_zero_divides_by_zero)). simpl. lia.
Defined.

(** ** Reads *)

Lemma read_only_ret {A : Type} (a : A) : read_only (ret a).
Proof. intros m. reflexivity. Qed.

Lemma read_only_lift {A : Type} (o : outcome A) : read_only (lift o).
Proof. intros m. reflexivity. Qed.

Lemma read_only_get : read_only get.
Proof. intros m. reflexivity. Qed.

Lemma read_only_bind {A B : Type} (c : M A) (k : A -> M B) :
  read_only c -> (forall a, read_only (k a)) -> read_only (bind c k).
Proof.
  intros Hc Hk m. unfold bind. specialize (Hc m).
  destruct (c m) as [[a | e] m1]; cbn [snd] in *; subst m1.
  - apply Hk.
  - reflexivity.
Qed.

Lemma read_only_for_each {A : Type} (body : A -> nat -> M A) (idx : list nat) :
  (forall acc i, read_only (body acc i)) ->
  forall acc, read_only (for_each body acc idx).
Proof.
  intros Hb. induction idx as [ | i rest IH ]; intros acc; cbn [for_each].
  - apply read_only_ret.
  - apply read_only_bind; [ apply Hb | intros a; apply IH ].
Qed.

Ltac read_only_tac :=
  repeat first
    [ apply read_only_ret | apply read_only_lift | apply read_only_get
    | apply read_only_bind; [ | intros ? ]
    | apply read_only_for_each; intros ? ?
    | match goal with |- read_only (if ?b then _ else _) => destruct b end ].

Lemma peak_step_read_only (th : Q) (peaks : list (Z * Q)) (i : nat) :
  read_only (peak_step th peaks i).
Proof. unfold peak_step. read_only_tac. Qed.

Lemma interval_step_read_only (peaks : list (Z * Q)) (acc : list Z) (i : nat) :
  read_only (interval_step peaks acc i).
Proof. unfold interval_step. read_only_tac. Qed.

Lemma find_peaks_read_only : read_only find_peaks.
Proof.
  unfold find_peaks. read_only_tac.
Qed.

Lemma calculate_heart_rate_read_only : read_only calculate_heart_rate.
Proof.
  unfold calculate_heart_rate.
  apply read_only_bind; [ apply find_peaks_read_only | intros peaks ].
  read_only_tac.
Qed.

Lemma find_peaks_pair (m : HeartRateMonitor) :
  find_peaks m = (fst (find_peaks m), m).
Proof.
  pose proof (find_peaks_read_only m) as H.
  destruct (find_peaks m) as [o m1]. cbn [fst snd] in *. congruence.
Qed.

Lemma calculate_heart_rate_pair (m : HeartRateMonitor) :
  calculate_heart_rate m = (fst (calculate_heart_rate m), m).
Proof.
  pose proof (calculate_heart_rate_read_only m) as H.
  destruct (calculate_heart_rate m) as [o m1]. cbn [fst snd] in *. congruence.
Qed.

Lemma do_read_pair (op : read_op) (m : HeartRateMonitor) :
  do_read op m = (fst (do_read op m), m).
Proof.
  destruct op; unfold do_read.
  - rewrite find_peaks_pair. reflexivity.
  - rewrite calculate_heart_rate_pair. reflexivity.
Qed.

(** C9: [find_peaks] and [calculate_heart_rate] leave the raw, timestamp and
    filtered sequences (the whole monitor) as they were, and any number of
    such calls in any order, with no [add_sample] in between, gives at every
    call the result the first call of that operation gives. *)
Theorem reads_are_idempotent (m : HeartRateMonitor) (ops : list read_op) :
  snd (find_peaks m) = m /\
  snd (calculate_heart_rate m) = m /\
  do_reads ops m = (map (fun op => fst (do_read op m)) ops, m).
Proof.
  split; [ apply find_peaks_read_only | ].
  split; [ apply calculate_heart_rate_read_only | ].
  induction ops as [ | op rest IH ]; cbn [do_reads map].
  - reflexivity.
  - rewrite do_read_pair. rewrite IH. reflexivity.
Qed.

(** C5: with fewer than 3 filtered samples [find_peaks] returns the empty
    list, and whenever [find_peaks] returns fewer than 2 peaks
    [calculate_heart_rate] returns [None]; neither raises. *)
Theorem insufficient_history_gives_no_estimate :
  (forall m : HeartRateMonitor,
      (length (filtered_samples m) < 3)%nat ->
      find_peaks m = (Returns [], m)) /\
  (forall (m : HeartRateMonitor) (peaks : list (Z * Q)),
      fst (find_peaks m) = Returns peaks ->
      (length peaks < 2)%nat ->
      calculate_heart_rate m = (Returns None, m)).
Proof.
  split.
  - intros m H. unfold find_peaks, bind, get, ret.
    replace (len (filtered_samples m) <? 3) with true; [ reflexivity | ].
    symmetry. apply Z.ltb_lt. unfold len. lia.
  - intros m peaks Hp Hlen. unfold calculate_heart_rate, bind.
    rewrite find_peaks_pair, Hp.
    replace (len peaks <? 2) with true; [ reflexivity | ].
    symmetry. apply Z.ltb_lt. unfold len. lia.
Qed.

Lemma insufficient_history_gives_no_estimate_witness :
  find_peaks (fed 100 10 5 [(0, 4 # 1); (10, 9 # 1)])
  = (Returns [], fed 100 10 5 [(0, 4 # 1); (10, 9 # 1)]) /\
  calculate_heart_rate (fed 100 10 1 [(0, 1 # 1); (10, 9 # 1); (20, 2 # 1)])
  = (Returns None, fed 100 10 1 [(0, 1 # 1); (10, 9 # 1); (20, 2 # 1)]).
Proof.
  split.
  - apply (proj1 insufficient_history_gives_no_estimate). simpl. lia.
  - apply (proj2 insufficient_history_gives_no_estimate) with (peaks := [(10, 9 # 1)]).
    + reflexivity.
    + simpl. lia.
Defined.

(** C8 as the code has it: [add_sample] takes the raw value only; the
    timestamp it appends next to the raw value is the clock reading [now]
    taken inside the call.  Both are appended before the filter runs, and
    the front entry leaves with the eviction when the call returns over
    capacity. *)
Theorem add_sample_appends_clock_reading (m : HeartRateMonitor) (now : Z) (x : Q) :
  call_add_sample now [x] m = add_sample now x m /\
  let m' := snd (add_sample now x m) in
  let over :=
    match fst (add_sample now x m) with
    | Returns _ => window_size m <? len (samples m) + 1
    | Raises _ => false
    end in
  samples m' = evicted over (samples m ++ [x]) /\
  timestamps m' = evicted over (timestamps m ++ [now]).
Proof.
  split; [ reflexivity | ].
  rewrite add_sample_eq.
  destruct (filter_value m x) as [v | e]; cbn; auto.
Qed.

(** C8 fails as stated: a call that passes a timestamp next to the value
    raises [TypeError] and appends nothing, and the one-argument call
    appends the clock reading (7 here), not a timestamp of the caller
    (1000). *)
Lemma add_sample_takes_no_timestamp :
  let m := init 100 10 5 in
  call_add_sample 7 [3 # 1; 1000 # 1]%Q m = (Raises TypeError, m) /\
  timestamps (snd (call_add_sample 7 [3 # 1]%Q m)) = [7] /\
  timestamps (snd (call_add_sample 7 [3 # 1]%Q m)) <> [1000].
Proof.
  cbv zeta. split; [ reflexivity | split; [ reflexivity | ] ].
  intros H. vm_compute in H. discriminate H.
Qed.

(** ** The peak scan *)

Lemma py_getitem_nth {A : Type} (l : list A) (i : nat) (d : A) :
  (i < length l)%nat -> py_getitem l i = Returns (nth i l d).
Proof.
  intros H. unfold py_getitem. rewrite (nth_error_nth' l d H). reflexivity.
Qed.

Lemma peak_step_eq (th : Q) (peaks : list (Z * Q)) (i : nat) (m : HeartRateMonitor) :
  (i + 1 < length (filtered_samples m))%nat ->
  (is_peak_at th (filtered_samples m) i = true -> (i < length (timestamps m))%nat) ->
  peak_step th peaks i m =
  (Returns (if is_peak_at th (filtered_samples m) i
            then peaks ++ [peak_of m i] else peaks), m).
Proof.
  intros Hi Hts. unfold peak_step, bind, get, lift, ret, peak_of.
  rewrite (py_getitem_nth (filtered_samples m) i 0%Q) by lia.
  rewrite (py_getitem_nth (filtered_samples m) (i - 1) 0%Q) by lia.
  rewrite (py_getitem_nth (filtered_samples m) (i + 1) 0%Q) by lia.
  destruct (is_peak_at th (filtered_samples m) i) eqn:E.
  - rewrite (py_getitem_nth (timestamps m) i 0) by (apply Hts; reflexivity).
    unfold is_peak_at in E.
    apply andb_true_iff in E. destruct E as [E E3].
    apply andb_true_iff in E. destruct E as [E1 E2].
    rewrite E1, E2, E3. reflexivity.
  - unfold is_peak_at in E.
    destruct (Qltb th (nth i (filtered_samples m) 0%Q)); [ | reflexivity ].
    destruct (Qltb (nth (i - 1) (filtered_samples m) 0%Q) _); [ | reflexivity ].
    destruct (Qltb (nth (i + 1) (filtered_samples m) 0%Q) _); [ | reflexivity ].
    discriminate E.
Qed.

Lemma scan_eq (th : Q) (m : HeartRateMonitor) (idx : list nat) :
  (forall i, In i idx -> (i + 1 < length (filtered_samples m))%nat) ->
  (forall i, In i idx -> is_peak_at th (filtered_samples m) i = true ->
             (i < length (timestamps m))%nat) ->
  forall peaks,
    for_each (peak_step th) peaks idx m =
    (Returns (peaks ++ map (peak_of m) (filter (is_peak_at th (filtered_samples m)) idx)),
     m).
Proof.
  induction idx as [ | i rest IH ]; intros Hin Hts peaks; cbn [for_each filter map].
  - unfold ret. rewrite app_nil_r. reflexivity.
  - unfold bind. rewrite peak_step_eq.
    + rewrite IH.
      * destruct (is_peak_at th (filtered_samples m) i); cbn [map].
        -- rewrite <- app_assoc. reflexivity.
        -- reflexivity.
      * intros j Hj. apply Hin. right. exact Hj.
      * intros j Hj. apply Hts. right. exact Hj.
    + apply Hin. left. reflexivity.
    + apply Hts. left. reflexivity.
Qed.

Lemma py_range_interior {A : Type} (f : list A) :
  py_range 1 (len f - 1) = seq 1 (length f - 2).
Proof. unfold py_range, len. f_equal. lia. Qed.

Lemma find_peaks_eq (m : HeartRateMonitor) (th : Q) :
  (3 <= length (filtered_samples m))%nat ->
  dynamic_threshold (py_slice_from (- window_size m) (filtered_samples m)) = Returns th ->
  (forall i, (1 <= i)%nat -> (i + 1 < length (filtered_samples m))%nat ->
             is_peak_at th (filtered_samples m) i = true ->
             (i < length (timestamps m))%nat) ->
  find_peaks m =
  (Returns (map (peak_of m)
                (filter (is_peak_at th (filtered_samples m))
                        (seq 1 (length (filtered_samples m) - 2)))), m).
Proof.
  intros Hlen Hth Hts. unfold find_peaks, bind, get, lift.
  replace (len (filtered_samples m) <? 3) with false
    by (symmetry; apply Z.ltb_ge; unfold len; lia).
  rewrite Hth, py_range_interior, scan_eq.
  - reflexivity.
  - intros i Hi. apply in_seq in Hi. lia.
  - intros i Hi Hp. apply in_seq in Hi. apply Hts; [ lia | lia | exact Hp ].
Qed.

Lemma fold_min_spec (t : list Q) :
  forall x,
    let r := fold_left (fun acc y => if Qltb y acc then y else acc) t x in
    In r (x :: t) /\ forall y, In y (x :: t) -> (r <= y)%Q.
Proof.
  induction t as [ | a t IH ]; intros x; cbn [fold_left].
  - split; [ left; reflexivity | ].
    intros y [<- | []]. apply Qle_refl.
  - specialize (IH (if Qltb a x then a else x)). cbv zeta in IH.
    destruct IH as [Hin Hle]. split.
    + destruct Hin as [Hin | Hin].
      * rewrite <- Hin. destruct (Qltb a x); [ right; left | left ]; reflexivity.
      * right. right. exact Hin.
    + intros y Hy.
      assert (Hx' : (fold_left (fun acc y => if Qltb y acc then y else acc) t
                               (if Qltb a x then a else x)
                     <= (if Qltb a x then a else x))%Q)
        by (apply Hle; left; reflexivity).
      destruct Hy as [<- | [<- | Hy]].
      * eapply Qle_trans; [ exact Hx' | ].
        destruct (Qltb a x) eqn:E.
        -- apply Qlt_le_weak. apply Qltb_lt. exact E.
        -- apply Qle_refl.
      * eapply Qle_trans; [ exact Hx' | ].
        destruct (Qltb a x) eqn:E.
        -- apply Qle_refl.
        -- apply Qltb_ge. exact E.
      * apply Hle. right. exact Hy.
Qed.

Lemma fold_max_spec (t : list Q) :
  forall x,
    let r := fold_left (fun acc y => if Qltb acc y then y else acc) t x in
    In r (x :: t) /\ forall y, In y (x :: t) -> (y <= r)%Q.
Proof.
  induction t as [ | a t IH ]; intros x; cbn [fold_left].
  - split; [ left; reflexivity | ].
    intros y [<- | []]. apply Qle_refl.
  - specialize (IH (if Qltb x a then a else x)). cbv zeta in IH.
    destruct IH as [Hin Hle]. split.
    + destruct Hin as [Hin | Hin].
      * rewrite <- Hin. destruct (Qltb x a); [ right; left | left ]; reflexivity.
      * right. right. exact Hin.
    + intros y Hy.
      assert (Hx' : ((if Qltb x a then a else x)
                     <= fold_left (fun acc y => if Qltb acc y then y else acc) t
                                  (if Qltb x a then a else x))%Q)
        by (apply Hle; left; reflexivity).
      destruct Hy as [<- | [<- | Hy]].
      * eapply Qle_trans; [ | exact Hx' ].
        destruct (Qltb x a) eqn:E.
        -- apply Qlt_le_weak. apply Qltb_lt. exact E.
        -- apply Qle_refl.
      * eapply Qle_trans; [ | exact Hx' ].
        destruct (Qltb x a) eqn:E.
        -- apply Qle_refl.
        -- apply Qltb_ge. exact E.
      * apply Hle. right. exact Hy.
Qed.

Lemma dynamic_threshold_spec (recent : list Q) :
  recent <> [] ->
  exists mn mx,
    dynamic_threshold recent = Returns (mn + (mx - mn) * (1 # 2))%Q /\
    (In mn recent /\ forall x, In x recent -> (mn <= x)%Q) /\
    (In mx recent /\ forall x, In x recent -> (x <= mx)%Q).
Proof.
  destruct recent as [ | x t ]; [ congruence | intros _ ].
  unfold dynamic_threshold, py_min, py_max.
  eexists. eexists. split; [ reflexivity | ].
  split; [ apply fold_min_spec | apply fold_max_spec ].
Qed.

Lemma py_slice_last {A : Type} (n : Z) (l : list A) :
  0 < n -> py_slice_from (- n) l = lastn (Z.to_nat n) l.
Proof.
  intros Hn. unfold py_slice_from, lastn, len.
  replace (- n <? 0) with true by (symmetry; apply Z.ltb_lt; lia).
  f_equal. lia.
Qed.

Lemma length_lastn {A : Type} (n : nat) (l : list A) :
  length (lastn n l) = Nat.min n (length l).
Proof. unfold lastn. rewrite length_skipn. lia. Qed.

Lemma seq_strongly_sorted (n : nat) : forall a, StronglySorted lt (seq a n).
Proof.
  induction n as [ | n IH ]; intros a; cbn [seq]; constructor.
  - apply IH.
  - apply Forall_forall. intros j Hj. apply in_seq in Hj. lia.
Qed.

Lemma filter_strongly_sorted (p : nat -> bool) (l : list nat) :
  StronglySorted lt l -> StronglySorted lt (filter p l).
Proof.
  induction 1 as [ | a l Hs IH Hall ]; cbn [filter]; [ constructor | ].
  destruct (p a); [ | exact IH ].
  constructor; [ exact IH | ].
  apply Forall_forall. intros j Hj. apply filter_In in Hj.
  rewrite Forall_forall in Hall. apply Hall. tauto.
Qed.

(** ** The rate estimate *)

Lemma interval_scan_eq (peaks : list (Z * Q)) (m : HeartRateMonitor) (idx : list nat) :
  (forall i, In i idx -> (1 <= i < length peaks)%nat) ->
  forall acc,
    for_each (interval_step peaks) acc idx m =
    (Returns (acc ++ map (fun i => ticks_diff (nth i (map fst peaks) 0)
                                              (nth (i - 1) (map fst peaks) 0)) idx), m).
Proof.
  induction idx as [ | i rest IH ]; intros Hin acc; cbn [for_each map].
  - unfold ret. rewrite app_nil_r. reflexivity.
  - assert (Hi : (1 <= i < length peaks)%nat) by (apply Hin; left; reflexivity).
    unfold bind at 1. unfold interval_step, bind, lift, ret.
    rewrite (py_getitem_nth peaks i (0, 0%Q)) by lia.
    rewrite (py_getitem_nth peaks (i - 1) (0, 0%Q)) by lia.
    rewrite IH by (intros j Hj; apply Hin; right; exact Hj).
    rewrite <- app_assoc. cbn [app].
    change 0 with (fst (0, 0%Q)). rewrite !map_nth. reflexivity.
Qed.

Lemma consecutive_diffs_by_index (l : list Z) :
  map (fun i => ticks_diff (nth i l 0) (nth (i - 1) l 0)) (seq 1 (length l - 1))
  = consecutive_diffs l.
Proof.
  induction l as [ | a t IH ]; [ reflexivity | ].
  destruct t as [ | b t' ]; [ reflexivity | ].
  change (consecutive_diffs (a :: b :: t'))
    with (ticks_diff b a :: consecutive_diffs (b :: t')).
  rewrite <- IH. cbn [length].
  replace (S (S (length t')) - 1)%nat with (S (length t')) by lia.
  cbn [seq map]. f_equal.
  replace (S (length t') - 1)%nat with (length t') by lia.
  rewrite <- seq_shift, map_map.
  apply map_ext_in. intros i Hi. apply in_seq in Hi.
  destruct i as [ | i ]; [ lia | ].
  cbn [nth]. replace (S (S i) - 1)%nat with (S i) by lia.
  replace (S i - 1)%nat with i by lia. reflexivity.
Qed.

Lemma length_consecutive_diffs (l : list Z) :
  length (consecutive_diffs l) = (length l - 1)%nat.
Proof.
  rewrite <- consecutive_diffs_by_index. rewrite length_map, length_seq. reflexivity.
Qed.

Lemma calculate_heart_rate_eq (m : HeartRateMonitor) (peaks : list (Z * Q)) :
  fst (find_peaks m) = Returns peaks ->
  (2 <= length peaks)%nat ->
  calculate_heart_rate m =
  (match py_truediv (inject_Z 60000) (arith_meanZ (consecutive_diffs (map fst peaks))) with
   | Returns bpm => Returns (Some bpm)
   | Raises e => Raises e
   end, m).
Proof.
  intros Hp Hlen. unfold calculate_heart_rate. unfold bind at 1.
  rewrite find_peaks_pair, Hp.
  replace (len peaks <? 2) with false by (symmetry; apply Z.ltb_ge; unfold len; lia).
  unfold bind at 1.
  replace (py_range 1 (len peaks)) with (seq 1 (length (map fst peaks) - 1))
    by (unfold py_range, len; rewrite length_map; f_equal; lia).
  rewrite interval_scan_eq
    by (intros i Hi; apply in_seq in Hi; rewrite length_map in Hi; lia).
  cbn [app]. rewrite consecutive_diffs_by_index.
  unfold bind, lift, ret.
  rewrite py_truediv_nonzero.
  - unfold arith_meanZ. destruct (py_truediv _ _); reflexivity.
  - unfold len. rewrite length_consecutive_diffs, length_map. lia.
Qed.

(** C7: nothing in [calculate_heart_rate] discards or clamps an interval
    that is zero or negative.  A window fed with two beats at one clock
    value has two peaks with equal timestamps, a mean interval of zero, and
    the division by it raises [ZeroDivisionError]; a window whose second
    peak carries an earlier timestamp has a negative mean interval and the
    method returns a negative rate. *)
Theorem nonpositive_interval_is_not_guarded :
  (exists (m : HeartRateMonitor) (peaks : list (Z * Q)),
      (exists inputs, m = fed 100 10 1 inputs) /\
      fst (find_peaks m) = Returns peaks /\
      (2 <= length peaks)%nat /\
      (exists t, map fst peaks = [t; t]) /\
      (arith_meanZ (consecutive_diffs (map fst peaks)) == 0)%Q /\
      calculate_heart_rate m = (Raises ZeroDivisionError, m)) /\
  (exists (m : HeartRateMonitor) (peaks : list (Z * Q)),
      (exists inputs, m = fed 100 10 1 inputs) /\
      fst (find_peaks m) = Returns peaks /\
      (2 <= length peaks)%nat /\
      (exists t1 t2, map fst peaks = [t1; t2] /\ t2 < t1) /\
      (arith_meanZ (consecutive_diffs (map fst peaks)) < 0)%Q /\
      exists bpm,
        calculate_heart_rate m = (Returns (Some bpm), m) /\ (bpm < 0)%Q).
Proof.
  split.
  - exists duplicate_clock_window, [(5, 10 # 1); (5, 10 # 1)].
    split; [ eexists; reflexivity | ].
    split; [ reflexivity | ].
    split; [ simpl; lia | ].
    split; [ exists 5; reflexivity | ].
    split; [ reflexivity | ].
    rewrite (calculate_heart_rate_eq duplicate_clock_window [(5, 10 # 1); (5, 10 # 1)]);
      [ reflexivity | reflexivity | simpl; lia ].
  - exists backward_clock_window, [(1000, 10 # 1); (500, 10 # 1)].
    split; [ eexists; reflexivity | ].
    split; [ reflexivity | ].
    split; [ simpl; lia | ].
    split; [ exists 1000, 500; split; [ reflexivity | lia ] | ].
    split; [ reflexivity | ].
    exists (-60000 # 500).
    rewrite (calculate_heart_rate_eq backward_clock_window [(1000, 10 # 1); (500, 10 # 1)]);
      [ split; reflexivity | reflexivity | simpl; lia ].
Qed.

(** ** The filter along a run *)

Lemma add_samples_app (a b : list (Z * Q)) :
  forall m,
    add_samples (a ++ b) m =
    match add_samples a m with
    | (Returns _, m') => add_samples b m'
    | (Raises e, m') => (Raises e, m')
    end.
Proof.
  induction a as [ | [now x] a IH ]; intros m; cbn [app add_samples].
  - reflexivity.
  - unfold bind. destruct (add_sample now x m) as [[[] | e] m1].
    + apply IH.
    + reflexivity.
Qed.

Lemma fed_snoc (sr ws sw : Z) (pre : list (Z * Q)) (now : Z) (x : Q) :
  0 <= ws -> sw <> 0 ->
  add_sample now x (fed sr ws sw pre) = (Returns tt, fed sr ws sw (pre ++ [(now, x)])).
Proof.
  intros Hws Hsw. unfold fed. rewrite add_samples_app.
  destruct (add_samples_keep_inv pre (init sr ws sw) (init_inv sr ws sw Hws) Hsw)
    as (Ho & Hi & Hw & Hs).
  destruct (add_samples pre (init sr ws sw)) as [[[] | e] m1]; cbn [fst snd] in *;
    [ | discriminate ].
  cbn [add_samples]. unfold bind.
  destruct (add_sample_keeps_inv now x m1 Hi) as (Ho' & _).
  { cbn [smoothing_window init] in Hs. congruence. }
  destruct (add_sample now x m1) as [[[] | e] m2]; cbn [fst snd] in *;
    [ reflexivity | discriminate ].
Qed.

Lemma tl_skipn {A : Type} (k : nat) :
  forall l : list A, tl (skipn k l) = skipn (S k) l.
Proof.
  induction k as [ | k IH ]; intros l.
  - destruct l; reflexivity.
  - destruct l as [ | a l ]; [ reflexivity | ].
    change (tl (skipn k l) = skipn (S k) l). apply IH.
Qed.

Lemma skipn_snoc {A : Type} (j : nat) (h : list A) (x : A) :
  (j <= length h)%nat -> skipn j (h ++ [x]) = skipn j h ++ [x].
Proof.
  intros Hj. rewrite skipn_app.
  replace (j - length h)%nat with 0%nat by lia. reflexivity.
Qed.

Lemma lastn_snoc {A : Type} (n : nat) (h : list A) (x : A) :
  lastn n (h ++ [x]) =
  evicted (Z.of_nat n <? len (lastn n h) + 1) (lastn n h ++ [x]).
Proof.
  unfold lastn, evicted, len. rewrite length_skipn, length_app. cbn [length].
  destruct (Z.ltb_spec (Z.of_nat n) (Z.of_nat (length h - (length h - n)) + 1)) as [H | H].
  - rewrite <- skipn_snoc by lia. rewrite tl_skipn. f_equal. lia.
  - replace (length h - n)%nat with 0%nat by lia.
    replace (length h + 1 - n)%nat with 0%nat by lia. reflexivity.
Qed.

Lemma lastn_of_suffix {A : Type} (k n : nat) (h : list A) (x : A) :
  (k <= length (lastn n h) + 1)%nat ->
  lastn k (lastn n h ++ [x]) = lastn k (h ++ [x]).
Proof.
  unfold lastn. rewrite length_skipn. intros Hk.
  rewrite !length_app, length_skipn. cbn [length].
  rewrite <- skipn_snoc by lia. rewrite skipn_skipn. f_equal. lia.
Qed.

Lemma fed_shape (sr ws sw : Z) (pre : list (Z * Q)) :
  0 <= ws -> sw <> 0 ->
  samples (fed sr ws sw pre) = lastn (Z.to_nat ws) (map snd pre) /\
  timestamps (fed sr ws sw pre) = lastn (Z.to_nat ws) (map fst pre) /\
  window_size (fed sr ws sw pre) = ws /\
  smoothing_window (fed sr ws sw pre) = sw /\
  sample_rate (fed sr ws sw pre) = sr.
Proof.
  intros Hws Hsw. induction pre as [ | [now x] pre IH ] using rev_ind.
  - unfold fed, lastn. cbn. auto.
  - destruct IH as (Hs & Ht & Hw & Hsm & Hr).
    pose proof (fed_snoc sr ws sw pre now x Hws Hsw) as Hstep.
    rewrite add_sample_eq in Hstep.
    destruct (filter_value_returns (fed sr ws sw pre) x) as [v Hv]; [ congruence | ].
    rewrite Hv in Hstep. cbv zeta in Hstep.
    injection Hstep as Hstep. rewrite <- Hstep.
    cbn [samples timestamps window_size smoothing_window sample_rate].
    rewrite !map_app. cbn [map fst snd].
    rewrite (lastn_snoc (Z.to_nat ws) (map snd pre) x).
    rewrite (lastn_snoc (Z.to_nat ws) (map fst pre) now).
    rewrite Hs, Ht, Hw. rewrite Z2Nat.id by exact Hws.
    split; [ reflexivity | ].
    split; [ | auto ].
    f_equal. unfold len. rewrite !length_lastn, !length_map. reflexivity.
Qed.

Lemma filter_none {A : Type} (p : A -> bool) (l : list A) :
  (forall x, In x l -> p x = false) -> filter p l = [].
Proof.
  induction l as [ | a l IH ]; intros H; cbn [filter]; [ reflexivity | ].
  rewrite (H a) by (left; reflexivity).
  apply IH. intros x Hx. apply H. right. exact Hx.
Qed.

Lemma recent_nonempty {A : Type} (ws : Z) (l : list A) :
  0 <= ws -> l <> [] -> py_slice_from (- ws) l <> [].
Proof.
  intros Hws Hl H. apply (f_equal (@length A)) in H.
  assert (0 < length l)%nat by (destruct l; [ congruence | simpl; lia ]).
  unfold py_slice_from, len in H.
  destruct (- ws <? 0) eqn:E; rewrite length_skipn in H; cbn [length] in H.
  - apply Z.ltb_lt in E. lia.
  - apply Z.ltb_ge in E. lia.
Qed.

Lemma recent_incl {A : Type} (start : Z) (l : list A) (x : A) :
  In x (py_slice_from start l) -> In x l.
Proof.
  unfold py_slice_from. destruct (start <? 0); intros H.
  - rewrite <- (firstn_skipn (Z.to_nat (Z.max 0 (len l + start))) l).
    apply in_or_app. right. exact H.
  - rewrite <- (firstn_skipn (Z.to_nat start) l).
    apply in_or_app. right. exact H.
Qed.

(** ** Further properties of the monitor *)

(** X1: a monitor built with capacity [ws >= 0] and a smoothing size that is
    not zero holds, after any run of [add_sample] calls, exactly the last
    [ws] raw values and the last [ws] clock readings, oldest first, next to
    as many filtered values; its configuration is the constructor's. *)
Theorem window_holds_most_recent_readings
        (sr ws sw : Z) (inputs : list (Z * Q)) :
  0 <= ws -> sw <> 0 ->
  let m := fed sr ws sw inputs in
  samples m = lastn (Z.to_nat ws) (map snd inputs) /\
  timestamps m = lastn (Z.to_nat ws) (map fst inputs) /\
  length (filtered_samples m) = Nat.min (Z.to_nat ws) (length inputs) /\
  window_size m = ws /\ smoothing_window m = sw /\ sample_rate m = sr.
Proof.
  intros Hws Hsw m.
  destruct (fed_shape sr ws sw inputs Hws Hsw) as (Hs & Ht & Hw & Hsm & Hr).
  destruct (add_samples_keep_inv inputs (init sr ws sw) (init_inv sr ws sw Hws) Hsw)
    as (_ & (H1 & H2 & _) & _).
  fold (fed sr ws sw inputs) in H1, H2. fold m in Hs, Ht, Hw, Hsm, Hr, H1, H2.
  split; [ exact Hs | split; [ exact Ht | split; [ | auto ] ] ].
  rewrite <- H2, <- H1, Hs, length_lastn, length_map. reflexivity.
Qed.

Lemma window_holds_most_recent_readings_witness :
  samples (fed 50 2 1 (readings [(0, 4); (10, 6); (20, 9)])) =
  lastn (Z.to_nat 2) (map snd (readings [(0, 4); (10, 6); (20, 9)])).
Proof.
  apply (window_holds_most_recent_readings 50 2 1 (readings [(0, 4); (10, 6); (20, 9)]));
    lia.
Defined.

(** X2: with [smoothing_window = 0] the [ZeroDivisionError] of [add_sample]
    comes after the raw value and the clock reading were appended and
    before the filtered value and the eviction: the failed call leaves
    [samples] and [timestamps] one longer, [filtered_samples] as it was, so
    a window that had three equal lengths no longer has. *)
Theorem failed_add_sample_leaves_lists_unequal
        (m : HeartRateMonitor) (now : Z) (x : Q) :
  smoothing_window m = 0 ->
  let m' := snd (add_sample now x m) in
  fst (add_sample now x m) = Raises ZeroDivisionError /\
  samples m' = samples m ++ [x] /\
  timestamps m' = timestamps m ++ [now] /\
  filtered_samples m' = filtered_samples m /\
  (length (samples m) = length (filtered_samples m) ->
   length (samples m') = S (length (filtered_samples m'))).
Proof.
  intros Hsw. cbv zeta. rewrite add_sample_eq. unfold filter_value. rewrite Hsw.
  replace (0 <=? len (samples m) + 1) with true
    by (symmetry; apply Z.leb_le; pose proof (len_nonneg (samples m)); lia).
  rewrite py_truediv_zero. cbn [fst snd samples timestamps filtered_samples].
  repeat (split; [ reflexivity | ]).
  intros H. rewrite length_app. cbn [length]. lia.
Qed.

Lemma failed_add_sample_leaves_lists_unequal_witness :
  samples (snd (add_sample 7 (3 # 1) (init 100 10 0))) = [3 # 1] /\
  filtered_samples (snd (add_sample 7 (3 # 1) (init 100 10 0))) = [].
Proof.
  destruct (failed_add_sample_leaves_lists_unequal (init 100 10 0) 7 (3 # 1) eq_refl)
    as (_ & Hs & _ & Hf & _).
  split; [ exact Hs | exact Hf ].
Defined.

(** [find_peaks] returns on every window that has a timestamp for each
    filtered value and a capacity that is not negative. *)
Lemma find_peaks_returns (m : HeartRateMonitor) :
  0 <= window_size m ->
  (length (filtered_samples m) <= length (timestamps m))%nat ->
  exists th,
    find_peaks m =
    (Returns (map (peak_of m)
                  (filter (is_peak_at th (filtered_samples m))
                          (seq 1 (length (filtered_samples m) - 2)))), m).
Proof.
  intros Hws Hts.
  destruct (Nat.lt_ge_cases (length (filtered_samples m)) 3) as [Hlt | Hge].
  - exists 0%Q.
    replace (length (filtered_samples m) - 2)%nat with 0%nat by lia.
    cbn [seq filter map].
    unfold find_peaks, bind, get, ret.
    replace (len (filtered_samples m) <? 3) with true; [ reflexivity | ].
    symmetry. apply Z.ltb_lt. unfold len. lia.
  - destruct (dynamic_threshold_spec
                (py_slice_from (- window_size m) (filtered_samples m)))
      as (mn & mx & Hth & _).
    { apply recent_nonempty; [ exact Hws | ].
      destruct (filtered_samples m); [ simpl in Hge; lia | congruence ]. }
    exists (mn + (mx - mn) * (1 # 2))%Q.
    apply find_peaks_eq; [ exact Hge | exact Hth | intros; lia ].
Qed.

Lemma adjacent_not_both_peaks (th : Q) (f : list Q) (i : nat) :
  is_peak_at th f i = true -> is_peak_at th f (S i) = false.
Proof.
  unfold is_peak_at. rewrite !andb_true_iff, !Qltb_lt. intros [[_ _] H].
  replace (S i - 1)%nat with i by lia. replace (i + 1)%nat with (S i) in H by lia.
  apply Qlt_le_weak, Qltb_ge in H. rewrite H.
  rewrite andb_false_r. reflexivity.
Qed.

Lemma sparse_filter_count (p : nat -> bool) :
  (forall i, p i = true -> p (S i) = false) ->
  forall n a,
    (2 * length (filter p (seq a n)) <= n + 1)%nat /\
    (p a = false -> 2 * length (filter p (seq a n)) <= n)%nat.
Proof.
  intros Hp. induction n as [ | n IH ]; intros a; cbn [seq filter].
  - cbn. lia.
  - destruct (IH (S a)) as [IH1 IH2].
    destruct (p a) eqn:E; cbn [length].
    + specialize (IH2 (Hp a E)). split; [ lia | discriminate ].
    + split; [ lia | intros _; lia ].
Qed.

(** X3: two neighbouring samples are never both peaks, so on a window of
    [n] filtered values (each with its timestamp, capacity not negative)
    [find_peaks] returns at most [(n - 1) / 2] peaks. *)
Theorem find_peaks_reports_at_most_half (m : HeartRateMonitor) :
  0 <= window_size m ->
  (length (filtered_samples m) <= length (timestamps m))%nat ->
  exists peaks,
    find_peaks m = (Returns peaks, m) /\
    (2 * length peaks <= length (filtered_samples m) - 1)%nat.
Proof.
  intros Hws Hts. destruct (find_peaks_returns m Hws Hts) as (th & Hfp).
  eexists. split; [ exact Hfp | ].
  rewrite length_map.
  pose proof (proj1 (sparse_filter_count (is_peak_at th (filtered_samples m))
                       (adjacent_not_both_peaks th (filtered_samples m))
                       (length (filtered_samples m) - 2) 1)) as H.
  lia.
Qed.

Lemma find_peaks_reports_at_most_half_witness :
  exists peaks,
    find_peaks pulse_window = (Returns peaks, pulse_window) /\
    (2 * length peaks <= length (filtered_samples pulse_window) - 1)%nat.
Proof.
  apply (find_peaks_reports_at_most_half pulse_window); simpl; lia.
Defined.

Lemma short_window_no_estimate (m : HeartRateMonitor) :
  0 <= window_size m ->
  (length (filtered_samples m) <= length (timestamps m))%nat ->
  (length (filtered_samples m) <= 4)%nat ->
  calculate_heart_rate m = (Returns None, m).
Proof.
  intros Hws Hts Hlen. destruct (find_peaks_returns m Hws Hts) as (th & Hfp).
  pose proof (proj1 (sparse_filter_count (is_peak_at th (filtered_samples m))
                       (adjacent_not_both_peaks th (filtered_samples m))
                       (length (filtered_samples m) - 2) 1)) as H.
  unfold calculate_heart_rate, bind. rewrite Hfp.
  replace (len _ <? 2) with true; [ reflexivity | ].
  symmetry. apply Z.ltb_lt. unfold len. rewrite length_map. lia.
Qed.

(** X4: two peaks need five filtered values.  On a window with at most 4
    filtered values [calculate_heart_rate] returns [None], so a monitor of
    capacity 0 to 4 never gives an estimate, and no monitor gives one
    before its fifth reading. *)
Theorem no_estimate_below_five_samples :
  (forall m : HeartRateMonitor,
      0 <= window_size m ->
      (length (filtered_samples m) <= length (timestamps m))%nat ->
      (length (filtered_samples m) <= 4)%nat ->
      calculate_heart_rate m = (Returns None, m)) /\
  (forall (sr ws sw : Z) (inputs : list (Z * Q)),
      0 <= ws -> sw <> 0 ->
      ws <= 4 \/ (length inputs <= 4)%nat ->
      calculate_heart_rate (fed sr ws sw inputs) = (Returns None, fed sr ws sw inputs)).
Proof.
  split; [ exact short_window_no_estimate | ].
  intros sr ws sw inputs Hws Hsw Hshort.
  destruct (fed_shape sr ws sw inputs Hws Hsw) as (Hs & _ & Hw & _).
  destruct (add_samples_keep_inv inputs (init sr ws sw) (init_inv sr ws sw Hws) Hsw)
    as (_ & (H1 & H2 & _) & _).
  fold (fed sr ws sw inputs) in H1, H2.
  apply short_window_no_estimate.
  - rewrite Hw. exact Hws.
  - rewrite H2. apply Nat.le_refl.
  - rewrite <- H2, <- H1, Hs, length_lastn, length_map. lia.
Qed.

Lemma no_estimate_below_five_samples_witness :
  calculate_heart_rate (fed 100 4 1 rising_inputs)
  = (Returns None, fed 100 4 1 rising_inputs).
Proof.
  apply (proj2 no_estimate_below_five_samples 100 4 1 rising_inputs); lia.
Defined.

(** ** The estimate and the clock *)

Lemma ticks_diff_small (a b : Z) :
  - (TICKS_PERIOD / 2) <= a - b < TICKS_PERIOD / 2 -> ticks_diff a b = a - b.
Proof.
  unfold ticks_diff. change (TICKS_PERIOD / 2) with 536870912.
  change TICKS_PERIOD with 1073741824. intros H.
  rewrite Z.mod_small by lia. lia.
Qed.

Lemma py_sumZ_from (l : list Z) :
  forall a, fold_left Z.add l a = a + py_sumZ l.
Proof.
  unfold py_sumZ. induction l as [ | x l IH ]; intros a; cbn [fold_left].
  - lia.
  - rewrite IH, (IH (0 + x)). lia.
Qed.

Lemma consecutive_diffs_telescope (ts : list Z) :
  small_steps ts ->
  py_sumZ (consecutive_diffs ts) = last ts 0 - hd 0 ts.
Proof.
  induction ts as [ | a ts IH ]; [ reflexivity | ].
  destruct ts as [ | b ts ]; [ intros _; cbn; lia | ].
  intros [Hab Hrest].
  change (consecutive_diffs (a :: b :: ts))
    with (ticks_diff b a :: consecutive_diffs (b :: ts)).
  unfold py_sumZ. cbn [fold_left]. rewrite py_sumZ_from, (IH Hrest).
  rewrite ticks_diff_small by exact Hab.
  change (last (a :: b :: ts) 0) with (last (b :: ts) 0). cbn [hd]. lia.
Qed.

Lemma ticks_diff_shift (a b c : Z) :
  ticks_diff ((a + c) mod TICKS_PERIOD) ((b + c) mod TICKS_PERIOD) = ticks_diff a b.
Proof.
  unfold ticks_diff. f_equal.
  rewrite <- (Z.add_mod_idemp_l ((a + c) mod TICKS_PERIOD - (b + c) mod TICKS_PERIOD))
    by discriminate.
  rewrite Zminus_mod_idemp_l, Zminus_mod_idemp_r.
  replace (a + c - (b + c)) with (a - b) by lia.
  rewrite Z.add_mod_idemp_l by discriminate. reflexivity.
Qed.

Lemma consecutive_diffs_shift (c : Z) (ts : list Z) :
  consecutive_diffs (map (fun t => (t + c) mod TICKS_PERIOD) ts) = consecutive_diffs ts.
Proof.
  induction ts as [ | a ts IH ]; [ reflexivity | ].
  destruct ts as [ | b ts ]; [ reflexivity | ].
  change (consecutive_diffs (a :: b :: ts))
    with (ticks_diff b a :: consecutive_diffs (b :: ts)).
  rewrite <- IH. cbn [map consecutive_diffs]. rewrite ticks_diff_shift. reflexivity.
Qed.

Lemma consecutive_diffs_mod (ts : list Z) :
  consecutive_diffs (map (fun t => t mod TICKS_PERIOD) ts) = consecutive_diffs ts.
Proof.
  rewrite <- (consecutive_diffs_shift 0 ts). f_equal.
  apply map_ext. intros t. rewrite Z.add_0_r. reflexivity.
Qed.

Lemma mean_interval_telescoped (peaks : list (Z * Q)) (times : list Z) :
  (2 <= length peaks)%nat ->
  map fst peaks = map (fun t => t mod TICKS_PERIOD) times ->
  small_steps times ->
  arith_meanZ (consecutive_diffs (map fst peaks))
  = (inject_Z (last times 0 - hd 0 times)%Z / inject_Z (len peaks - 1)%Z)%Q.
Proof.
  intros Hlen Htimes Hsmall.
  assert (Hcount : length times = length peaks).
  { apply (f_equal (@length Z)) in Htimes. rewrite !length_map in Htimes. lia. }
  unfold arith_meanZ. rewrite Htimes, consecutive_diffs_mod.
  rewrite (consecutive_diffs_telescope _ Hsmall).
  unfold len. rewrite length_consecutive_diffs, Hcount.
  do 2 f_equal. lia.
Qed.

(** [60000 / (span / count)] for a positive count of intervals. *)
Lemma rate_of_span (span count : Z) :
  0 < count ->
  (span = 0 ->
   py_truediv (inject_Z 60000) (inject_Z span / inject_Z count)
   = Raises ZeroDivisionError) /\
  (span <> 0 ->
   py_truediv (inject_Z 60000) (inject_Z span / inject_Z count)
   = Returns (inject_Z 60000 / (inject_Z span / inject_Z count))%Q /\
   (inject_Z 60000 / (inject_Z span / inject_Z count)
    == inject_Z 60000 * inject_Z count / inject_Z span)%Q /\
   (0 < span -> (0 < inject_Z 60000 / (inject_Z span / inject_Z count))%Q)).
Proof.
  intros Hn. split.
  - intros ->. reflexivity.
  - intros Hnz.
    assert (Hd : ~ (inject_Z span == 0)%Q).
    { intros H. unfold Qeq in H. simpl in H. lia. }
    assert (Hk : ~ (inject_Z count == 0)%Q).
    { intros H. unfold Qeq in H. simpl in H. lia. }
    split; [ | split ].
    + unfold py_truediv. destruct (Qeq_bool _ 0) eqn:E; [ | reflexivity ].
      apply Qeq_bool_eq in E. exfalso. apply Hd.
      rewrite <- (Qmult_div_r (inject_Z span) (inject_Z count) Hk).
      rewrite E. ring.
    + field. split; assumption.
    + intros Hpos.
      assert (Hk0 : (0 < inject_Z count)%Q)
        by (change 0%Q with (inject_Z 0); rewrite <- Zlt_Qlt; exact Hn).
      assert (Hd0 : (0 < inject_Z span)%Q)
        by (change 0%Q with (inject_Z 0); rewrite <- Zlt_Qlt; exact Hpos).
      apply Qlt_shift_div_l.
      * apply Qlt_shift_div_l; [ exact Hk0 | ].
        rewrite Qmult_0_l. exact Hd0.
      * rewrite Qmult_0_l. reflexivity.
Qed.

Lemma py_getitem_map {A B : Type} (g : A -> B) (l : list A) (i : nat) :
  py_getitem (map g l) i = outcome_map g (py_getitem l i).
Proof.
  unfold py_getitem. rewrite nth_error_map.
  destruct (nth_error l i); reflexivity.
Qed.

Lemma peak_step_shift (c : Z) (th : Q) (acc : list (Z * Q)) (i : nat)
      (m : HeartRateMonitor) :
  peak_step th (map (shift_peak c) acc) i (shift_clock c m) =
  (outcome_map (map (shift_peak c)) (fst (peak_step th acc i m)), shift_clock c m).
Proof.
  unfold peak_step, bind, get, lift, ret, shift_clock, set_timestamps.
  cbn [filtered_samples timestamps fst].
  destruct (py_getitem (filtered_samples m) i) as [cur | e]; [ | reflexivity ].
  destruct (Qltb th cur); [ | reflexivity ].
  destruct (py_getitem (filtered_samples m) (i - 1)) as [prev | e]; [ | reflexivity ].
  destruct (Qltb prev cur); [ | reflexivity ].
  destruct (py_getitem (filtered_samples m) (i + 1)) as [next | e]; [ | reflexivity ].
  destruct (Qltb next cur); [ | reflexivity ].
  rewrite py_getitem_map.
  destruct (py_getitem (timestamps m) i) as [t | e]; [ | reflexivity ].
  cbn [outcome_map fst]. rewrite map_app. reflexivity.
Qed.

Lemma scan_shift (c : Z) (th : Q) (m : HeartRateMonitor) (idx : list nat) :
  forall acc,
    for_each (peak_step th) (map (shift_peak c) acc) idx (shift_clock c m) =
    (outcome_map (map (shift_peak c)) (fst (for_each (peak_step th) acc idx m)),
     shift_clock c m).
Proof.
  induction idx as [ | i rest IH ]; intros acc; cbn [for_each].
  - reflexivity.
  - unfold bind. rewrite peak_step_shift.
    pose proof (peak_step_read_only th acc i m) as Hro.
    destruct (peak_step th acc i m) as [[r | e] m1]; cbn [fst snd outcome_map] in *.
    + subst m1. apply IH.
    + reflexivity.
Qed.

Lemma find_peaks_shift (c : Z) (m : HeartRateMonitor) :
  find_peaks (shift_clock c m) =
  (outcome_map (map (shift_peak c)) (fst (find_peaks m)), shift_clock c m).
Proof.
  unfold find_peaks, bind, get, lift.
  change (filtered_samples (shift_clock c m)) with (filtered_samples m).
  change (window_size (shift_clock c m)) with (window_size m).
  destruct (len (filtered_samples m) <? 3); [ reflexivity | ].
  destruct (dynamic_threshold _) as [th | e]; [ | reflexivity ].
  apply (scan_shift c th m _ []).
Qed.

Lemma calculate_heart_rate_none (m : HeartRateMonitor) (peaks : list (Z * Q)) :
  fst (find_peaks m) = Returns peaks -> (length peaks < 2)%nat ->
  calculate_heart_rate m = (Returns None, m).
Proof.
  intros Hp Hlen. unfold calculate_heart_rate, bind.
  rewrite find_peaks_pair, Hp.
  replace (len peaks <? 2) with true; [ reflexivity | ].
  symmetry. apply Z.ltb_lt. unfold len. lia.
Qed.

Lemma calculate_heart_rate_raises (m : HeartRateMonitor) (e : exn) :
  fst (find_peaks m) = Raises e -> calculate_heart_rate m = (Raises e, m).
Proof.
  intros Hp. unfold calculate_heart_rate, bind.
  rewrite find_peaks_pair, Hp. reflexivity.
Qed.

(** X6: the estimate does not depend on where the clock stands in its
    period.  Had every reading been taken [c] ticks later (modulo the period
    of [ticks_ms], so also across a wrap), [find_peaks] would report the
    same peaks with the shifted timestamps and [calculate_heart_rate] would
    give the same outcome. *)
Theorem heart_rate_ignores_clock_offset (c : Z) (m : HeartRateMonitor) :
  fst (find_peaks (shift_clock c m)) =
    outcome_map (map (shift_peak c)) (fst (find_peaks m)) /\
  fst (calculate_heart_rate (shift_clock c m)) = fst (calculate_heart_rate m).
Proof.
  assert (Hfp : fst (find_peaks (shift_clock c m)) =
                outcome_map (map (shift_peak c)) (fst (find_peaks m)))
    by (rewrite find_peaks_shift; reflexivity).
  split; [ exact Hfp | ].
  destruct (fst (find_peaks m)) as [peaks | e] eqn:Hp; cbn [outcome_map] in Hfp.
  - destruct (le_lt_dec 2 (length peaks)) as [Hlen | Hlen].
    + rewrite (calculate_heart_rate_eq m peaks Hp Hlen).
      rewrite (calculate_heart_rate_eq _ _ Hfp) by (rewrite length_map; exact Hlen).
      cbn [fst]. unfold shift_peak at 1. rewrite map_map. cbn [fst].
      rewrite <- (map_map fst (fun t => (t + c) mod TICKS_PERIOD)).
      rewrite consecutive_diffs_shift. reflexivity.
    + rewrite (calculate_heart_rate_none m peaks Hp Hlen).
      rewrite (calculate_heart_rate_none _ _ Hfp) by (rewrite length_map; exact Hlen).
      reflexivity.
  - rewrite (calculate_heart_rate_raises m e Hp).
    rewrite (calculate_heart_rate_raises _ e Hfp). reflexivity.
Qed.

(** ** What can go wrong in a read *)

(** X9: on a window with a timestamp for each filtered value and a capacity
    that is not negative, [find_peaks] never raises, and
    [calculate_heart_rate] raises only [ZeroDivisionError], exactly when
    there are at least two peaks whose intervals sum to zero; it returns
    [None] exactly when there are fewer than two peaks. *)
Theorem calculate_heart_rate_fails_only_on_zero_interval (m : HeartRateMonitor) :
  0 <= window_size m ->
  (length (filtered_samples m) <= length (timestamps m))%nat ->
  exists peaks,
    find_peaks m = (Returns peaks, m) /\
    match fst (calculate_heart_rate m) with
    | Raises e =>
        e = ZeroDivisionError /\ (2 <= length peaks)%nat /\
        py_sumZ (consecutive_diffs (map fst peaks)) = 0
    | Returns None => (length peaks < 2)%nat
    | Returns (Some _) =>
        (2 <= length peaks)%nat /\
        py_sumZ (consecutive_diffs (map fst peaks)) <> 0
    end.
Proof.
  intros Hws Hts. destruct (find_peaks_returns m Hws Hts) as (th & Hfp).
  eexists. split; [ exact Hfp | ].
  set (peaks := map (peak_of m) _) in *.
  assert (Hp : fst (find_peaks m) = Returns peaks) by (rewrite Hfp; reflexivity).
  destruct (le_lt_dec 2 (length peaks)) as [Hn | Hn].
  - rewrite (calculate_heart_rate_eq m peaks Hp Hn). cbn [fst].
    unfold py_truediv, arith_meanZ.
    set (total := py_sumZ (consecutive_diffs (map fst peaks))).
    set (count := len (consecutive_diffs (map fst peaks))).
    assert (Hc : 0 < count).
    { unfold count, len. rewrite length_consecutive_diffs, length_map. lia. }
    destruct (Qeq_bool (inject_Z total / inject_Z count) 0) eqn:E.
    + apply Qeq_bool_eq in E. split; [ reflexivity | split; [ exact Hn | ] ].
      unfold Qeq, Qdiv, Qmult, Qinv in E.
      destruct count as [ | pc | pc ]; try lia. cbn in E. nia.
    + split; [ exact Hn | ]. intros Hz. rewrite Hz in E.
      assert (H0 : (inject_Z 0 / inject_Z count == 0)%Q)
        by (unfold Qdiv; change (inject_Z 0) with 0%Q; ring).
      apply Qeq_eq_bool in H0. congruence.
  - rewrite (calculate_heart_rate_none m peaks Hp Hn). exact Hn.
Qed.

Lemma calculate_heart_rate_fails_only_on_zero_interval_witness :
  exists peaks,
    find_peaks duplicate_clock_window = (Returns peaks, duplicate_clock_window) /\
    (2 <= length peaks)%nat /\
    py_sumZ (consecutive_diffs (map fst peaks)) = 0.
Proof.
  destruct (calculate_heart_rate_fails_only_on_zero_interval duplicate_clock_window)
    as (peaks & Hfp & H).
  - cbn. lia.
  - cbn. lia.
  - exists peaks. split; [ exact Hfp | ].
    change (fst (calculate_heart_rate duplicate_clock_window))
      with (@Raises (option Q) ZeroDivisionError) in H.
    destruct H as (_ & H1 & H2). split; assumption.
Defined.

(** ** The loop of [main] *)

Lemma main_monitor_eq : main_monitor = init 50 150 5.
Proof. reflexivity. Qed.

Lemma add_sample_grows_by_at_most_one (now : Z) (x : Q) (m : HeartRateMonitor) :
  (length (filtered_samples (snd (add_sample now x m)))
   <= S (length (filtered_samples m)))%nat.
Proof.
  rewrite add_sample_eq. destruct (filter_value m x) as [v | e]; cbn [snd filtered_samples].
  - rewrite length_evicted_snoc. destruct (_ <? _); lia.
  - lia.
Qed.

Lemma calculate_heart_rate_raises_only_zero_division (m : HeartRateMonitor) (ex : exn) :
  window_inv m -> 0 <= window_size m ->
  fst (calculate_heart_rate m) = Raises ex -> ex = ZeroDivisionError.
Proof.
  intros (H1 & H2 & _) Hws.
  destruct (find_peaks_returns m Hws) as (th & Hfp); [ lia | ].
  set (peaks := map (peak_of m) _) in *.
  assert (Hp : fst (find_peaks m) = Returns peaks) by (rewrite Hfp; reflexivity).
  destruct (le_lt_dec 2 (length peaks)) as [Hn | Hn].
  - rewrite (calculate_heart_rate_eq m peaks Hp Hn). cbn [fst]. unfold py_truediv.
    destruct (Qeq_bool _ 0); intros H; [ congruence | discriminate H ].
  - rewrite (calculate_heart_rate_none m peaks Hp Hn). intros H. discriminate H.
Qed.

Lemma report_if_due_eq (e : loop_env) (ref : Z) (m : HeartRateMonitor) :
  report_if_due e ref m =
  if 2000 <? ticks_diff (clock_check e) ref
  then match fst (calculate_heart_rate m) with
       | Raises ex => (Raises ex, mkLoop m ref)
       | Returns (Some heart_rate) =>
           (Returns [HeartRateLine heart_rate], mkLoop m (clock_reset e))
       | Returns None => (Returns [Recalculating], mkLoop m (clock_reset e))
       end
  else (Returns [], mkLoop m ref).
Proof.
  unfold report_if_due. rewrite py_truediv_nonzero by lia.
  replace (Qltb hr_compute_interval
                (inject_Z (ticks_diff (clock_check e) ref) / inject_Z 1000))
    with (2000 <? ticks_diff (clock_check e) ref).
  - rewrite (calculate_heart_rate_pair m).
    destruct (2000 <? _); [ | reflexivity ].
    cbn [fst]. destruct (fst (calculate_heart_rate m)) as [[bpm | ] | ex]; reflexivity.
  - unfold Qltb, hr_compute_interval. cbn.
    destruct (Z.ltb_spec 2000 (ticks_diff (clock_check e) ref));
      symmetry; [ apply Z.ltb_lt | apply Z.ltb_ge ]; lia.
Qed.

Lemma feed_if_available_spec (e : loop_env) (m : HeartRateMonitor) :
  window_inv m -> smoothing_window m <> 0 ->
  exists m1,
    feed_if_available e m = (Returns tt, m1) /\
    window_inv m1 /\ window_size m1 = window_size m /\
    smoothing_window m1 = smoothing_window m /\
    (length (filtered_samples m1)
     <= length (filtered_samples m)
        + match reading e with Some _ => 1 | None => 0 end)%nat.
Proof.
  intros Hinv Hsw. unfold feed_if_available.
  destruct (reading e) as [[red ir] | ].
  - destruct (add_sample_keeps_inv (clock_add e) ir m Hinv Hsw) as (Ho & Hi & Hw & Hs).
    pose proof (add_sample_grows_by_at_most_one (clock_add e) ir m) as Hg.
    destruct (add_sample (clock_add e) ir m) as [[[] | ex] m1];
      cbn [fst snd] in *; [ | discriminate ].
    exists m1. split; [ reflexivity | ].
    split; [ exact Hi | split; [ exact Hw | split; [ exact Hs | lia ] ] ].
  - exists m. split; [ reflexivity | ].
    split; [ exact Hinv | split; [ reflexivity | split; [ reflexivity | lia ] ] ].
Qed.

Lemma loop_iteration_spec (e : loop_env) (st : loop_state) :
  window_inv (hr_monitor st) ->
  0 <= window_size (hr_monitor st) ->
  smoothing_window (hr_monitor st) <> 0 ->
  exists m1,
    loop_iteration e st = report_if_due e (ref_time st) m1 /\
    hr_monitor (snd (loop_iteration e st)) = m1 /\
    window_inv m1 /\ window_size m1 = window_size (hr_monitor st) /\
    smoothing_window m1 = smoothing_window (hr_monitor st) /\
    (length (filtered_samples m1)
     <= length (filtered_samples (hr_monitor st))
        + match reading e with Some _ => 1 | None => 0 end)%nat.
Proof.
  intros Hinv Hws Hsw.
  destruct (feed_if_available_spec e (hr_monitor st) Hinv Hsw)
    as (m1 & Heq & Hi & Hw & Hs & Hg).
  exists m1. unfold loop_iteration. rewrite Heq.
  split; [ reflexivity | ].
  split; [ | auto ].
  rewrite report_if_due_eq.
  destruct (2000 <? _); [ | reflexivity ].
  destruct (fst (calculate_heart_rate m1)) as [[bpm | ] | ex]; reflexivity.
Qed.

Lemma loop_iteration_safe (e : loop_env) (st : loop_state) :
  window_inv (hr_monitor st) ->
  0 <= window_size (hr_monitor st) ->
  smoothing_window (hr_monitor st) <> 0 ->
  let r := loop_iteration e st in
  window_inv (hr_monitor (snd r)) /\
  window_size (hr_monitor (snd r)) = window_size (hr_monitor st) /\
  smoothing_window (hr_monitor (snd r)) = smoothing_window (hr_monitor st) /\
  (forall ex, fst r = Raises ex -> ex = ZeroDivisionError).
Proof.
  intros Hinv Hws Hsw r.
  destruct (loop_iteration_spec e st Hinv Hws Hsw) as (m1 & Heq & Hm & Hi & Hw & Hs & _).
  subst r. rewrite Hm. split; [ exact Hi | split; [ exact Hw | split; [ exact Hs | ] ] ].
  intros ex. rewrite Heq, report_if_due_eq.
  destruct (2000 <? _); [ | discriminate ].
  pose proof (calculate_heart_rate_raises_only_zero_division m1) as Hzd.
  destruct (fst (calculate_heart_rate m1)) as [[bpm | ] | ex']; cbn [fst];
    try discriminate.
  intros H. injection H as <-. apply Hzd; [ exact Hi | lia | reflexivity ].
Qed.

Lemma main_loop_safe (envs : list loop_env) :
  forall st,
    window_inv (hr_monitor st) ->
    0 <= window_size (hr_monitor st) ->
    smoothing_window (hr_monitor st) <> 0 ->
    let r := main_loop envs st in
    window_inv (hr_monitor (snd r)) /\
    window_size (hr_monitor (snd r)) = window_size (hr_monitor st) /\
    smoothing_window (hr_monitor (snd r)) = smoothing_window (hr_monitor st) /\
    (forall ex, fst r = Raises ex -> ex = ZeroDivisionError).
Proof.
  induction envs as [ | e rest IH ]; intros st Hinv Hws Hsw; cbn [main_loop].
  - cbn. split; [ exact Hinv | split; [ reflexivity | split; [ reflexivity | ] ] ].
    intros ex H. discriminate H.
  - destruct (loop_iteration_safe e st Hinv Hws Hsw) as (Hi & Hw & Hs & Hex).
    destruct (loop_iteration e st) as [[out | ex] st1]; cbn [fst snd] in *.
    + destruct (IH st1 Hi) as (Hi' & Hw' & Hs' & Hex'); [ lia | congruence | ].
      destruct (main_loop rest st1) as [[out' | ex'] st2]; cbn [fst snd] in *.
      * split; [ exact Hi' | split; [ congruence | split; [ congruence | ] ] ].
        intros ex H. discriminate H.
      * split; [ exact Hi' | split; [ congruence | split; [ congruence | ] ] ].
        intros ex H. injection H as <-. apply Hex'. reflexivity.
    + split; [ exact Hi | split; [ exact Hw | split; [ exact Hs | ] ] ].
      intros ex' H. injection H as <-. apply Hex. reflexivity.
Qed.

Lemma main_startup_running (addr : Z) (scan : list Z) (ok : bool) (now : Z)
      (calls : list sensor_call) (st0 : loop_state) :
  main_startup addr scan ok now = Running calls st0 ->
  In addr scan /\ ok = true /\
  calls = [SetupSensor; SetSampleRate 400; SetFifoAverage 8; SetActiveLedsAmplitudeMedium] /\
  st0 = mkLoop (init 50 150 5) now.
Proof.
  unfold main_startup. destruct (existsb (Z.eqb addr) scan) eqn:E; cbn [negb];
    [ | discriminate ].
  destruct ok; cbn [negb]; [ | discriminate ].
  intros H. injection H as <- <-.
  split; [ | auto ].
  apply existsb_exists in E. destruct E as (a & Ha & Heq).
  apply Z.eqb_eq in Heq. subst a. exact Ha.
Qed.

(** X10: [main] reaches its loop only when the sensor address is among the
    scanned ones and the part identifier checks, and then with a monitor of
    rate 50, capacity 150 and smoothing size 5.  Whatever the sensor and the
    clock supply afterwards, after any number of rounds the three buffers
    have one length, at most 150, and the only exception that can end the
    loop is the [ZeroDivisionError] of [calculate_heart_rate]. *)
Theorem main_loop_keeps_window_and_fails_only_on_zero_interval
        (addr : Z) (scan : list Z) (ok : bool) (now : Z)
        (calls : list sensor_call) (st0 : loop_state) (envs : list loop_env) :
  main_startup addr scan ok now = Running calls st0 ->
  In addr scan /\ ok = true /\
  st0 = mkLoop (init 50 150 5) now /\
  let r := main_loop envs st0 in
  let m := hr_monitor (snd r) in
  length (samples m) = length (timestamps m) /\
  length (timestamps m) = length (filtered_samples m) /\
  len (samples m) <= 150 /\
  (forall ex, fst r = Raises ex -> ex = ZeroDivisionError).
Proof.
  intros Hstart.
  destruct (main_startup_running _ _ _ _ _ _ Hstart) as (Hin & Hok & _ & Hst).
  split; [ exact Hin | split; [ exact Hok | split; [ exact Hst | ] ] ].
  subst st0. cbv zeta.
  destruct (main_loop_safe envs (mkLoop (init 50 150 5) now))
    as ((H1 & H2 & H3) & Hw & _ & Hex).
  - apply init_inv. lia.
  - cbn. lia.
  - cbn. lia.
  - cbn [hr_monitor window_size init] in Hw. rewrite Hw in H3.
    split; [ exact H1 | split; [ exact H2 | split; [ exact H3 | exact Hex ] ] ].
Qed.

Lemma main_loop_keeps_window_and_fails_only_on_zero_interval_witness :
  len (samples (hr_monitor (snd (main_loop
        [mkEnv (Some (1 # 1, 9 # 1)) 10 10 10; mkEnv None 20 2500 2500]
        (mkLoop (init 50 150 5) 0))))) <= 150.
Proof.
  destruct (main_loop_keeps_window_and_fails_only_on_zero_interval
              87 [60; 87] true 0 _ _
              [mkEnv (Some (1 # 1, 9 # 1)) 10 10 10; mkEnv None 20 2500 2500] eq_refl)
    as (_ & _ & _ & _ & _ & H & _).
  exact H.
Defined.

(** X11: a round of the loop reports only when strictly more than 2000 ms
    (by [ticks_diff]) have passed since [ref_time]: at 2000 ms or less it
    prints nothing and keeps [ref_time]; beyond, it prints exactly one line
    and sets [ref_time] to the new clock reading, unless
    [calculate_heart_rate] raises, which leaves [ref_time] as it was. *)
Theorem report_needs_more_than_two_seconds (e : loop_env) (st : loop_state) :
  window_inv (hr_monitor st) ->
  0 <= window_size (hr_monitor st) ->
  smoothing_window (hr_monitor st) <> 0 ->
  let d := ticks_diff (clock_check e) (ref_time st) in
  let r := loop_iteration e st in
  (d <= 2000 -> fst r = Returns [] /\ ref_time (snd r) = ref_time st) /\
  (2000 < d ->
   match fst r with
   | Returns out =>
       (out = [Recalculating] \/ exists bpm, out = [HeartRateLine bpm]) /\
       ref_time (snd r) = clock_reset e
   | Raises ex => ex = ZeroDivisionError /\ ref_time (snd r) = ref_time st
   end).
Proof.
  intros Hinv Hws Hsw d r.
  destruct (loop_iteration_spec e st Hinv Hws Hsw) as (m1 & Heq & _ & Hi & Hw & _).
  subst r. rewrite Heq, report_if_due_eq. fold d. split; intros Hd.
  - replace (2000 <? d) with false by (symmetry; apply Z.ltb_ge; lia).
    split; reflexivity.
  - replace (2000 <? d) with true by (symmetry; apply Z.ltb_lt; lia).
    pose proof (calculate_heart_rate_raises_only_zero_division m1) as Hzd.
    destruct (fst (calculate_heart_rate m1)) as [[bpm | ] | ex]; cbn [fst snd ref_time].
    + split; [ right; eexists; reflexivity | reflexivity ].
    + split; [ left; reflexivity | reflexivity ].
    + split; [ apply Hzd; [ exact Hi | lia | reflexivity ] | reflexivity ].
Qed.

Lemma report_needs_more_than_two_seconds_witness :
  fst (loop_iteration (mkEnv None 0 2000 2000) (mkLoop (init 50 150 5) 0)) = Returns [] /\
  ref_time (snd (loop_iteration (mkEnv None 0 2000 2000) (mkLoop (init 50 150 5) 0))) = 0.
Proof.
  apply (proj1 (report_needs_more_than_two_seconds
                  (mkEnv None 0 2000 2000) (mkLoop (init 50 150 5) 0)
                  (init_inv 50 150 5 ltac:(lia)) ltac:(cbn; lia) ltac:(cbn; lia))).
  vm_compute. discriminate.
Defined.

Lemma main_loop_recalculating (envs : list loop_env) :
  forall st,
    window_inv (hr_monitor st) ->
    0 <= window_size (hr_monitor st) ->
    smoothing_window (hr_monitor st) <> 0 ->
    (length (filtered_samples (hr_monitor st)) + readings_taken envs <= 4)%nat ->
    exists out,
      fst (main_loop envs st) = Returns out /\ Forall (eq Recalculating) out.
Proof.
  induction envs as [ | e rest IH ]; intros st Hinv Hws Hsw Hfew; cbn [main_loop].
  - exists []. split; [ reflexivity | constructor ].
  - destruct (loop_iteration_spec e st Hinv Hws Hsw)
      as (m1 & Heq & Hm & Hi & Hw & Hs & Hg).
    assert (Hcount : readings_taken (e :: rest)
                     = ((match reading e with Some _ => 1 | None => 0 end)
                        + readings_taken rest)%nat).
    { unfold readings_taken. cbn [filter]. destruct (reading e); reflexivity. }
    rewrite Hcount in Hfew.
    assert (Hnone : calculate_heart_rate m1 = (Returns None, m1)).
    { destruct Hi as (H1 & H2 & _). apply short_window_no_estimate; lia. }
    rewrite Heq, report_if_due_eq, Hnone. cbn [fst].
    destruct (2000 <? _).
    + destruct (IH (mkLoop m1 (clock_reset e))) as (out' & Ho & Hall);
        cbn [hr_monitor]; try assumption; try lia.
      destruct (main_loop rest (mkLoop m1 (clock_reset e))) as [[o | ex] st2];
        cbn [fst] in Ho; [ | discriminate ].
      injection Ho as ->.
      exists (Recalculating :: out'). split; [ reflexivity | ].
      constructor; [ reflexivity | exact Hall ].
    + destruct (IH (mkLoop m1 (ref_time st))) as (out' & Ho & Hall);
        cbn [hr_monitor]; try assumption; try lia.
      destruct (main_loop rest (mkLoop m1 (ref_time st))) as [[o | ex] st2];
        cbn [fst] in Ho; [ | discriminate ].
      injection Ho as ->.
      exists out'. split; [ reflexivity | exact Hall ].
Qed.

(** X12: until the sensor has delivered its fifth reading, [main] raises
    nothing and every line it prints is the recalculating one. *)
Theorem main_recalculates_until_fifth_reading
        (addr : Z) (scan : list Z) (ok : bool) (now : Z)
        (calls : list sensor_call) (st0 : loop_state) (envs : list loop_env) :
  main_startup addr scan ok now = Running calls st0 ->
  (readings_taken envs <= 4)%nat ->
  exists out,
    fst (main_loop envs st0) = Returns out /\ Forall (eq Recalculating) out.
Proof.
  intros Hstart Hfew.
  destruct (main_startup_running _ _ _ _ _ _ Hstart) as (_ & _ & _ & ->).
  apply main_loop_recalculating.
  - apply init_inv. lia.
  - cbn. lia.
  - cbn. lia.
  - cbn. lia.
Qed.

Lemma main_recalculates_until_fifth_reading_witness :
  exists out,
    fst (main_loop [mkEnv (Some (1 # 1, 9 # 1)) 10 10 10; mkEnv None 20 2500 2500]
                   (mkLoop (init 50 150 5) 0)) = Returns out /\
    Forall (eq Recalculating) out.
Proof.
  apply (main_recalculates_until_fifth_reading
           87 [60; 87] true 0 _ _
           [mkEnv (Some (1 # 1, 9 # 1)) 10 10 10; mkEnv None 20 2500 2500] eq_refl).
  cbn. lia.
Defined.

(** ** A clock that never goes back *)

Lemma forward_steps_small (ts : list Z) : forward_steps ts -> small_steps ts.
Proof.
  induction ts as [ | a ts IH ]; [ trivial | ].
  destruct ts as [ | b ts ]; [ trivial | ].
  intros [Hab Hrest]. split; [ | apply IH; exact Hrest ].
  change (TICKS_PERIOD / 2) with 536870912 in *. lia.
Qed.

Lemma forward_steps_hd_le_last (ts : list Z) :
  forward_steps ts -> hd 0 ts <= last ts 0.
Proof.
  induction ts as [ | a ts IH ]; [ intros _; cbn; lia | ].
  destruct ts as [ | b ts ]; [ intros _; cbn; lia | ].
  intros [Hab Hrest]. specialize (IH Hrest).
  change (last (a :: b :: ts) 0) with (last (b :: ts) 0).
  cbn [hd] in *. lia.
Qed.

Lemma forward_steps_of_sorted_indices (times : list Z) (idxs : list nat) :
  (forall i j, (i <= j)%nat -> (j < length times)%nat ->
               0 <= nth j times 0 - nth i times 0 < TICKS_PERIOD / 2) ->
  StronglySorted lt idxs ->
  (forall i, In i idxs -> (i < length times)%nat) ->
  forward_steps (map (fun i => nth i times 0) idxs).
Proof.
  intros Hmono Hsorted. induction Hsorted as [ | a idxs Hs IH Hall ]; intros Hrange.
  - exact I.
  - destruct idxs as [ | b idxs ]; [ exact I | ].
    cbn [map]. split.
    + apply Hmono.
      * inversion Hall; subst. lia.
      * apply Hrange. right. left. reflexivity.
    + apply IH. intros i Hi. apply Hrange. right. exact Hi.
Qed.

(** X14: with a clock that never goes back and a window that spans less
    than half the period of [ticks_ms], the estimate is never negative.  On
    such a window (a timestamp for each filtered value, capacity not
    negative) [calculate_heart_rate] returns [None] or a positive rate, or
    raises [ZeroDivisionError] when all peaks carry the same time. *)
Theorem monotone_clock_gives_no_negative_rate
        (m : HeartRateMonitor) (times : list Z) :
  0 <= window_size m ->
  (length (filtered_samples m) <= length (timestamps m))%nat ->
  timestamps m = map (fun t => t mod TICKS_PERIOD) times ->
  (forall i j, (i <= j)%nat -> (j < length times)%nat ->
               0 <= nth j times 0 - nth i times 0 < TICKS_PERIOD / 2) ->
  match fst (calculate_heart_rate m) with
  | Returns None => True
  | Returns (Some bpm) => (0 < bpm)%Q
  | Raises e => e = ZeroDivisionError
  end.
Proof.
  intros Hws Hts Htimes Hmono.
  destruct (find_peaks_returns m Hws Hts) as (th & Hfp).
  set (idxs := filter (is_peak_at th (filtered_samples m))
                      (seq 1 (length (filtered_samples m) - 2))) in *.
  assert (Hp : fst (find_peaks m) = Returns (map (peak_of m) idxs))
    by (rewrite Hfp; reflexivity).
  assert (Hlen : length times = length (timestamps m))
    by (rewrite Htimes, length_map; reflexivity).
  assert (Hrange : forall i, In i idxs -> (i < length times)%nat).
  { intros i Hi. apply filter_In in Hi. destruct Hi as [Hi _].
    apply in_seq in Hi. lia. }
  destruct (le_lt_dec 2 (length idxs)) as [Hn | Hn].
  - assert (Hfst : map fst (map (peak_of m) idxs)
                   = map (fun t => t mod TICKS_PERIOD)
                         (map (fun i => nth i times 0) idxs)).
    { rewrite !map_map. apply map_ext_in. intros i Hi. unfold peak_of. cbn [fst].
      rewrite Htimes.
      change 0 with ((fun t => t mod TICKS_PERIOD) 0) at 1.
      rewrite map_nth. reflexivity. }
    pose proof (forward_steps_of_sorted_indices times idxs Hmono
                  (filter_strongly_sorted _ _ (seq_strongly_sorted _ 1)) Hrange) as Hfw.
    assert (Hn' : (2 <= length (map (peak_of m) idxs))%nat)
      by (rewrite length_map; exact Hn).
    rewrite (calculate_heart_rate_eq m _ Hp Hn'). cbn [fst].
    rewrite (mean_interval_telescoped _ _ Hn' Hfst (forward_steps_small _ Hfw)).
    pose proof (forward_steps_hd_le_last _ Hfw) as Hle.
    set (span := last (map (fun i => nth i times 0) idxs) 0
                 - hd 0 (map (fun i => nth i times 0) idxs)) in *.
    destruct (rate_of_span span (len (map (peak_of m) idxs) - 1)) as [Hzero Hrate].
    { unfold len. lia. }
    destruct (Z.eq_dec span 0) as [Heq | Hne].
    + rewrite (Hzero Heq). reflexivity.
    + destruct (Hrate Hne) as (Hret & _ & Hpos). rewrite Hret.
      apply Hpos. lia.
  - rewrite (calculate_heart_rate_none m _ Hp) by (rewrite length_map; exact Hn).
    exact I.
Qed.

Lemma monotone_clock_gives_no_negative_rate_witness :
  match fst (calculate_heart_rate steady_window) with
  | Returns None => True
  | Returns (Some bpm) => (0 < bpm)%Q
  | Raises e => e = ZeroDivisionError
  end.
Proof.
  apply (monotone_clock_gives_no_negative_rate
           steady_window [0; 0; 500; 1000; 1500; 2000; 2500]).
  - cbn. lia.
  - cbn. lia.
  - reflexivity.
  - intros i j Hij Hj. cbn in Hj. change (TICKS_PERIOD / 2) with 536870912.
    do 7 (destruct j as [ | j ];
          [ do 7 (destruct i as [ | i ]; [ cbn; lia | ]); lia | ]).
    lia.
Defined.

(** ** Binary64 rounding *)

Lemma f64_pow2_pos (e : Z) : (0 < F64.pow2 e)%Q.
Proof. apply Qpower_0_lt. reflexivity. Qed.

Lemma f64_pow2_plus (a b : Z) : (F64.pow2 (a + b) == F64.pow2 a * F64.pow2 b)%Q.
Proof. apply Qpower_plus. discriminate. Qed.

Lemma f64_pow2_le (a b : Z) : a <= b -> (F64.pow2 a <= F64.pow2 b)%Q.
Proof. intros H. apply Qpower_le_compat_l; [ exact H | discriminate ]. Qed.

Lemma f64_pow2_of_Z (a : Z) : 0 <= a -> (inject_Z (2 ^ a) == F64.pow2 a)%Q.
Proof. intros H. apply (Zpower_Qpower 2 a H). Qed.

Lemma f64_log2_bounds (n : Z) :
  0 < n ->
  (F64.pow2 (Z.log2 n) <= inject_Z n /\ inject_Z n < F64.pow2 (Z.log2 n + 1))%Q.
Proof.
  intros Hn. destruct (Z.log2_spec n Hn) as [Hlo Hhi].
  pose proof (Z.log2_nonneg n) as Ha. split.
  - rewrite <- f64_pow2_of_Z by exact Ha. rewrite <- Zle_Qle. exact Hlo.
  - rewrite <- f64_pow2_of_Z by lia. rewrite <- Zlt_Qlt.
    unfold Z.succ in Hhi. exact Hhi.
Qed.

Lemma f64_binade_spec (q : Q) :
  (0 < q)%Q ->
  (F64.pow2 (F64.binade q) <= q /\ q < F64.pow2 (F64.binade q + 1))%Q.
Proof.
  intros Hq. destruct q as [n d].
  assert (Hn : 0 < n) by (unfold Qlt in Hq; simpl in Hq; lia).
  unfold F64.binade. cbn [Qnum Qden].
  destruct (f64_log2_bounds n Hn) as [Hnl Hnu].
  destruct (f64_log2_bounds (Zpos d) ltac:(lia)) as [Hdl Hdu].
  set (a := Z.log2 n) in *. set (b := Z.log2 (Zpos d)) in *.
  assert (HD : (0 < inject_Z (Zpos d))%Q) by reflexivity.
  assert (Hqd : ((n # d) * inject_Z (Zpos d) == inject_Z n)%Q).
  { rewrite (Qmake_Qdiv n d). field. discriminate. }
  destruct (Qle_bool (F64.pow2 (a - b)) (n # d)) eqn:E.
  - apply Qle_bool_iff in E. split; [ exact E | ].
    apply (Qmult_lt_r _ _ (inject_Z (Zpos d)) HD). rewrite Hqd.
    apply Qlt_le_trans with (y := F64.pow2 (a + 1)); [ exact Hnu | ].
    replace (a + 1) with ((a - b + 1) + b) by lia. rewrite f64_pow2_plus.
    apply Qmult_le_l; [ apply f64_pow2_pos | exact Hdl ].
  - assert (Hlt : (n # d < F64.pow2 (a - b))%Q).
    { apply Qnot_le_lt. intros H. apply Qle_bool_iff in H. congruence. }
    split.
    + apply (Qmult_le_r _ _ (inject_Z (Zpos d)) HD). rewrite Hqd.
      apply Qle_trans with (y := F64.pow2 a); [ | exact Hnl ].
      replace a with ((a - b - 1) + (b + 1)) at 2 by lia. rewrite f64_pow2_plus.
      apply Qmult_le_l; [ apply f64_pow2_pos | apply Qlt_le_weak; exact Hdu ].
    + replace (a - b - 1 + 1) with (a - b) by lia. exact Hlt.
Qed.

Lemma f64_binade_mono (x y : Q) :
  (0 < x)%Q -> (x <= y)%Q -> F64.binade x <= F64.binade y.
Proof.
  intros Hx Hxy.
  destruct (f64_binade_spec x Hx) as [Hxl _].
  destruct (f64_binade_spec y (Qlt_le_trans _ _ _ Hx Hxy)) as [_ Hyu].
  destruct (Z.le_gt_cases (F64.binade x) (F64.binade y)) as [H | H]; [ exact H | ].
  exfalso. apply (Qlt_irrefl y).
  apply Qlt_le_trans with (y := F64.pow2 (F64.binade y + 1)); [ exact Hyu | ].
  apply Qle_trans with (y := F64.pow2 (F64.binade x)); [ apply f64_pow2_le; lia | ].
  apply Qle_trans with (y := x); assumption.
Qed.

Lemma f64_binade_proper (x y : Q) :
  (0 < x)%Q -> (x == y)%Q -> F64.binade x = F64.binade y.
Proof.
  intros Hx Hxy.
  assert (Hy : (0 < y)%Q) by (rewrite <- Hxy; exact Hx).
  pose proof (f64_binade_mono x y Hx ltac:(rewrite Hxy; apply Qle_refl)).
  pose proof (f64_binade_mono y x Hy ltac:(rewrite Hxy; apply Qle_refl)).
  lia.
Qed.

Lemma f64_rhe_bounds (x : Q) :
  Qfloor x <= F64.round_half_even x <= Qfloor x + 1.
Proof.
  unfold F64.round_half_even.
  destruct (Qcompare _ _); [ destruct (Z.even _) | | ]; lia.
Qed.

Lemma f64_rhe_Z (n : Z) : F64.round_half_even (inject_Z n) = n.
Proof.
  unfold F64.round_half_even. rewrite Qfloor_Z.
  replace (Qcompare (inject_Z n - inject_Z n) (1 # 2)) with Lt; [ reflexivity | ].
  symmetry. apply (proj1 (Qlt_alt _ _)). generalize (inject_Z n). intros v. lra.
Qed.

Lemma f64_rhe_mono (x y : Q) :
  (x <= y)%Q -> F64.round_half_even x <= F64.round_half_even y.
Proof.
  intros Hxy. pose proof (Qfloor_resp_le x y Hxy) as Hf.
  pose proof (f64_rhe_bounds x) as Bx. pose proof (f64_rhe_bounds y) as By.
  destruct (Z.eq_dec (Qfloor x) (Qfloor y)) as [Heq | Hne]; [ | lia ].
  unfold F64.round_half_even in *. rewrite <- Heq in *.
  destruct (Qcompare_spec (x - inject_Z (Qfloor x)) (1 # 2)) as [Ex | Ex | Ex];
    destruct (Qcompare_spec (y - inject_Z (Qfloor x)) (1 # 2)) as [Ey | Ey | Ey];
    try destruct (Z.even (Qfloor x)); try lia; exfalso; lra.
Qed.

Lemma f64_rhe_proper (x y : Q) :
  (x == y)%Q -> F64.round_half_even x = F64.round_half_even y.
Proof.
  intros H.
  pose proof (f64_rhe_mono x y ltac:(rewrite H; apply Qle_refl)).
  pose proof (f64_rhe_mono y x ltac:(rewrite H; apply Qle_refl)).
  lia.
Qed.

Lemma f64_round_pos_eq (q : Q) :
  (F64.round_pos q
   == inject_Z (F64.round_half_even (q / F64.pow2 (F64.quantum q)))
      * F64.pow2 (F64.quantum q))%Q.
Proof. unfold F64.round_pos. apply Qred_correct. Qed.

Lemma f64_scaled_bounds (q : Q) :
  (0 < q)%Q ->
  (q / F64.pow2 (F64.quantum q) < inject_Z (2 ^ 53))%Q /\
  (-1074 < F64.quantum q -> (inject_Z (2 ^ 52) <= q / F64.pow2 (F64.quantum q))%Q).
Proof.
  intros Hq. destruct (f64_binade_spec q Hq) as [Hl Hu].
  pose proof (f64_pow2_pos (F64.quantum q)) as Hp.
  split.
  - apply Qlt_shift_div_r; [ exact Hp | ].
    apply Qlt_le_trans with (y := F64.pow2 (F64.binade q + 1)); [ exact Hu | ].
    rewrite (f64_pow2_of_Z 53) by lia. rewrite <- f64_pow2_plus.
    apply f64_pow2_le. unfold F64.quantum. lia.
  - intros Hn. apply Qle_shift_div_l; [ exact Hp | ].
    apply Qle_trans with (y := F64.pow2 (F64.binade q)); [ | exact Hl ].
    rewrite (f64_pow2_of_Z 52) by lia. rewrite <- f64_pow2_plus.
    apply f64_pow2_le. unfold F64.quantum in *. lia.
Qed.

Lemma f64_round_pos_nonneg (q : Q) : (0 < q)%Q -> (0 <= F64.round_pos q)%Q.
Proof.
  intros Hq. rewrite f64_round_pos_eq.
  apply Qmult_le_0_compat; [ | apply Qlt_le_weak, f64_pow2_pos ].
  change 0%Q with (inject_Z 0). rewrite <- Zle_Qle.
  rewrite <- (f64_rhe_Z 0). apply f64_rhe_mono.
  apply Qlt_le_weak. apply Qlt_shift_div_l; [ apply f64_pow2_pos | ].
  rewrite Qmult_0_l. exact Hq.
Qed.

Lemma f64_round_pos_mono (x y : Q) :
  (0 < x)%Q -> (x <= y)%Q -> (F64.round_pos x <= F64.round_pos y)%Q.
Proof.
  intros Hx Hxy. assert (Hy : (0 < y)%Q) by (eapply Qlt_le_trans; eassumption).
  rewrite !f64_round_pos_eq.
  assert (He : F64.quantum x <= F64.quantum y)
    by (unfold F64.quantum; pose proof (f64_binade_mono x y Hx Hxy); lia).
  destruct (Z.eq_dec (F64.quantum x) (F64.quantum y)) as [Heq | Hne].
  - rewrite Heq. apply Qmult_le_r; [ apply f64_pow2_pos | ].
    rewrite <- Zle_Qle. apply f64_rhe_mono.
    apply Qmult_le_r; [ apply Qinv_lt_0_compat, f64_pow2_pos | exact Hxy ].
  - destruct (f64_scaled_bounds x Hx) as [Hxu _].
    destruct (f64_scaled_bounds y Hy) as [_ Hyl].
    assert (Hqy : -1074 < F64.quantum y) by (unfold F64.quantum in *; lia).
    specialize (Hyl Hqy).
    assert (Mx : F64.round_half_even (x / F64.pow2 (F64.quantum x)) <= 2 ^ 53).
    { rewrite <- (f64_rhe_Z (2 ^ 53)). apply f64_rhe_mono.
      apply Qlt_le_weak. exact Hxu. }
    assert (My : 2 ^ 52 <= F64.round_half_even (y / F64.pow2 (F64.quantum y))).
    { rewrite <- (f64_rhe_Z (2 ^ 52)). apply f64_rhe_mono. exact Hyl. }
    apply Qle_trans with (y := (inject_Z (2 ^ 53) * F64.pow2 (F64.quantum x))%Q).
    { apply Qmult_le_r; [ apply f64_pow2_pos | ]. rewrite <- Zle_Qle. exact Mx. }
    apply Qle_trans with (y := (inject_Z (2 ^ 52) * F64.pow2 (F64.quantum y))%Q).
    { apply Qle_trans with (y := (inject_Z (2 ^ 52) * F64.pow2 (F64.quantum x + 1))%Q).
      - rewrite f64_pow2_plus. change (F64.pow2 1) with (2 # 1).
        change (inject_Z (2 ^ 53)) with (inject_Z (2 ^ 52) * (2 # 1))%Q.
        rewrite <- Qmult_assoc, (Qmult_comm (2 # 1)). apply Qle_refl.
      - apply Qmult_le_l; [ reflexivity | apply f64_pow2_le; lia ]. }
    apply Qmult_le_r; [ apply f64_pow2_pos | ]. rewrite <- Zle_Qle. exact My.
Qed.

Lemma f64_round_pos_proper (x y : Q) :
  (0 < x)%Q -> (x == y)%Q -> F64.round_pos x = F64.round_pos y.
Proof.
  intros Hx Hxy. unfold F64.round_pos. apply Qred_complete.
  unfold F64.quantum. rewrite <- (f64_binade_proper x y Hx Hxy).
  rewrite (f64_rhe_proper (x / _) (y / F64.pow2 (Z.max (F64.binade x - 52) (-1074)))).
  - reflexivity.
  - apply Qdiv_comp; [ exact Hxy | reflexivity ].
Qed.

Lemma f64_Qnum_sign (q : Q) :
  match Qnum q with
  | 0 => (q == 0)%Q
  | Zpos _ => (0 < q)%Q
  | Zneg _ => (q < 0)%Q
  end.
Proof.
  destruct q as [[ | p | p] d]; cbn [Qnum]; unfold Qeq, Qlt; simpl; lia.
Qed.

Lemma f64_round64_sign (q : Q) :
  ((0 <= q -> 0 <= F64.round64 q) /\ (q <= 0 -> F64.round64 q <= 0))%Q.
Proof.
  unfold F64.round64. pose proof (f64_Qnum_sign q) as Hs.
  destruct (Qnum q) eqn:E.
  - split; intros _; apply Qle_refl.
  - split; [ intros _; apply f64_round_pos_nonneg; exact Hs | intros H; lra ].
  - split; [ intros H; lra | intros _ ].
    assert (H : (0 <= F64.round_pos (- q))%Q) by (apply f64_round_pos_nonneg; lra).
    lra.
Qed.

(** Rounding to nearest is monotone. *)
Lemma f64_round64_mono (x y : Q) :
  (x <= y)%Q -> (F64.round64 x <= F64.round64 y)%Q.
Proof.
  intros Hxy.
  destruct (Qlt_le_dec 0 x) as [Hx | Hx].
  - assert (Hy : (0 < y)%Q) by lra.
    unfold F64.round64.
    pose proof (f64_Qnum_sign x) as Sx. pose proof (f64_Qnum_sign y) as Sy.
    destruct (Qnum x); try lra. destruct (Qnum y); try lra.
    apply f64_round_pos_mono; assumption.
  - destruct (Qlt_le_dec y 0) as [Hy | Hy].
    + unfold F64.round64.
      pose proof (f64_Qnum_sign x) as Sx. pose proof (f64_Qnum_sign y) as Sy.
      destruct (Qnum x); try lra. destruct (Qnum y); try lra.
      assert (H : (F64.round_pos (- y) <= F64.round_pos (- x))%Q)
        by (apply f64_round_pos_mono; lra).
      lra.
    + apply Qle_trans with (y := 0%Q).
      * apply (proj2 (f64_round64_sign x)). exact Hx.
      * apply (proj1 (f64_round64_sign y)). exact Hy.
Qed.

(** Rounding does not see how a rational is written. *)
Lemma f64_round64_proper (x y : Q) :
  (x == y)%Q -> F64.round64 x = F64.round64 y.
Proof.
  intros Hxy. unfold F64.round64.
  pose proof (f64_Qnum_sign x) as Sx. pose proof (f64_Qnum_sign y) as Sy.
  destruct (Qnum x); destruct (Qnum y); try reflexivity; try (exfalso; lra).
  - apply f64_round_pos_proper; assumption.
  - f_equal. apply f64_round_pos_proper; [ lra | rewrite Hxy; reflexivity ].
Qed.

(** An [int] below [2^53] in magnitude is a float. *)
Lemma f64_round_pos_int (z : Z) :
  0 < z < 2 ^ 53 -> (F64.round_pos (inject_Z z) == inject_Z z)%Q.
Proof.
  intros Hz. rewrite f64_round_pos_eq.
  assert (Hq : (0 < inject_Z z)%Q)
    by (change 0%Q with (inject_Z 0); rewrite <- Zlt_Qlt; lia).
  destruct (f64_binade_spec _ Hq) as [Hl _].
  assert (Hb : F64.binade (inject_Z z) < 53).
  { destruct (Z.lt_ge_cases (F64.binade (inject_Z z)) 53) as [H | H]; [ exact H | ].
    exfalso. apply (Qlt_irrefl (inject_Z z)).
    apply Qlt_le_trans with (y := inject_Z (2 ^ 53)); [ rewrite <- Zlt_Qlt; lia | ].
    rewrite (f64_pow2_of_Z 53) by lia.
    apply Qle_trans with (y := F64.pow2 (F64.binade (inject_Z z)));
      [ apply f64_pow2_le; exact H | exact Hl ]. }
  set (k := F64.quantum (inject_Z z)).
  assert (Hk : k <= 0) by (unfold k, F64.quantum; lia).
  assert (Hdiv : (inject_Z z / F64.pow2 k == inject_Z (z * 2 ^ (- k)))%Q).
  { rewrite inject_Z_mult, (f64_pow2_of_Z (- k)) by lia.
    unfold F64.pow2. rewrite Qpower_opp. reflexivity. }
  rewrite (f64_rhe_proper _ _ Hdiv), f64_rhe_Z.
  rewrite inject_Z_mult, (f64_pow2_of_Z (- k)) by lia.
  rewrite <- Qmult_assoc, <- f64_pow2_plus.
  replace (- k + k) with 0 by lia. change (F64.pow2 0) with 1%Q. ring.
Qed.

Lemma f64_round64_int (z : Z) :
  Z.abs z < 2 ^ 53 -> (F64.round64 (inject_Z z) == inject_Z z)%Q.
Proof.
  intros Hz. unfold F64.round64. change (Qnum (inject_Z z)) with z.
  destruct z as [ | p | p ].
  - reflexivity.
  - apply f64_round_pos_int. lia.
  - change (- inject_Z (Zneg p))%Q with (inject_Z (Zpos p)).
    rewrite f64_round_pos_int by lia. reflexivity.
Qed.

(** The rounding agrees with the machine's binary64 arithmetic on the
    operations of the instances used below: 9/5, 4/3, 60000/700, the mean
    of three 0.1, and the threshold between 0.6 and 3. *)
Lemma f64_round64_matches_binary64 :
  F64.machine_value (PrimFloat.div (F64.machine_int 9) (F64.machine_int 5))
  = F64.round64 (inject_Z 9 / inject_Z 5) /\
  F64.machine_value (PrimFloat.div (F64.machine_int 4) (F64.machine_int 3))
  = F64.round64 (inject_Z 4 / inject_Z 3) /\
  F64.machine_value (PrimFloat.div (F64.machine_int 60000) (F64.machine_int 700))
  = F64.round64 (inject_Z 60000 / inject_Z 700) /\
  (let tenth := PrimFloat.div (F64.machine_int 1) (F64.machine_int 10) in
   F64.machine_value tenth = F64.tenth /\
   F64.machine_value
     (PrimFloat.div (PrimFloat.add (PrimFloat.add tenth tenth) tenth) (F64.machine_int 3))
   = F64.round64 (F64.round64 (F64.round64 (F64.tenth + F64.tenth) + F64.tenth)
                  / inject_Z 3)) /\
  (let lo := PrimFloat.div (F64.machine_int 3) (F64.machine_int 5) in
   let half := PrimFloat.div (F64.machine_int 1) (F64.machine_int 2) in
   F64.machine_value
     (PrimFloat.add lo (PrimFloat.mul (PrimFloat.sub (F64.machine_int 3) lo) half))
   = F64.round64
       (F64.machine_value lo
        + F64.round64 (F64.round64 (inject_Z 3 - F64.machine_value lo) * (1 # 2)))).
Proof. vm_compute. repeat split. Qed.

(** ** The order of Python numbers *)

Lemma f64_py_lt_iff (a b : F64.num) : F64.py_lt a b = true <-> F64.lt a b.
Proof. unfold F64.py_lt, F64.lt. apply Qltb_lt. Qed.

Lemma f64_py_lt_false_iff (a b : F64.num) : F64.py_lt a b = false <-> F64.le b a.
Proof. unfold F64.py_lt, F64.le. apply Qltb_ge. Qed.

Lemma f64_le_refl (a : F64.num) : F64.le a a.
Proof. unfold F64.le. apply Qle_refl. Qed.

Lemma f64_le_trans (a b c : F64.num) : F64.le a b -> F64.le b c -> F64.le a c.
Proof. unfold F64.le. apply Qle_trans. Qed.

Lemma f64_lt_le (a b : F64.num) : F64.lt a b -> F64.le a b.
Proof. unfold F64.lt, F64.le. apply Qlt_le_weak. Qed.

Lemma f64_py_mul_comm (a b : F64.num) : F64.py_mul a b = F64.py_mul b a.
Proof.
  assert (Hq : forall x y : Q, (x * y)%Q = (y * x)%Q).
  { intros x y. unfold Qmult. rewrite Z.mul_comm, Pos.mul_comm. reflexivity. }
  destruct a as [x | x], b as [y | y]; unfold F64.py_mul; cbn [F64.to_float].
  - rewrite Z.mul_comm. reflexivity.
  - rewrite Hq. reflexivity.
  - rewrite Hq. reflexivity.
  - rewrite Hq. reflexivity.
Qed.

Lemma f64_py_truediv_nonzero (a : F64.num) (d : Z) :
  d <> 0 ->
  F64.py_truediv a (F64.PyInt d) = Returns (F64.PyFloat (F64.div_value a (F64.PyInt d))).
Proof.
  intros Hd. unfold F64.div_value, F64.py_truediv. cbn [F64.value].
  destruct (Qeq_bool (inject_Z d) 0) eqn:E; [ | reflexivity ].
  apply Qeq_bool_eq in E. unfold Qeq in E. simpl in E. lia.
Qed.

Lemma f64_py_truediv_by_zero (a b : F64.num) :
  (F64.value b == 0)%Q -> F64.py_truediv a b = Raises ZeroDivisionError.
Proof.
  intros H. unfold F64.py_truediv.
  rewrite (proj2 (Qeq_bool_iff _ _) H). reflexivity.
Qed.

Lemma f64_py_sum_from (l : list F64.num) :
  forall zs a, l = map F64.PyInt zs ->
    fold_left F64.py_add l (F64.PyInt a) = F64.PyInt (fold_left Z.add zs a).
Proof.
  induction l as [ | x l IH ]; intros zs a Hl.
  - destruct zs; [ reflexivity | discriminate ].
  - destruct zs as [ | z zs ]; [ discriminate | ].
    cbn [map] in Hl. injection Hl as -> Hl.
    cbn [fold_left F64.py_add]. apply IH. exact Hl.
Qed.

(** The sum of [int]s is the exact sum. *)
Lemma f64_py_sum_ints (zs : list Z) :
  F64.py_sum (map F64.PyInt zs) = F64.PyInt (py_sumZ zs).
Proof. unfold F64.py_sum, py_sumZ. apply f64_py_sum_from. reflexivity. Qed.

(** ** [add_sample] step by step *)

Ltac f64_run :=
  cbn -[len Z.leb Z.ltb F64.py_truediv F64.py_sum py_slice_from app Z.add Z.sub
        Z.opp Z.of_nat Z.to_nat].

Lemma f64_add_sample_eq (now : Z) (sample : F64.num) (m : F64.HeartRateMonitor) :
  F64.add_sample now sample m =
  match F64.filter_value m sample with
  | Raises e =>
      (Raises e,
       F64.mkMonitor (F64.sample_rate m) (F64.window_size m) (F64.smoothing_window m)
                     (F64.samples m ++ [sample]) (F64.timestamps m ++ [now])
                     (F64.filtered_samples m))
  | Returns v =>
      let over := F64.window_size m <? len (F64.samples m) + 1 in
      (Returns tt,
       F64.mkMonitor (F64.sample_rate m) (F64.window_size m) (F64.smoothing_window m)
                     (evicted over (F64.samples m ++ [sample]))
                     (evicted over (F64.timestamps m ++ [now]))
                     (evicted over (F64.filtered_samples m ++ [v])))
  end.
Proof.
  destruct m as [sr ws sw s t f].
  unfold F64.add_sample, F64.filter_value, F64.bind, F64.modify, F64.get, F64.lift,
    F64.ret, F64.set_samples, F64.set_timestamps, F64.set_filtered_samples.
  f64_run. rewrite len_app.
  destruct (sw <=? len s + 1); f64_run.
  - destruct (F64.py_truediv _ _) as [v | e]; f64_run; [ | reflexivity ].
    rewrite len_app.
    destruct (ws <? len s + 1); f64_run; [ | reflexivity ].
    rewrite !py_pop0_snoc. reflexivity.
  - rewrite len_app.
    destruct (ws <? len s + 1); f64_run; [ | reflexivity ].
    rewrite !py_pop0_snoc. reflexivity.
Qed.

Lemma f64_filter_value_returns (m : F64.HeartRateMonitor) (x : F64.num) :
  F64.smoothing_window m <> 0 -> exists v, F64.filter_value m x = Returns v.
Proof.
  intros Hsw. unfold F64.filter_value.
  destruct (F64.smoothing_window m <=? len (F64.samples m) + 1).
  - rewrite f64_py_truediv_nonzero by assumption. eauto.
  - eauto.
Qed.

Lemma f64_add_sample_keeps_inv (now : Z) (x : F64.num) (m : F64.HeartRateMonitor) :
  F64.window_inv m -> F64.smoothing_window m <> 0 ->
  fst (F64.add_sample now x m) = Returns tt /\
  F64.window_inv (snd (F64.add_sample now x m)) /\
  F64.window_size (snd (F64.add_sample now x m)) = F64.window_size m /\
  F64.smoothing_window (snd (F64.add_sample now x m)) = F64.smoothing_window m.
Proof.
  intros (Hst & Htf & Hcap) Hsw.
  rewrite f64_add_sample_eq.
  destruct (f64_filter_value_returns m x Hsw) as [v ->].
  cbv zeta. unfold F64.window_inv.
  cbn [fst snd F64.samples F64.timestamps F64.filtered_samples
       F64.window_size F64.smoothing_window].
  unfold len in *. rewrite !length_evicted_snoc.
  destruct (F64.window_size m <? Z.of_nat (length (F64.samples m)) + 1) eqn:E.
  - apply Z.ltb_lt in E. split; [ | split; [ split; [ | split ] | split ] ];
      try reflexivity; lia.
  - apply Z.ltb_ge in E. split; [ | split; [ split; [ | split ] | split ] ];
      try reflexivity; lia.
Qed.

Lemma f64_add_samples_keep_inv (inputs : list (Z * F64.num)) :
  forall m, F64.window_inv m -> F64.smoothing_window m <> 0 ->
  fst (F64.add_samples inputs m) = Returns tt /\
  F64.window_inv (snd (F64.add_samples inputs m)) /\
  F64.window_size (snd (F64.add_samples inputs m)) = F64.window_size m /\
  F64.smoothing_window (snd (F64.add_samples inputs m)) = F64.smoothing_window m.
Proof.
  induction inputs as [ | [now x] rest IH ]; intros m Hinv Hsw.
  - simpl. auto.
  - destruct (f64_add_sample_keeps_inv now x m Hinv Hsw) as (Ho & Hi & Hw & Hs).
    cbn [F64.add_samples]. unfold F64.bind.
    destruct (F64.add_sample now x m) as [[[] | e] m1]; cbn [fst snd] in *;
      [ | discriminate ].
    destruct (IH m1 Hi) as (Ho' & Hi' & Hw' & Hs'); [ congruence | ].
    split; [ assumption | split; [ assumption | split; congruence ] ].
Qed.

Lemma f64_init_inv (sr ws sw : Z) : 0 <= ws -> F64.window_inv (F64.init sr ws sw).
Proof. intros H. unfold F64.window_inv, F64.init, len. simpl. auto. Qed.

Lemma f64_add_samples_app (a b : list (Z * F64.num)) :
  forall m,
    F64.add_samples (a ++ b) m =
    match F64.add_samples a m with
    | (Returns _, m') => F64.add_samples b m'
    | (Raises e, m') => (Raises e, m')
    end.
Proof.
  induction a as [ | [now x] a IH ]; intros m; cbn [app F64.add_samples].
  - reflexivity.
  - unfold F64.bind. destruct (F64.add_sample now x m) as [[[] | e] m1].
    + apply IH.
    + reflexivity.
Qed.

Lemma f64_fed_inv (sr ws sw : Z) (pre : list (Z * F64.num)) :
  0 <= ws -> sw <> 0 ->
  F64.add_samples pre (F64.init sr ws sw) = (Returns tt, F64.fed sr ws sw pre) /\
  F64.window_inv (F64.fed sr ws sw pre).
Proof.
  intros Hws Hsw. unfold F64.fed.
  destruct (f64_add_samples_keep_inv pre (F64.init sr ws sw) (f64_init_inv sr ws sw Hws) Hsw)
    as (Ho & Hi & _).
  split; [ | exact Hi ].
  destruct (F64.add_samples pre (F64.init sr ws sw)) as [o m1]; cbn [fst snd] in *.
  congruence.
Qed.

Lemma f64_fed_snoc (sr ws sw : Z) (pre : list (Z * F64.num)) (now : Z) (x : F64.num) :
  0 <= ws -> sw <> 0 ->
  F64.add_sample now x (F64.fed sr ws sw pre)
  = (Returns tt, F64.fed sr ws sw (pre ++ [(now, x)])).
Proof.
  intros Hws Hsw.
  destruct (f64_fed_inv sr ws sw pre Hws Hsw) as [Hpre _].
  destruct (f64_fed_inv sr ws sw (pre ++ [(now, x)]) Hws Hsw) as [Hall _].
  rewrite f64_add_samples_app, Hpre in Hall.
  cbn [F64.add_samples] in Hall. unfold F64.bind in Hall.
  destruct (F64.add_sample now x (F64.fed sr ws sw pre)) as [[[] | e] m2].
  - unfold F64.ret in Hall. exact Hall.
  - discriminate Hall.
Qed.

Lemma f64_fed_shape (sr ws sw : Z) (pre : list (Z * F64.num)) :
  0 <= ws -> sw <> 0 ->
  F64.samples (F64.fed sr ws sw pre) = lastn (Z.to_nat ws) (map snd pre) /\
  F64.timestamps (F64.fed sr ws sw pre) = lastn (Z.to_nat ws) (map fst pre) /\
  F64.window_size (F64.fed sr ws sw pre) = ws /\
  F64.smoothing_window (F64.fed sr ws sw pre) = sw /\
  F64.sample_rate (F64.fed sr ws sw pre) = sr.
Proof.
  intros Hws Hsw. induction pre as [ | [now x] pre IH ] using rev_ind.
  - unfold F64.fed, lastn. cbn. auto.
  - destruct IH as (Hs & Ht & Hw & Hsm & Hr).
    pose proof (f64_fed_snoc sr ws sw pre now x Hws Hsw) as Hstep.
    rewrite f64_add_sample_eq in Hstep.
    destruct (f64_filter_value_returns (F64.fed sr ws sw pre) x) as [v Hv];
      [ congruence | ].
    rewrite Hv in Hstep. cbv zeta in Hstep.
    injection Hstep as Hstep. rewrite <- Hstep.
    cbn [F64.samples F64.timestamps F64.window_size F64.smoothing_window F64.sample_rate].
    rewrite !map_app. cbn [map fst snd].
    rewrite (lastn_snoc (Z.to_nat ws) (map snd pre) x).
    rewrite (lastn_snoc (Z.to_nat ws) (map fst pre) now).
    rewrite Hs, Ht, Hw. rewrite Z2Nat.id by exact Hws.
    split; [ reflexivity | ].
    split; [ | auto ].
    f_equal. unfold len. rewrite !length_lastn, !length_map. reflexivity.
Qed.

(** The value the next call appends, from the readings fed so far. *)
Lemma f64_filter_value_fed (sr ws sw : Z) (pre : list (Z * F64.num)) (x : F64.num) :
  0 <= ws -> 1 <= sw ->
  F64.filter_value (F64.fed sr ws sw pre) x = Returns (F64.appended ws sw (map snd pre) x).
Proof.
  intros Hws Hsw.
  destruct (f64_fed_shape sr ws sw pre Hws) as (Hs & _ & _ & Hsm & _); [ lia | ].
  unfold F64.filter_value, F64.appended. rewrite Hsm, Hs.
  replace (len (lastn (Z.to_nat ws) (map snd pre)) + 1)
    with (Z.min (len (map snd pre) + 1) (ws + 1))
    by (unfold len; rewrite length_lastn, !length_map; lia).
  destruct (Z.leb_spec sw (Z.min (len (map snd pre) + 1) (ws + 1))) as [H | H];
    [ | reflexivity ].
  rewrite f64_py_truediv_nonzero by lia.
  rewrite py_slice_last by lia.
  rewrite lastn_of_suffix
    by (rewrite length_lastn; unfold len in H; lia).
  reflexivity.
Qed.

Lemma f64_filtered_snoc (sr ws sw : Z) (pre : list (Z * F64.num)) (now : Z) (x : F64.num) :
  0 <= ws -> 1 <= sw ->
  F64.filtered_samples (F64.fed sr ws sw (pre ++ [(now, x)])) =
  evicted (ws <? len (F64.filtered_samples (F64.fed sr ws sw pre)) + 1)
          (F64.filtered_samples (F64.fed sr ws sw pre)
             ++ [F64.appended ws sw (map snd pre) x]).
Proof.
  intros Hws Hsw.
  assert (Hstep : F64.add_sample now x (F64.fed sr ws sw pre)
                  = (Returns tt, F64.fed sr ws sw (pre ++ [(now, x)])))
    by (apply f64_fed_snoc; lia).
  rewrite f64_add_sample_eq in Hstep.
  rewrite f64_filter_value_fed in Hstep by assumption.
  cbv zeta in Hstep. injection Hstep as Hstep. rewrite <- Hstep.
  cbn [F64.filtered_samples].
  destruct (f64_fed_shape sr ws sw pre Hws) as (_ & _ & Hw & _); [ lia | ].
  destruct (f64_fed_inv sr ws sw pre Hws) as (_ & H1 & H2 & _); [ lia | ].
  rewrite Hw. unfold len. rewrite H1, H2. reflexivity.
Qed.

(** ** Reads on the monitor *)

Lemma f64_read_only_ret {A : Type} (a : A) : F64.read_only (F64.ret a).
Proof. intros m. reflexivity. Qed.

Lemma f64_read_only_lift {A : Type} (o : outcome A) : F64.read_only (F64.lift o).
Proof. intros m. reflexivity. Qed.

Lemma f64_read_only_get : F64.read_only F64.get.
Proof. intros m. reflexivity. Qed.

Lemma f64_read_only_bind {A B : Type} (c : F64.M A) (k : A -> F64.M B) :
  F64.read_only c -> (forall a, F64.read_only (k a)) -> F64.read_only (F64.bind c k).
Proof.
  intros Hc Hk m. unfold F64.bind. specialize (Hc m).
  destruct (c m) as [[a | e] m1]; cbn [snd] in *; subst m1.
  - apply Hk.
  - reflexivity.
Qed.

Lemma f64_read_only_for_each {A : Type} (body : A -> nat -> F64.M A) (idx : list nat) :
  (forall acc i, F64.read_only (body acc i)) ->
  forall acc, F64.read_only (F64.for_each body acc idx).
Proof.
  intros Hb. induction idx as [ | i rest IH ]; intros acc; cbn [F64.for_each].
  - apply f64_read_only_ret.
  - apply f64_read_only_bind; [ apply Hb | intros a; apply IH ].
Qed.

Ltac f64_read_only_tac :=
  repeat first
    [ apply f64_read_only_ret | apply f64_read_only_lift | apply f64_read_only_get
    | apply f64_read_only_bind; [ | intros ? ]
    | apply f64_read_only_for_each; intros ? ?
    | match goal with |- F64.read_only (if ?b then _ else _) => destruct b end ].

Lemma f64_find_peaks_read_only : F64.read_only F64.find_peaks.
Proof. unfold F64.find_peaks, F64.peak_step. f64_read_only_tac. Qed.

Lemma f64_find_peaks_pair (m : F64.HeartRateMonitor) :
  F64.find_peaks m = (fst (F64.find_peaks m), m).
Proof.
  pose proof (f64_find_peaks_read_only m) as H.
  destruct (F64.find_peaks m) as [o m1]. cbn [fst snd] in *. congruence.
Qed.

(** ** The peak scan with the numbers as stored *)

Lemma f64_peak_step_eq (th : F64.num) (peaks : list (Z * F64.num)) (i : nat)
      (m : F64.HeartRateMonitor) :
  (i + 1 < length (F64.filtered_samples m))%nat ->
  (F64.is_peak_at th (F64.filtered_samples m) i = true ->
   (i < length (F64.timestamps m))%nat) ->
  F64.peak_step th peaks i m =
  (Returns (if F64.is_peak_at th (F64.filtered_samples m) i
            then peaks ++ [F64.peak_of m i] else peaks), m).
Proof.
  intros Hi Hts. unfold F64.peak_step, F64.bind, F64.get, F64.lift, F64.ret, F64.peak_of.
  rewrite (py_getitem_nth (F64.filtered_samples m) i (F64.PyInt 0)) by lia.
  rewrite (py_getitem_nth (F64.filtered_samples m) (i - 1) (F64.PyInt 0)) by lia.
  rewrite (py_getitem_nth (F64.filtered_samples m) (i + 1) (F64.PyInt 0)) by lia.
  destruct (F64.is_peak_at th (F64.filtered_samples m) i) eqn:E.
  - rewrite (py_getitem_nth (F64.timestamps m) i 0) by (apply Hts; reflexivity).
    unfold F64.is_peak_at in E.
    apply andb_true_iff in E. destruct E as [E E3].
    apply andb_true_iff in E. destruct E as [E1 E2].
    rewrite E1, E2, E3. reflexivity.
  - unfold F64.is_peak_at in E.
    destruct (F64.py_lt th (nth i (F64.filtered_samples m) (F64.PyInt 0)));
      [ | reflexivity ].
    destruct (F64.py_lt (nth (i - 1) (F64.filtered_samples m) (F64.PyInt 0)) _);
      [ | reflexivity ].
    destruct (F64.py_lt (nth (i + 1) (F64.filtered_samples m) (F64.PyInt 0)) _);
      [ | reflexivity ].
    discriminate E.
Qed.

Lemma f64_scan_eq (th : F64.num) (m : F64.HeartRateMonitor) (idx : list nat) :
  (forall i, In i idx -> (i + 1 < length (F64.filtered_samples m))%nat) ->
  (forall i, In i idx -> F64.is_peak_at th (F64.filtered_samples m) i = true ->
             (i < length (F64.timestamps m))%nat) ->
  forall peaks,
    F64.for_each (F64.peak_step th) peaks idx m =
    (Returns (peaks ++ map (F64.peak_of m)
                           (filter (F64.is_peak_at th (F64.filtered_samples m)) idx)),
     m).
Proof.
  induction idx as [ | i rest IH ]; intros Hin Hts peaks; cbn [F64.for_each filter map].
  - unfold F64.ret. rewrite app_nil_r. reflexivity.
  - unfold F64.bind. rewrite f64_peak_step_eq.
    + rewrite IH.
      * destruct (F64.is_peak_at th (F64.filtered_samples m) i); cbn [map].
        -- rewrite <- app_assoc. reflexivity.
        -- reflexivity.
      * intros j Hj. apply Hin. right. exact Hj.
      * intros j Hj. apply Hts. right. exact Hj.
    + apply Hin. left. reflexivity.
    + apply Hts. left. reflexivity.
Qed.

Lemma f64_find_peaks_eq (m : F64.HeartRateMonitor) (th : F64.num) :
  (3 <= length (F64.filtered_samples m))%nat ->
  F64.dynamic_threshold (py_slice_from (- F64.window_size m) (F64.filtered_samples m))
  = Returns th ->
  (forall i, (1 <= i)%nat -> (i + 1 < length (F64.filtered_samples m))%nat ->
             F64.is_peak_at th (F64.filtered_samples m) i = true ->
             (i < length (F64.timestamps m))%nat) ->
  F64.find_peaks m =
  (Returns (map (F64.peak_of m)
                (filter (F64.is_peak_at th (F64.filtered_samples m))
                        (seq 1 (length (F64.filtered_samples m) - 2)))), m).
Proof.
  intros Hlen Hth Hts. unfold F64.find_peaks, F64.bind, F64.get, F64.lift.
  replace (len (F64.filtered_samples m) <? 3) with false
    by (symmetry; apply Z.ltb_ge; unfold len; lia).
  rewrite Hth, py_range_interior, f64_scan_eq.
  - reflexivity.
  - intros i Hi. apply in_seq in Hi. lia.
  - intros i Hi Hp. apply in_seq in Hi. apply Hts; [ lia | lia | exact Hp ].
Qed.

Lemma f64_fold_min_spec (t : list F64.num) :
  forall x,
    let r := fold_left (fun acc y => if F64.py_lt y acc then y else acc) t x in
    In r (x :: t) /\ forall y, In y (x :: t) -> F64.le r y.
Proof.
  induction t as [ | a t IH ]; intros x; cbn [fold_left].
  - split; [ left; reflexivity | ].
    intros y [<- | []]. apply f64_le_refl.
  - specialize (IH (if F64.py_lt a x then a else x)). cbv zeta in IH.
    destruct IH as [Hin Hle]. split.
    + destruct Hin as [Hin | Hin].
      * rewrite <- Hin. destruct (F64.py_lt a x); [ right; left | left ]; reflexivity.
      * right. right. exact Hin.
    + intros y Hy.
      assert (Hx' : F64.le (fold_left (fun acc y => if F64.py_lt y acc then y else acc) t
                                      (if F64.py_lt a x then a else x))
                           (if F64.py_lt a x then a else x))
        by (apply Hle; left; reflexivity).
      destruct Hy as [<- | [<- | Hy]].
      * eapply f64_le_trans; [ exact Hx' | ].
        destruct (F64.py_lt a x) eqn:E.
        -- apply f64_lt_le. apply f64_py_lt_iff. exact E.
        -- apply f64_le_refl.
      * eapply f64_le_trans; [ exact Hx' | ].
        destruct (F64.py_lt a x) eqn:E.
        -- apply f64_le_refl.
        -- apply f64_py_lt_false_iff. exact E.
      * apply Hle. right. exact Hy.
Qed.

Lemma f64_fold_max_spec (t : list F64.num) :
  forall x,
    let r := fold_left (fun acc y => if F64.py_lt acc y then y else acc) t x in
    In r (x :: t) /\ forall y, In y (x :: t) -> F64.le y r.
Proof.
  induction t as [ | a t IH ]; intros x; cbn [fold_left].
  - split; [ left; reflexivity | ].
    intros y [<- | []]. apply f64_le_refl.
  - specialize (IH (if F64.py_lt x a then a else x)). cbv zeta in IH.
    destruct IH as [Hin Hle]. split.
    + destruct Hin as [Hin | Hin].
      * rewrite <- Hin. destruct (F64.py_lt x a); [ right; left | left ]; reflexivity.
      * right. right. exact Hin.
    + intros y Hy.
      assert (Hx' : F64.le (if F64.py_lt x a then a else x)
                           (fold_left (fun acc y => if F64.py_lt acc y then y else acc) t
                                      (if F64.py_lt x a then a else x)))
        by (apply Hle; left; reflexivity).
      destruct Hy as [<- | [<- | Hy]].
      * eapply f64_le_trans; [ | exact Hx' ].
        destruct (F64.py_lt x a) eqn:E.
        -- apply f64_lt_le. apply f64_py_lt_iff. exact E.
        -- apply f64_le_refl.
      * eapply f64_le_trans; [ | exact Hx' ].
        destruct (F64.py_lt x a) eqn:E.
        -- apply f64_le_refl.
        -- apply f64_py_lt_false_iff. exact E.
      * apply Hle. right. exact Hy.
Qed.

Lemma f64_dynamic_threshold_spec (recent : list F64.num) :
  recent <> [] ->
  exists mn mx,
    F64.py_min recent = Returns mn /\
    F64.py_max recent = Returns mx /\
    F64.dynamic_threshold recent
    = Returns (F64.py_add mn (F64.py_mul (F64.py_sub mx mn) (F64.PyFloat (1 # 2)))) /\
    (In mn recent /\ forall x, In x recent -> F64.le mn x) /\
    (In mx recent /\ forall x, In x recent -> F64.le x mx).
Proof.
  destruct recent as [ | x t ]; [ congruence | intros _ ].
  unfold F64.dynamic_threshold, F64.py_min, F64.py_max.
  eexists. eexists. split; [ reflexivity | ]. split; [ reflexivity | ].
  split; [ reflexivity | ].
  split; [ apply f64_fold_min_spec | apply f64_fold_max_spec ].
Qed.

Lemma f64_is_peak_at_iff (th : F64.num) (f : list F64.num) (i : nat) :
  F64.is_peak_at th f i = true <->
  F64.lt th (nth i f (F64.PyInt 0)) /\
  F64.lt (nth (i - 1) f (F64.PyInt 0)) (nth i f (F64.PyInt 0)) /\
  F64.lt (nth (i + 1) f (F64.PyInt 0)) (nth i f (F64.PyInt 0)).
Proof.
  unfold F64.is_peak_at. rewrite !andb_true_iff, !f64_py_lt_iff. tauto.
Qed.

(** ** The rate with the numbers as stored *)

Lemma f64_interval_scan_eq (peaks : list (Z * F64.num)) (m : F64.HeartRateMonitor)
      (idx : list nat) :
  (forall i, In i idx -> (1 <= i < length peaks)%nat) ->
  forall acc,
    F64.for_each (F64.interval_step peaks) acc idx m =
    (Returns (acc ++ map (fun i => ticks_diff (nth i (map fst peaks) 0)
                                              (nth (i - 1) (map fst peaks) 0)) idx), m).
Proof.
  induction idx as [ | i rest IH ]; intros Hin acc; cbn [F64.for_each map].
  - unfold F64.ret. rewrite app_nil_r. reflexivity.
  - assert (Hi : (1 <= i < length peaks)%nat) by (apply Hin; left; reflexivity).
    unfold F64.bind at 1. unfold F64.interval_step, F64.bind, F64.lift, F64.ret.
    rewrite (py_getitem_nth peaks i (0, F64.PyInt 0)) by lia.
    rewrite (py_getitem_nth peaks (i - 1) (0, F64.PyInt 0)) by lia.
    rewrite IH by (intros j Hj; apply Hin; right; exact Hj).
    rewrite <- app_assoc. cbn [app].
    change 0 with (fst (0, F64.PyInt 0)). rewrite !map_nth. reflexivity.
Qed.

Lemma f64_calculate_heart_rate_eq (m : F64.HeartRateMonitor) (peaks : list (Z * F64.num)) :
  fst (F64.find_peaks m) = Returns peaks ->
  (2 <= length peaks)%nat ->
  let intervals := consecutive_diffs (map fst peaks) in
  let average_interval := F64.PyFloat (F64.round64 (arith_meanZ intervals)) in
  F64.py_truediv (F64.PyInt (py_sumZ intervals)) (F64.PyInt (len intervals))
  = Returns average_interval /\
  F64.calculate_heart_rate m =
  (match F64.py_truediv (F64.PyInt 60000) average_interval with
   | Returns bpm => Returns (Some bpm)
   | Raises e => Raises e
   end, m).
Proof.
  intros Hp Hlen intervals average_interval.
  assert (Hn : len intervals <> 0).
  { unfold intervals, len. rewrite length_consecutive_diffs, length_map. lia. }
  assert (Havg : F64.py_truediv (F64.PyInt (py_sumZ intervals)) (F64.PyInt (len intervals))
                 = Returns average_interval).
  { unfold F64.py_truediv. cbn [F64.value].
    destruct (Qeq_bool (inject_Z (len intervals)) 0) eqn:E; [ | reflexivity ].
    apply Qeq_bool_eq in E. unfold Qeq in E. simpl in E. lia. }
  split; [ exact Havg | ].
  unfold F64.calculate_heart_rate. unfold F64.bind at 1.
  rewrite f64_find_peaks_pair, Hp.
  replace (len peaks <? 2) with false by (symmetry; apply Z.ltb_ge; unfold len; lia).
  unfold F64.bind at 1.
  replace (py_range 1 (len peaks)) with (seq 1 (length (map fst peaks) - 1))
    by (unfold py_range, len; rewrite length_map; f_equal; lia).
  rewrite f64_interval_scan_eq
    by (intros i Hi; apply in_seq in Hi; rewrite length_map in Hi; lia).
  cbn [app]. rewrite consecutive_diffs_by_index.
  unfold F64.bind, F64.lift, F64.ret. fold intervals. rewrite Havg.
  destruct (F64.py_truediv (F64.PyInt 60000) average_interval); reflexivity.
Qed.

(** ** The peaks [find_peaks] reports *)

(** C1: on a window state with at least 3 filtered samples (as many
    timestamps, positive capacity) [find_peaks] returns, for the interior
    indices [i] in increasing order that satisfy the three strict tests,
    the pair of the timestamp and the filtered value at [i].  The threshold
    is the float [minVal + 0.5 * (maxVal - minVal)] as Python computes it,
    each operation rounded, with [minVal] and [maxVal] the least and
    greatest of the trailing [window_size] filtered values; the
    comparisons are those of the stored numbers. *)
Theorem f64_find_peaks_reports_local_maxima (m : F64.HeartRateMonitor) :
  let f := F64.filtered_samples m in
  let ts := F64.timestamps m in
  (3 <= length f)%nat ->
  length ts = length f ->
  0 < F64.window_size m ->
  exists (idxs : list nat) (minVal maxVal : F64.num),
    let recent := lastn (Z.to_nat (F64.window_size m)) f in
    let threshold :=
      F64.py_add minVal (F64.py_mul (F64.PyFloat (1 # 2)) (F64.py_sub maxVal minVal)) in
    (In minVal recent /\ forall x, In x recent -> F64.le minVal x) /\
    (In maxVal recent /\ forall x, In x recent -> F64.le x maxVal) /\
    F64.find_peaks m
    = (Returns (map (fun i => (nth i ts 0, nth i f (F64.PyInt 0))) idxs), m) /\
    StronglySorted lt idxs /\
    forall i : nat,
      In i idxs <->
      (1 <= i <= length f - 2)%nat /\
      F64.lt threshold (nth i f (F64.PyInt 0)) /\
      F64.lt (nth (i - 1) f (F64.PyInt 0)) (nth i f (F64.PyInt 0)) /\
      F64.lt (nth (i + 1) f (F64.PyInt 0)) (nth i f (F64.PyInt 0)).
Proof.
  intros f ts Hlen Hts Hws.
  assert (Hne : lastn (Z.to_nat (F64.window_size m)) f <> []).
  { intros H. apply (f_equal (@length F64.num)) in H.
    rewrite length_lastn in H. simpl in H. lia. }
  destruct (f64_dynamic_threshold_spec _ Hne) as (mn & mx & _ & _ & Hth & Hmn & Hmx).
  rewrite f64_py_mul_comm in Hth.
  exists (filter (F64.is_peak_at
                    (F64.py_add mn (F64.py_mul (F64.PyFloat (1 # 2)) (F64.py_sub mx mn))) f)
                 (seq 1 (length f - 2))).
  exists mn, mx. cbv zeta.
  split; [ exact Hmn | split; [ exact Hmx | split; [ | split ] ] ].
  - apply f64_find_peaks_eq.
    + exact Hlen.
    + fold f. rewrite py_slice_last by exact Hws. exact Hth.
    + fold f ts. intros i _ Hi _. lia.
  - apply filter_strongly_sorted, seq_strongly_sorted.
  - intros i. rewrite filter_In, in_seq, f64_is_peak_at_iff.
    split; intros [H1 H2]; (split; [ lia | exact H2 ]).
Qed.

Lemma f64_find_peaks_reports_local_maxima_witness :
  exists (idxs : list nat) (minVal maxVal : F64.num),
    let f := F64.filtered_samples F64.rounding_window in
    let ts := F64.timestamps F64.rounding_window in
    let recent := lastn (Z.to_nat (F64.window_size F64.rounding_window)) f in
    let threshold :=
      F64.py_add minVal (F64.py_mul (F64.PyFloat (1 # 2)) (F64.py_sub maxVal minVal)) in
    (In minVal recent /\ forall x, In x recent -> F64.le minVal x) /\
    (In maxVal recent /\ forall x, In x recent -> F64.le x maxVal) /\
    F64.find_peaks F64.rounding_window
    = (Returns (map (fun i => (nth i ts 0, nth i f (F64.PyInt 0))) idxs),
       F64.rounding_window) /\
    StronglySorted lt idxs /\
    forall i : nat,
      In i idxs <->
      (1 <= i <= length f - 2)%nat /\
      F64.lt threshold (nth i f (F64.PyInt 0)) /\
      F64.lt (nth (i - 1) f (F64.PyInt 0)) (nth i f (F64.PyInt 0)) /\
      F64.lt (nth (i + 1) f (F64.PyInt 0)) (nth i f (F64.PyInt 0)).
Proof.
  apply (f64_find_peaks_reports_local_maxima F64.rounding_window).
  - vm_compute. lia.
  - vm_compute. reflexivity.
  - vm_compute. reflexivity.
Defined.

(** The window of C1's instance: the fifth filtered value is the float 1.8,
    the threshold the float below it, and the value is reported. *)
Lemma f64_rounding_window_peak :
  F64.filtered_samples F64.rounding_window
  = [F64.PyInt 3; F64.PyInt 3; F64.PyInt 1; F64.PyInt 1;
     F64.PyFloat (8106479329266893 # 4503599627370496);
     F64.PyFloat (5404319552844595 # 4503599627370496);
     F64.PyFloat (5404319552844595 # 9007199254740992)] /\
  F64.dynamic_threshold (F64.filtered_samples F64.rounding_window)
  = Returns (F64.PyFloat (2026619832316723 # 1125899906842624)) /\
  F64.find_peaks F64.rounding_window
  = (Returns [(40, F64.PyFloat (8106479329266893 # 4503599627370496))],
     F64.rounding_window).
Proof. vm_compute. auto. Qed.

(** ** The filter with the numbers as stored *)

Lemma f64_smoothed_ints (sw : Z) (zs : list Z) :
  sw <> 0 ->
  F64.smoothed sw (map F64.PyInt zs)
  = F64.PyFloat (F64.round64 (inject_Z (py_sumZ zs) / inject_Z sw)).
Proof.
  intros Hsw. unfold F64.smoothed, F64.div_value.
  rewrite f64_py_sum_ints. unfold F64.py_truediv. cbn [F64.value].
  destruct (Qeq_bool (inject_Z sw) 0) eqn:E; [ | reflexivity ].
  apply Qeq_bool_eq in E. unfold Qeq in E. simpl in E. lia.
Qed.

(** C3 as the code has it: on a monitor with capacity [ws >= 0] and
    smoothing size [sw >= 1], the [k]-th [add_sample] call appends to the
    filtered sequence the mean, computed by Python as the float
    [sum(...) / smoothing_window], of the last [sw] raw values fed so far
    (its own included) when the raw buffer holds at least [sw] values at
    that moment, that is when [sw <= min k (ws + 1)], and the raw value
    itself otherwise, in particular in each of the first [sw - 1] calls;
    the front entry then leaves if the buffer is over capacity.  For
    [int] readings the mean is the exact arithmetic mean rounded to the
    nearest float. *)
Theorem f64_filtered_value_of_kth_append
        (sr ws sw : Z) (pre : list (Z * F64.num)) (now : Z) (x : F64.num) :
  0 <= ws -> 1 <= sw ->
  let m := F64.fed sr ws sw pre in
  let k := len pre + 1 in
  let history := map snd pre ++ [x] in
  let recent := lastn (Z.to_nat sw) history in
  exists v : F64.num,
    (if sw <=? Z.min k (ws + 1) then F64.py_mean recent = Returns v else v = x) /\
    F64.add_sample now x m = (Returns tt, F64.fed sr ws sw (pre ++ [(now, x)])) /\
    F64.filtered_samples (F64.fed sr ws sw (pre ++ [(now, x)])) =
      evicted (ws <? len (F64.filtered_samples m) + 1) (F64.filtered_samples m ++ [v]) /\
    (k < sw -> v = x) /\
    (sw <= Z.min k (ws + 1) ->
     forall zs, recent = map F64.PyInt zs ->
                v = F64.PyFloat (F64.round64 (arith_meanZ zs))).
Proof.
  intros Hws Hsw m k history recent.
  exists (F64.appended ws sw (map snd pre) x).
  assert (Hk : len (map snd pre) + 1 = k) by (unfold k, len; rewrite length_map; lia).
  assert (Hrec : sw <= Z.min k (ws + 1) -> len recent = sw).
  { intros H. unfold recent, history, len in *.
    rewrite length_lastn, length_app, length_map. cbn [length]. lia. }
  split; [ | split; [ | split; [ | split ] ] ].
  - unfold F64.appended. rewrite Hk.
    destruct (Z.leb_spec sw (Z.min k (ws + 1))) as [H | H]; [ | reflexivity ].
    unfold F64.py_mean. rewrite (Hrec H).
    rewrite f64_py_truediv_nonzero by lia. reflexivity.
  - apply f64_fed_snoc; lia.
  - apply f64_filtered_snoc; assumption.
  - intros Hlt. unfold F64.appended. rewrite Hk.
    destruct (Z.leb_spec sw (Z.min k (ws + 1))); [ lia | reflexivity ].
  - intros H zs Hzs. unfold F64.appended. rewrite Hk.
    destruct (Z.leb_spec sw (Z.min k (ws + 1))); [ | lia ].
    fold history. fold recent. rewrite Hzs, f64_smoothed_ints by lia.
    unfold arith_meanZ. do 4 f_equal.
    rewrite <- (Hrec H), Hzs. unfold len. rewrite length_map. reflexivity.
Qed.

Lemma f64_filtered_value_of_kth_append_witness :
  exists v : F64.num,
    (if 3 <=? Z.min (len (F64.readings [(0, 1); (10, 1)]) + 1) (10 + 1)
     then F64.py_mean
            (lastn (Z.to_nat 3)
                   (map snd (F64.readings [(0, 1); (10, 1)]) ++ [F64.PyInt 2]))
          = Returns v
     else v = F64.PyInt 2) /\
    F64.add_sample 20 (F64.PyInt 2) (F64.fed 100 10 3 (F64.readings [(0, 1); (10, 1)]))
    = (Returns tt,
       F64.fed 100 10 3 (F64.readings [(0, 1); (10, 1)] ++ [(20, F64.PyInt 2)])) /\
    F64.filtered_samples
      (F64.fed 100 10 3 (F64.readings [(0, 1); (10, 1)] ++ [(20, F64.PyInt 2)])) =
      evicted (10 <? len (F64.filtered_samples
                            (F64.fed 100 10 3 (F64.readings [(0, 1); (10, 1)]))) + 1)
              (F64.filtered_samples (F64.fed 100 10 3 (F64.readings [(0, 1); (10, 1)]))
               ++ [v]) /\
    (len (F64.readings [(0, 1); (10, 1)]) + 1 < 3 -> v = F64.PyInt 2) /\
    (3 <= Z.min (len (F64.readings [(0, 1); (10, 1)]) + 1) (10 + 1) ->
     forall zs,
       lastn (Z.to_nat 3) (map snd (F64.readings [(0, 1); (10, 1)]) ++ [F64.PyInt 2])
       = map F64.PyInt zs ->
       v = F64.PyFloat (F64.round64 (arith_meanZ zs))).
Proof.
  apply (f64_filtered_value_of_kth_append
           100 10 3 (F64.readings [(0, 1); (10, 1)]) 20 (F64.PyInt 2)); lia.
Defined.

(** C3 fails as stated: with capacity 1 and smoothing size 3 the third call
    has three raw values behind it, yet it appends the raw value 3, not the
    mean 1.0 of 0, 0 and 3.  And where a mean is appended it is the float
    Python computes: the mean of 1, 1 and 2 is stored as
    1.3333333333333333, which is not 4/3. *)
Lemma f64_filter_stays_raw_when_buffer_is_short :
  let pre := F64.readings [(0, 0); (1, 0)] in
  3 <= len pre + 1 /\
  F64.filtered_samples (F64.fed 100 1 3 pre) = [F64.PyInt 0] /\
  F64.filtered_samples (F64.fed 100 1 3 (pre ++ [(2, F64.PyInt 3)])) = [F64.PyInt 3] /\
  F64.py_mean (lastn 3 (map snd pre ++ [F64.PyInt 3])) = Returns (F64.PyFloat 1) /\
  ~ (F64.value (F64.PyInt 3) == F64.value (F64.PyFloat 1))%Q /\
  F64.filtered_samples (F64.fed 100 10 3 (F64.readings [(0, 1); (10, 1); (20, 2)]))
  = [F64.PyInt 1; F64.PyInt 1; F64.PyFloat (6004799503160661 # 4503599627370496)] /\
  ~ (6004799503160661 # 4503599627370496 == 4 # 3)%Q.
Proof.
  cbv zeta. split; [ vm_compute; discriminate | ].
  split; [ vm_compute; reflexivity | ].
  split; [ vm_compute; reflexivity | ].
  split; [ vm_compute; reflexivity | ].
  split; [ intros H; vm_compute in H; discriminate H | ].
  split; [ vm_compute; reflexivity | ].
  intros H. vm_compute in H. discriminate H.
Qed.

(** ** The rate [calculate_heart_rate] returns *)

Lemma f64_sixty_thousand : F64.round64 (inject_Z 60000) = inject_Z 60000.
Proof. vm_compute. reflexivity. Qed.

Lemma f64_rate_div (avg : Q) :
  ~ (avg == 0)%Q ->
  F64.py_truediv (F64.PyInt 60000) (F64.PyFloat avg)
  = Returns (F64.PyFloat (F64.round64 (inject_Z 60000 / avg))).
Proof.
  intros Hnz. unfold F64.py_truediv. cbn [F64.value F64.to_float].
  destruct (Qeq_bool avg 0) eqn:E.
  - apply Qeq_bool_eq in E. contradiction.
  - rewrite f64_sixty_thousand. reflexivity.
Qed.

(** C4: whenever [find_peaks] returns at least 2 peaks, the outcome of
    [calculate_heart_rate] is that of the division of 60000 by the mean of
    the [ticks_diff] differences between consecutive peaks' timestamps, the
    mean being the float [sum(intervals) / len(intervals)], that is the
    exact mean rounded, and the rate the float quotient, a number whenever
    that mean is not zero; with peaks at 0, 1000 and 2000 ms the result is
    the float 60.0. *)
Theorem f64_heart_rate_is_60000_over_mean_interval
        (m : F64.HeartRateMonitor) (peaks : list (Z * F64.num)) :
  fst (F64.find_peaks m) = Returns peaks ->
  (2 <= length peaks)%nat ->
  let intervals := consecutive_diffs (map fst peaks) in
  let average_interval := F64.PyFloat (F64.round64 (arith_meanZ intervals)) in
  F64.py_truediv (F64.PyInt (py_sumZ intervals)) (F64.PyInt (len intervals))
  = Returns average_interval /\
  F64.calculate_heart_rate m =
    (match F64.py_truediv (F64.PyInt 60000) average_interval with
     | Returns bpm => Returns (Some bpm)
     | Raises e => Raises e
     end, m) /\
  (~ (F64.value average_interval == 0)%Q ->
   F64.calculate_heart_rate m =
   (Returns (Some (F64.PyFloat
                     (F64.round64 (inject_Z 60000 / F64.value average_interval)))), m)) /\
  (map fst peaks = [0; 1000; 2000] ->
   F64.calculate_heart_rate m = (Returns (Some (F64.PyFloat (60 # 1))), m)).
Proof.
  intros Hp Hlen intervals avg.
  destruct (f64_calculate_heart_rate_eq m peaks Hp Hlen) as [Havg Heq].
  fold intervals in Havg, Heq. fold avg in Havg, Heq.
  split; [ exact Havg | split; [ exact Heq | split ] ].
  - intros Hnz. rewrite Heq. unfold avg in *. cbn [F64.value] in *.
    rewrite f64_rate_div by exact Hnz. reflexivity.
  - intros Hts. rewrite Heq. unfold avg, intervals. rewrite Hts.
    vm_compute. reflexivity.
Qed.

Lemma f64_heart_rate_is_60000_over_mean_interval_witness :
  F64.calculate_heart_rate F64.steady_window
  = (Returns (Some (F64.PyFloat (60 # 1))), F64.steady_window).
Proof.
  apply (proj2 (proj2 (proj2 (f64_heart_rate_is_60000_over_mean_interval
                                F64.steady_window
                                [(0, F64.PyFloat (10 # 1)); (1000, F64.PyFloat (10 # 1));
                                 (2000, F64.PyFloat (10 # 1))]
                                ltac:(vm_compute; reflexivity)
                                (le_S _ _ (le_n 2)))))).
  reflexivity.
Defined.

(** ** The estimate across a wrap of the clock *)

Lemma f64_mean_interval_telescoped (ts times : list Z) :
  (2 <= length ts)%nat ->
  ts = map (fun t => t mod TICKS_PERIOD) times ->
  small_steps times ->
  arith_meanZ (consecutive_diffs ts)
  = (inject_Z (last times 0 - hd 0 times)%Z / inject_Z (len ts - 1)%Z)%Q.
Proof.
  intros Hlen Htimes Hsmall.
  assert (Hcount : length times = length ts).
  { apply (f_equal (@length Z)) in Htimes. rewrite !length_map in Htimes. lia. }
  unfold arith_meanZ. rewrite Htimes, consecutive_diffs_mod.
  rewrite (consecutive_diffs_telescope _ Hsmall).
  unfold len. rewrite length_consecutive_diffs, length_map, Hcount.
  do 2 f_equal. lia.
Qed.

Lemma f64_round64_opp (q : Q) : F64.round64 (- q) = (- F64.round64 q)%Q.
Proof.
  destruct q as [[ | p | p ] d].
  - reflexivity.
  - reflexivity.
  - change (F64.round_pos (- (Z.neg p # d)) = - - F64.round_pos (- (Z.neg p # d)))%Q.
    generalize (F64.round_pos (- (Z.neg p # d))). intros [n e].
    unfold Qopp. cbn [Qnum Qden]. rewrite Z.opp_involutive. reflexivity.
Qed.

Lemma f64_least_float : (0 < F64.round64 (F64.pow2 (-1074)))%Q.
Proof. vm_compute. reflexivity. Qed.

(** A quotient of [int]s that is not too small does not round to zero. *)
Lemma f64_quotient_nonzero (span count : Z) :
  span <> 0 -> 0 < count <= 2 ^ 1074 ->
  ~ (F64.round64 (inject_Z span / inject_Z count) == 0)%Q.
Proof.
  intros Hs [Hc Hb].
  assert (Hk : (0 < inject_Z count)%Q)
    by (change 0%Q with (inject_Z 0); rewrite <- Zlt_Qlt; exact Hc).
  assert (Hone : (F64.pow2 (-1074) * inject_Z count <= 1)%Q).
  { apply Qle_trans with (y := (F64.pow2 (-1074) * inject_Z (2 ^ 1074))%Q).
    - apply Qmult_le_l; [ apply f64_pow2_pos | rewrite <- Zle_Qle; exact Hb ].
    - rewrite (f64_pow2_of_Z 1074) by lia. rewrite <- f64_pow2_plus.
      apply Qle_refl. }
  assert (Hpos : forall s : Z, 0 < s ->
            (0 < F64.round64 (inject_Z s / inject_Z count))%Q).
  { intros s Hs0.
    apply Qlt_le_trans with (y := F64.round64 (F64.pow2 (-1074)));
      [ exact f64_least_float | ].
    apply f64_round64_mono. apply Qle_shift_div_l; [ exact Hk | ].
    apply Qle_trans with (y := 1%Q); [ exact Hone | ].
    change 1%Q with (inject_Z 1). rewrite <- Zle_Qle. lia. }
  destruct (Z.lt_trichotomy span 0) as [Hneg | [Hz | Hp]]; [ | lia | ].
  - specialize (Hpos (- span) ltac:(lia)).
    assert (E : (inject_Z (- span) / inject_Z count
                 == - (inject_Z span / inject_Z count))%Q).
    { rewrite inject_Z_opp. unfold Qdiv. ring. }
    rewrite (f64_round64_proper _ _ E), f64_round64_opp in Hpos.
    intros H. rewrite H in Hpos. revert Hpos. apply Qlt_irrefl.
  - specialize (Hpos span Hp). intros H. rewrite H in Hpos.
    revert Hpos. apply Qlt_irrefl.
Qed.

(** X5: the intervals telescope, also across a wrap of the clock.  When the
    peak timestamps are the readings, modulo the period of [ticks_ms], of
    times whose consecutive differences fit the range of [ticks_diff], the
    mean interval is the float nearest to (last - first) / (n - 1) for
    [n >= 2] peaks, so [calculate_heart_rate] raises [ZeroDivisionError]
    when the first and the last peak have the same time and otherwise
    returns the float quotient of 60000 by that mean, not negative when the
    last peak is the later one. *)
Theorem f64_heart_rate_from_first_and_last_peak
        (m : F64.HeartRateMonitor) (peaks : list (Z * F64.num)) (times : list Z) :
  fst (F64.find_peaks m) = Returns peaks ->
  (2 <= length peaks)%nat ->
  map fst peaks = map (fun t => t mod TICKS_PERIOD) times ->
  small_steps times ->
  let first := hd 0 times in
  let final := last times 0 in
  let average_interval :=
    F64.round64 (inject_Z (final - first) / inject_Z (len peaks - 1)) in
  F64.py_truediv (F64.PyInt (py_sumZ (consecutive_diffs (map fst peaks))))
                 (F64.PyInt (len (consecutive_diffs (map fst peaks))))
  = Returns (F64.PyFloat average_interval) /\
  (final = first -> F64.calculate_heart_rate m = (Raises ZeroDivisionError, m)) /\
  (final <> first -> len peaks - 1 <= 2 ^ 1074 ->
   F64.calculate_heart_rate m
   = (Returns (Some (F64.PyFloat (F64.round64 (inject_Z 60000 / average_interval)))), m) /\
   (first < final -> (0 <= F64.round64 (inject_Z 60000 / average_interval))%Q)).
Proof.
  intros Hp Hlen Htimes Hsmall first final avg.
  destruct (f64_calculate_heart_rate_eq m peaks Hp Hlen) as [Havg Heq].
  cbv zeta in Havg, Heq.
  assert (Hmean : arith_meanZ (consecutive_diffs (map fst peaks))
                  = (inject_Z (final - first) / inject_Z (len peaks - 1))%Q).
  { rewrite (f64_mean_interval_telescoped (map fst peaks) times).
    - unfold len. rewrite length_map. reflexivity.
    - rewrite length_map. exact Hlen.
    - exact Htimes.
    - exact Hsmall. }
  rewrite Hmean in Havg, Heq. fold avg in Havg, Heq.
  assert (Hn : 0 < len peaks - 1) by (unfold len; lia).
  split; [ exact Havg | split ].
  - intros Hz. rewrite Heq.
    rewrite f64_py_truediv_by_zero; [ reflexivity | ].
    cbn [F64.value]. unfold avg. rewrite Hz, Z.sub_diag. reflexivity.
  - intros Hnz Hbound.
    assert (Havg0 : ~ (avg == 0)%Q)
      by (apply f64_quotient_nonzero; lia).
    split.
    + rewrite Heq, f64_rate_div by exact Havg0. reflexivity.
    + intros Hlt. apply (proj1 (f64_round64_sign _)).
      assert (Hge : (0 <= avg)%Q).
      { apply (proj1 (f64_round64_sign _)).
        apply Qle_shift_div_l.
        - change 0%Q with (inject_Z 0). rewrite <- Zlt_Qlt. exact Hn.
        - rewrite Qmult_0_l. change 0%Q with (inject_Z 0). rewrite <- Zle_Qle. lia. }
      apply Qle_shift_div_l.
      * destruct (Qle_lt_or_eq _ _ Hge) as [H | H]; [ exact H | ].
        exfalso. apply Havg0. symmetry. exact H.
      * rewrite Qmult_0_l. discriminate.
Qed.

Lemma f64_heart_rate_from_first_and_last_peak_witness :
  F64.calculate_heart_rate F64.wrapping_window
  = (Returns (Some (F64.PyFloat
                      (F64.round64
                         (inject_Z 60000
                          / F64.round64 (inject_Z (1073743324 - 1073741324)
                                         / inject_Z (3 - 1)))))),
     F64.wrapping_window).
Proof.
  destruct (f64_heart_rate_from_first_and_last_peak
              F64.wrapping_window
              [(1073741324, F64.PyFloat (10 # 1)); (500, F64.PyFloat (10 # 1));
               (1500, F64.PyFloat (10 # 1))]
              [1073741324; 1073742324; 1073743324]
              ltac:(vm_compute; reflexivity) (le_S _ _ (le_n 2)) eq_refl)
    as (_ & _ & H).
  - cbn. change (TICKS_PERIOD / 2) with 536870912. lia.
  - apply H; [ cbn; lia | ].
    change (len [(1073741324, F64.PyFloat (10 # 1)); (500, F64.PyFloat (10 # 1));
                 (1500, F64.PyFloat (10 # 1))] - 1) with 2.
    apply Z.pow_le_mono_r with (a := 2) (b := 1) (c := 1074); lia.
Defined.

(** ** A negative smoothing size *)

(** X13: a negative [smoothing_window] is taken as it comes: the guard of
    the filter always holds, the slice drops the first [-smoothing_window]
    buffered values instead of keeping the last ones, and the sum of the
    rest is divided by the negative size.  [add_sample] returns, and while
    the buffer holds at most [-smoothing_window] values the filtered value
    it appends is a float zero whatever the reading. *)
Theorem f64_negative_smoothing_window_is_accepted
        (m : F64.HeartRateMonitor) (now : Z) (x : F64.num) :
  F64.smoothing_window m < 0 ->
  let n := Z.to_nat (- F64.smoothing_window m) in
  exists v : F64.num,
    F64.py_truediv (F64.py_sum (skipn n (F64.samples m ++ [x])))
                   (F64.PyInt (F64.smoothing_window m))
    = Returns v /\
    fst (F64.add_sample now x m) = Returns tt /\
    F64.filtered_samples (snd (F64.add_sample now x m)) =
      evicted (F64.window_size m <? len (F64.samples m) + 1)
              (F64.filtered_samples m ++ [v]) /\
    ((length (F64.samples m) < n)%nat -> v = F64.PyFloat 0).
Proof.
  intros Hsw n.
  exists (F64.PyFloat (F64.div_value (F64.py_sum (skipn n (F64.samples m ++ [x])))
                                     (F64.PyInt (F64.smoothing_window m)))).
  assert (Hdiv : forall a, F64.py_truediv a (F64.PyInt (F64.smoothing_window m))
                           = Returns (F64.PyFloat
                                        (F64.div_value a (F64.PyInt (F64.smoothing_window m)))))
    by (intros a; apply f64_py_truediv_nonzero; lia).
  split; [ apply Hdiv | ].
  rewrite f64_add_sample_eq. unfold F64.filter_value.
  replace (F64.smoothing_window m <=? len (F64.samples m) + 1) with true
    by (symmetry; apply Z.leb_le; pose proof (len_nonneg (F64.samples m)); lia).
  rewrite Hdiv. unfold py_slice_from.
  replace (- F64.smoothing_window m <? 0) with false by (symmetry; apply Z.ltb_ge; lia).
  fold n. cbn [fst snd F64.filtered_samples].
  split; [ reflexivity | split; [ reflexivity | ] ].
  intros Hshort.
  rewrite skipn_all2 by (rewrite length_app; cbn [length]; lia).
  unfold F64.div_value. rewrite Hdiv. cbn [F64.value].
  unfold F64.div_value, F64.py_truediv, F64.py_sum. cbn [fold_left F64.value].
  destruct (Qeq_bool (inject_Z (F64.smoothing_window m)) 0); reflexivity.
Qed.

Lemma f64_negative_smoothing_window_is_accepted_witness :
  exists v : F64.num,
    F64.py_truediv (F64.py_sum (skipn (Z.to_nat (- -2)) ([] ++ [F64.PyInt 9])))
                   (F64.PyInt (-2))
    = Returns v /\
    fst (F64.add_sample 7 (F64.PyInt 9) (F64.init 100 10 (-2))) = Returns tt /\
    F64.filtered_samples (snd (F64.add_sample 7 (F64.PyInt 9) (F64.init 100 10 (-2)))) =
      evicted (10 <? len (@nil F64.num) + 1) ([] ++ [v]) /\
    ((length (@nil F64.num) < Z.to_nat (- -2))%nat -> v = F64.PyFloat 0).
Proof.
  apply (f64_negative_smoothing_window_is_accepted
           (F64.init 100 10 (-2)) 7 (F64.PyInt 9) ltac:(cbn; lia)).
Defined.

(** ** The filtered sequence of a run *)

Lemma f64_trace_from_snoc (ws sw : Z) (xs : list F64.num) :
  forall (pre : list F64.num) (x : F64.num),
    F64.trace_from ws sw pre (xs ++ [x])
    = F64.trace_from ws sw pre xs ++ [F64.appended ws sw (pre ++ xs) x].
Proof.
  induction xs as [ | a xs IH ]; intros pre x; cbn [app F64.trace_from].
  - rewrite app_nil_r. reflexivity.
  - rewrite IH, <- app_assoc. reflexivity.
Qed.

Lemma f64_length_trace_from (ws sw : Z) (xs : list F64.num) :
  forall pre, length (F64.trace_from ws sw pre xs) = length xs.
Proof.
  induction xs as [ | a xs IH ]; intros pre; cbn [F64.trace_from length].
  - reflexivity.
  - rewrite IH. reflexivity.
Qed.

Lemma f64_nth_trace_from (ws sw : Z) (xs : list F64.num) (d : F64.num) :
  forall (pre : list F64.num) (k : nat),
    (k < length xs)%nat ->
    nth k (F64.trace_from ws sw pre xs) d
    = F64.appended ws sw (pre ++ firstn k xs) (nth k xs d).
Proof.
  induction xs as [ | a xs IH ]; intros pre k Hk; [ simpl in Hk; lia | ].
  destruct k as [ | k ]; cbn [F64.trace_from nth firstn].
  - rewrite app_nil_r. reflexivity.
  - rewrite IH by (simpl in Hk; lia). rewrite <- app_assoc. reflexivity.
Qed.

(** The filtered sequence is the tail of what the calls appended. *)
Lemma f64_filtered_fed (sr ws sw : Z) (inputs : list (Z * F64.num)) :
  0 <= ws -> 1 <= sw ->
  F64.filtered_samples (F64.fed sr ws sw inputs)
  = lastn (Z.to_nat ws) (F64.trace_from ws sw [] (map snd inputs)).
Proof.
  intros Hws Hsw. induction inputs as [ | [now x] pre IH ] using rev_ind.
  - reflexivity.
  - rewrite f64_filtered_snoc by assumption. rewrite IH.
    rewrite map_app. cbn [map snd]. rewrite f64_trace_from_snoc, lastn_snoc.
    rewrite Z2Nat.id by exact Hws. reflexivity.
Qed.

Lemma f64_firstn_snoc_nth {A : Type} (l : list A) (d : A) :
  forall k, (k < length l)%nat -> firstn k l ++ [nth k l d] = firstn (S k) l.
Proof.
  induction l as [ | a l IH ]; intros k Hk; [ simpl in Hk; lia | ].
  destruct k as [ | k ]; cbn [firstn nth app].
  - reflexivity.
  - f_equal. apply IH. simpl in Hk. lia.
Qed.

Lemma f64_skipn_cons_nth {A : Type} (l : list A) (d : A) :
  forall a, (a < length l)%nat -> skipn a l = nth a l d :: skipn (S a) l.
Proof.
  induction l as [ | x l IH ]; intros a Ha; [ simpl in Ha; lia | ].
  destruct a as [ | a ]; [ reflexivity | ].
  cbn [skipn nth]. apply IH. simpl in Ha. lia.
Qed.

(** The last [w] of the first [k] readings. *)
Lemma f64_window_eq {A : Type} (w k : nat) (l : list A) :
  (w <= k <= length l)%nat ->
  lastn w (firstn k l) = firstn w (skipn (k - w) l).
Proof.
  intros H. unfold lastn. rewrite length_firstn, skipn_firstn_comm.
  replace (Nat.min k (length l)) with k by lia.
  f_equal. lia.
Qed.

Lemma f64_in_window {A : Type} (w a : nat) (l : list A) (x : A) :
  In x (firstn w (skipn a l)) -> In x l.
Proof.
  intros H.
  rewrite <- (firstn_skipn a l). apply in_or_app. right.
  rewrite <- (firstn_skipn w (skipn a l)). apply in_or_app. left. exact H.
Qed.

Lemma f64_forall_window {A : Type} (P : A -> Prop) (w a : nat) (l : list A) :
  Forall P l -> Forall P (firstn w (skipn a l)).
Proof.
  rewrite !Forall_forall. intros H x Hx. apply H. eapply f64_in_window. exact Hx.
Qed.

(** The value at position [j] of the trace. *)
Lemma f64_nth_trace (ws sw : Z) (xs : list F64.num) (j : nat) :
  1 <= sw ->
  (j < length xs)%nat ->
  nth j (F64.trace_from ws sw [] xs) (F64.PyInt 0)
  = if sw <=? Z.min (Z.of_nat j + 1) (ws + 1)
    then F64.smoothed sw (firstn (Z.to_nat sw) (skipn (S j - Z.to_nat sw) xs))
    else nth j xs (F64.PyInt 0).
Proof.
  intros Hsw Hj. rewrite f64_nth_trace_from by exact Hj. cbn [app].
  unfold F64.appended.
  replace (len (firstn j xs)) with (Z.of_nat j)
    by (unfold len; rewrite length_firstn; lia).
  destruct (Z.leb_spec sw (Z.min (Z.of_nat j + 1) (ws + 1))) as [H | H];
    [ | reflexivity ].
  rewrite f64_firstn_snoc_nth by exact Hj.
  rewrite f64_window_eq by lia. reflexivity.
Qed.

(** ** Means of readings in order *)

Lemma f64_one : F64.round64 (inject_Z 1) = inject_Z 1.
Proof. vm_compute. reflexivity. Qed.

Lemma f64_divisor_pos (sw : Z) : 1 <= sw -> (0 < F64.round64 (inject_Z sw))%Q.
Proof.
  intros H. apply Qlt_le_trans with (y := F64.round64 (inject_Z 1)).
  - rewrite f64_one. reflexivity.
  - apply f64_round64_mono. rewrite <- Zle_Qle. exact H.
Qed.

Lemma f64_ints_image (l : list F64.num) :
  Forall (fun a => F64.is_int a = true) l -> exists zs, l = map F64.PyInt zs.
Proof.
  induction 1 as [ | a l Ha _ [zs ->] ].
  - exists []. reflexivity.
  - destruct a as [z | q]; [ | discriminate Ha ]. exists (z :: zs). reflexivity.
Qed.

Lemma f64_sum_ints_mono (zs zs' : list Z) :
  Forall2 F64.le (map F64.PyInt zs) (map F64.PyInt zs') ->
  py_sumZ zs <= py_sumZ zs'.
Proof.
  revert zs'. induction zs as [ | z zs IH ]; intros zs' H.
  - destruct zs'; [ lia | inversion H ].
  - destruct zs' as [ | z' zs' ]; [ inversion H | ].
    cbn [map] in H. inversion H as [ | ? ? ? ? Hz Hrest ]; subst.
    unfold py_sumZ. cbn [fold_left]. rewrite !py_sumZ_from.
    specialize (IH zs' Hrest).
    unfold F64.le in Hz. cbn [F64.value] in Hz. rewrite <- Zle_Qle in Hz. lia.
Qed.

Lemma f64_sum_floats_mono (l l' : list F64.num) :
  Forall2 F64.le l l' ->
  Forall (fun a => F64.is_int a = false) l ->
  Forall (fun a => F64.is_int a = false) l' ->
  forall a a' : F64.num,
    (F64.to_float a <= F64.to_float a')%Q ->
    (F64.to_float (fold_left F64.py_add l a)
     <= F64.to_float (fold_left F64.py_add l' a'))%Q /\
    (l <> [] ->
     F64.is_int (fold_left F64.py_add l a) = false /\
     F64.is_int (fold_left F64.py_add l' a') = false).
Proof.
  induction 1 as [ | x x' l l' Hx Hrest IH ]; intros Hl Hl' a a' Ha.
  - cbn [fold_left]. split; [ exact Ha | congruence ].
  - inversion Hl as [ | ? ? Hfx Hfl ]; subst.
    inversion Hl' as [ | ? ? Hfx' Hfl' ]; subst.
    destruct x as [z | q]; [ discriminate Hfx | ].
    destruct x' as [z' | q']; [ discriminate Hfx' | ].
    cbn [fold_left].
    assert (Hstep : (F64.to_float (F64.py_add a (F64.PyFloat q))
                     <= F64.to_float (F64.py_add a' (F64.PyFloat q')))%Q).
    { unfold F64.le in Hx. cbn [F64.value] in Hx.
      destruct a, a'; cbn [F64.py_add F64.to_float] in *;
        apply f64_round64_mono; lra. }
    destruct (IH Hfl Hfl' _ _ Hstep) as [Hle Hkind].
    split; [ exact Hle | intros _ ].
    destruct l as [ | y l ].
    + inversion Hrest; subst. cbn [fold_left].
      destruct a, a'; split; reflexivity.
    + apply Hkind. discriminate.
Qed.

(** The mean Python computes is monotone in the readings, for readings of
    one kind. *)
Lemma f64_smoothed_mono (sw : Z) (l l' : list F64.num) :
  1 <= sw ->
  Forall2 F64.le l l' ->
  (Forall (fun a => F64.is_int a = true) l /\ Forall (fun a => F64.is_int a = true) l') \/
  (Forall (fun a => F64.is_int a = false) l /\ Forall (fun a => F64.is_int a = false) l') ->
  F64.le (F64.smoothed sw l) (F64.smoothed sw l').
Proof.
  intros Hsw Hle [[Hi Hi'] | [Hf Hf']].
  - destruct (f64_ints_image l Hi) as [zs ->].
    destruct (f64_ints_image l' Hi') as [zs' ->].
    rewrite !f64_smoothed_ints by lia.
    unfold F64.le. cbn [F64.value]. apply f64_round64_mono.
    apply Qmult_le_r.
    + apply Qinv_lt_0_compat. change 0%Q with (inject_Z 0). rewrite <- Zlt_Qlt. lia.
    + rewrite <- Zle_Qle. apply f64_sum_ints_mono. exact Hle.
  - destruct l as [ | x l ].
    + inversion Hle; subst. apply f64_le_refl.
    + destruct (f64_sum_floats_mono _ _ Hle Hf Hf' (F64.PyInt 0) (F64.PyInt 0))
        as [Hsum Hkind]; [ apply Qle_refl | ].
      destruct Hkind as [Hk Hk']; [ discriminate | ].
      unfold F64.smoothed, F64.div_value.
      rewrite !f64_py_truediv_nonzero by lia.
      unfold F64.le, F64.div_value, F64.py_truediv, F64.py_sum in *. cbn [F64.value].
      destruct (Qeq_bool (inject_Z sw) 0) eqn:E.
      { apply Qeq_bool_eq in E. unfold Qeq in E. simpl in E. lia. }
      destruct (fold_left F64.py_add (x :: l) (F64.PyInt 0)) as [z | s];
        [ discriminate Hk | ].
      destruct (fold_left F64.py_add l' (F64.PyInt 0)) as [z' | s'];
        [ discriminate Hk' | ].
      cbn [F64.value F64.to_float] in *.
      apply f64_round64_mono. apply Qmult_le_r; [ | exact Hsum ].
      apply Qinv_lt_0_compat. apply f64_divisor_pos. exact Hsw.
Qed.

Lemma f64_Forall2_flip {A : Type} (R : A -> A -> Prop) (l l' : list A) :
  Forall2 (fun a b => R b a) l l' -> Forall2 R l' l.
Proof. induction 1; constructor; assumption. Qed.

Lemma f64_smoothed_antimono (sw : Z) (l l' : list F64.num) :
  1 <= sw ->
  Forall2 (fun a b => F64.le b a) l l' ->
  (Forall (fun a => F64.is_int a = true) l /\ Forall (fun a => F64.is_int a = true) l') \/
  (Forall (fun a => F64.is_int a = false) l /\ Forall (fun a => F64.is_int a = false) l') ->
  F64.le (F64.smoothed sw l') (F64.smoothed sw l).
Proof.
  intros Hsw Hle Hkind. apply f64_smoothed_mono; [ exact Hsw | | tauto ].
  apply f64_Forall2_flip. exact Hle.
Qed.

Section Runs.

Variable R : F64.num -> F64.num -> Prop.

Hypothesis R_smoothed :
  forall (sw : Z) (l l' : list F64.num),
    1 <= sw ->
    Forall2 R l l' ->
    (Forall (fun a => F64.is_int a = true) l /\ Forall (fun a => F64.is_int a = true) l') \/
    (Forall (fun a => F64.is_int a = false) l /\ Forall (fun a => F64.is_int a = false) l') ->
    R (F64.smoothed sw l) (F64.smoothed sw l').

(** Two windows one reading apart are related position by position. *)
Lemma f64_windows_related (xs : list F64.num) :
  F64.adjacent R xs ->
  forall (w a : nat),
    (a + 1 + w <= length xs)%nat ->
    Forall2 R (firstn w (skipn a xs)) (firstn w (skipn (S a) xs)).
Proof.
  intros Hadj. induction w as [ | w IH ]; intros a Ha.
  - constructor.
  - rewrite (f64_skipn_cons_nth xs (F64.PyInt 0) a) by lia.
    rewrite (f64_skipn_cons_nth xs (F64.PyInt 0) (S a)) by lia.
    cbn [firstn]. constructor.
    + apply Hadj. lia.
    + rewrite <- (f64_skipn_cons_nth xs (F64.PyInt 0) (S a)) by lia.
      apply IH. lia.
Qed.

(** Consecutive values of the trace keep the order of the readings, except
    possibly where the filter passes from readings to means. *)
Lemma f64_trace_adjacent (ws sw : Z) (xs : list F64.num) :
  1 <= sw ->
  F64.homogeneous xs ->
  F64.adjacent R xs ->
  forall j : nat,
    (S j < length xs)%nat ->
    Z.of_nat j + 2 <> sw \/ ws + 1 < sw \/
    R (nth j xs (F64.PyInt 0)) (F64.smoothed sw (firstn (Z.to_nat sw) xs)) ->
    R (nth j (F64.trace_from ws sw [] xs) (F64.PyInt 0))
      (nth (S j) (F64.trace_from ws sw [] xs) (F64.PyInt 0)).
Proof.
  intros Hsw Hhom Hadj j Hj Hjunction.
  rewrite !f64_nth_trace by lia.
  destruct (Z.leb_spec sw (Z.min (Z.of_nat j + 1) (ws + 1))) as [H1 | H1];
    destruct (Z.leb_spec sw (Z.min (Z.of_nat (S j) + 1) (ws + 1))) as [H2 | H2].
  - replace (S (S j) - Z.to_nat sw)%nat with (S (S j - Z.to_nat sw)) by lia.
    apply R_smoothed; [ exact Hsw | apply f64_windows_related; [ exact Hadj | lia ] | ].
    destruct Hhom as [H | H]; [ left | right ]; split; apply f64_forall_window; exact H.
  - lia.
  - assert (Hsw' : Z.of_nat j + 2 = sw) by lia.
    destruct Hjunction as [H | [H | H]]; [ lia | lia | ].
    replace (S (S j) - Z.to_nat sw)%nat with 0%nat by lia.
    exact H.
  - apply Hadj. exact Hj.
Qed.

End Runs.

(** ** No peak on a sequence in order *)

Lemma f64_no_peaks (m : F64.HeartRateMonitor) :
  0 <= F64.window_size m ->
  (forall th i, (1 <= i)%nat -> (S i < length (F64.filtered_samples m))%nat ->
                F64.is_peak_at th (F64.filtered_samples m) i = false) ->
  F64.find_peaks m = (Returns [], m).
Proof.
  intros Hws Hno.
  destruct (Nat.lt_ge_cases (length (F64.filtered_samples m)) 3) as [Hlt | Hge].
  - unfold F64.find_peaks, F64.bind, F64.get, F64.ret.
    replace (len (F64.filtered_samples m) <? 3) with true; [ reflexivity | ].
    symmetry. apply Z.ltb_lt. unfold len. lia.
  - destruct (f64_dynamic_threshold_spec
                (py_slice_from (- F64.window_size m) (F64.filtered_samples m)))
      as (mn & mx & _ & _ & Hth & _).
    { apply recent_nonempty; [ exact Hws | ].
      destruct (F64.filtered_samples m); [ simpl in Hge; lia | congruence ]. }
    rewrite (f64_find_peaks_eq m _ Hge Hth).
    + rewrite filter_none; [ reflexivity | ].
      intros i Hi. apply in_seq in Hi. apply Hno; lia.
    + intros i H1 H2 Hp. rewrite Hno in Hp by lia. discriminate Hp.
Qed.

Lemma f64_no_peaks_nondecreasing (m : F64.HeartRateMonitor) :
  0 <= F64.window_size m ->
  (forall i, (1 <= i)%nat -> (S i < length (F64.filtered_samples m))%nat ->
             F64.le (nth i (F64.filtered_samples m) (F64.PyInt 0))
                    (nth (S i) (F64.filtered_samples m) (F64.PyInt 0))) ->
  F64.find_peaks m = (Returns [], m).
Proof.
  intros Hws Hup. apply f64_no_peaks; [ exact Hws | ].
  intros th i H1 H2. unfold F64.is_peak_at.
  apply andb_false_intro2. replace (i + 1)%nat with (S i) by lia.
  apply f64_py_lt_false_iff. apply Hup; assumption.
Qed.

Lemma f64_no_peaks_nonincreasing (m : F64.HeartRateMonitor) :
  0 <= F64.window_size m ->
  (forall i, (1 <= i)%nat -> (S i < length (F64.filtered_samples m))%nat ->
             F64.le (nth i (F64.filtered_samples m) (F64.PyInt 0))
                    (nth (i - 1) (F64.filtered_samples m) (F64.PyInt 0))) ->
  F64.find_peaks m = (Returns [], m).
Proof.
  intros Hws Hdown. apply f64_no_peaks; [ exact Hws | ].
  intros th i H1 H2. unfold F64.is_peak_at.
  apply andb_false_intro1. apply andb_false_intro2.
  apply f64_py_lt_false_iff. apply Hdown; assumption.
Qed.

Lemma f64_nth_filtered_fed (sr ws sw : Z) (inputs : list (Z * F64.num)) (i : nat) :
  0 <= ws -> 1 <= sw ->
  length (F64.filtered_samples (F64.fed sr ws sw inputs))
  = Nat.min (Z.to_nat ws) (length inputs) /\
  nth i (F64.filtered_samples (F64.fed sr ws sw inputs)) (F64.PyInt 0)
  = nth (length inputs - Z.to_nat ws + i)
        (F64.trace_from ws sw [] (map snd inputs)) (F64.PyInt 0).
Proof.
  intros Hws Hsw. rewrite f64_filtered_fed by assumption.
  rewrite length_lastn, f64_length_trace_from, length_map.
  split; [ reflexivity | ].
  unfold lastn. rewrite nth_skipn, f64_length_trace_from, length_map. reflexivity.
Qed.

(** Readings that never fall give no peak, unless the step from the last
    reading passed as it is to the first mean lies inside the window and
    goes down. *)
Lemma f64_no_peaks_on_rising_run (sr ws sw : Z) (inputs : list (Z * F64.num)) :
  0 <= ws -> 1 <= sw ->
  F64.homogeneous (map snd inputs) ->
  F64.nondecreasing (map snd inputs) ->
  len inputs < sw \/ ws + 1 < sw \/ sw <= 2 \/ ws + sw <= len inputs + 2 \/
  F64.le (nth (Z.to_nat (sw - 2)) (map snd inputs) (F64.PyInt 0))
         (F64.smoothed sw (firstn (Z.to_nat sw) (map snd inputs))) ->
  F64.find_peaks (F64.fed sr ws sw inputs) = (Returns [], F64.fed sr ws sw inputs).
Proof.
  intros Hws Hsw Hhom Hup Hcond.
  destruct (f64_fed_shape sr ws sw inputs Hws) as (_ & _ & Hw & _); [ lia | ].
  apply f64_no_peaks_nondecreasing; [ lia | ].
  intros i H1 H2.
  destruct (f64_nth_filtered_fed sr ws sw inputs i Hws Hsw) as [Hlen ->].
  destruct (f64_nth_filtered_fed sr ws sw inputs (S i) Hws Hsw) as [_ ->].
  rewrite Hlen in H2.
  replace (length inputs - Z.to_nat ws + S i)%nat
    with (S (length inputs - Z.to_nat ws + i)) by lia.
  apply (f64_trace_adjacent F64.le f64_smoothed_mono ws sw (map snd inputs) Hsw Hhom Hup).
  - rewrite length_map. lia.
  - destruct (Z.eq_dec (Z.of_nat (length inputs - Z.to_nat ws + i) + 2) sw)
      as [E | E]; [ | left; exact E ].
    unfold len in Hcond.
    destruct Hcond as [H | [H | [H | [H | H]]]]; try lia.
    right. right.
    replace (length inputs - Z.to_nat ws + i)%nat with (Z.to_nat (sw - 2)) by lia.
    exact H.
Qed.

(** Readings that never rise give no peak, unless the step from the last
    reading passed as it is to the first mean lies inside the window and
    goes up. *)
Lemma f64_no_peaks_on_falling_run (sr ws sw : Z) (inputs : list (Z * F64.num)) :
  0 <= ws -> 1 <= sw ->
  F64.homogeneous (map snd inputs) ->
  F64.nonincreasing (map snd inputs) ->
  len inputs <= sw \/ ws + 1 < sw \/ sw = 1 \/ ws + sw <= len inputs + 1 \/
  F64.le (F64.smoothed sw (firstn (Z.to_nat sw) (map snd inputs)))
         (nth (Z.to_nat (sw - 2)) (map snd inputs) (F64.PyInt 0)) ->
  F64.find_peaks (F64.fed sr ws sw inputs) = (Returns [], F64.fed sr ws sw inputs).
Proof.
  intros Hws Hsw Hhom Hdown Hcond.
  destruct (f64_fed_shape sr ws sw inputs Hws) as (_ & _ & Hw & _); [ lia | ].
  apply f64_no_peaks_nonincreasing; [ lia | ].
  intros i H1 H2.
  destruct (f64_nth_filtered_fed sr ws sw inputs i Hws Hsw) as [Hlen ->].
  destruct (f64_nth_filtered_fed sr ws sw inputs (i - 1) Hws Hsw) as [_ ->].
  rewrite Hlen in H2.
  replace (length inputs - Z.to_nat ws + i)%nat
    with (S (length inputs - Z.to_nat ws + (i - 1))) by lia.
  apply (f64_trace_adjacent (fun a b => F64.le b a) f64_smoothed_antimono
                            ws sw (map snd inputs) Hsw Hhom Hdown).
  - rewrite length_map. lia.
  - destruct (Z.eq_dec (Z.of_nat (length inputs - Z.to_nat ws + (i - 1)) + 2) sw)
      as [E | E]; [ | left; exact E ].
    unfold len in Hcond.
    destruct Hcond as [H | [H | [H | [H | H]]]]; try lia.
    right. right.
    replace (length inputs - Z.to_nat ws + (i - 1))%nat with (Z.to_nat (sw - 2)) by lia.
    exact H.
Qed.

(** ** Constant readings *)

Lemma f64_py_sumZ_repeat (z : Z) (k : nat) : py_sumZ (repeat z k) = Z.of_nat k * z.
Proof.
  induction k as [ | k IH ]; [ reflexivity | ].
  cbn [repeat]. unfold py_sumZ. cbn [fold_left]. rewrite py_sumZ_from, IH. lia.
Qed.

(** The mean of [sw] copies of an [int] that is a float is that [int]. *)
Lemma f64_smoothed_constant (sw z : Z) (l : list F64.num) :
  1 <= sw -> Z.abs z < 2 ^ 53 ->
  Forall (eq (F64.PyInt z)) l -> length l = Z.to_nat sw ->
  exists q, F64.smoothed sw l = F64.PyFloat q /\ (q == inject_Z z)%Q.
Proof.
  intros Hsw Hz Hall Hlen.
  rewrite (Forall_eq_repeat Hall), Hlen, <- map_repeat.
  rewrite f64_smoothed_ints by lia. eexists. split; [ reflexivity | ].
  rewrite f64_py_sumZ_repeat, Z2Nat.id by lia.
  rewrite (f64_round64_proper _ (inject_Z z)).
  - apply f64_round64_int. exact Hz.
  - rewrite inject_Z_mult. field.
    intros H. unfold Qeq in H. simpl in H. lia.
Qed.

Lemma f64_in_lastn {A : Type} (n : nat) (l : list A) (x : A) :
  In x (lastn n l) -> In x l.
Proof.
  unfold lastn. intros H.
  rewrite <- (firstn_skipn (length l - n) l). apply in_or_app. right. exact H.
Qed.

(** With constant [int] readings every filtered value is that number. *)
Lemma f64_flat_int_filtered (sr ws sw z : Z) (inputs : list (Z * F64.num)) :
  0 <= ws -> 1 <= sw -> Z.abs z < 2 ^ 53 ->
  (forall p, In p inputs -> snd p = F64.PyInt z) ->
  forall y, In y (F64.filtered_samples (F64.fed sr ws sw inputs)) ->
            (F64.value y == inject_Z z)%Q /\ (F64.to_float y == inject_Z z)%Q.
Proof.
  intros Hws Hsw Hz Hc y Hy.
  assert (Hall : Forall (eq (F64.PyInt z)) (map snd inputs)).
  { apply Forall_forall. intros x Hx. apply in_map_iff in Hx.
    destruct Hx as (p & <- & Hp). symmetry. apply Hc. exact Hp. }
  rewrite f64_filtered_fed in Hy by assumption.
  apply f64_in_lastn in Hy.
  destruct (In_nth _ _ (F64.PyInt 0) Hy) as (k & Hk & <-).
  rewrite f64_length_trace_from in Hk.
  rewrite f64_nth_trace by assumption.
  destruct (Z.leb_spec sw (Z.min (Z.of_nat k + 1) (ws + 1))) as [H | H].
  - destruct (f64_smoothed_constant sw z
                (firstn (Z.to_nat sw) (skipn (S k - Z.to_nat sw) (map snd inputs))))
      as (q & -> & Hq); try assumption.
    + apply f64_forall_window. exact Hall.
    + rewrite length_firstn, length_skipn. lia.
    + cbn [F64.value F64.to_float]. split; exact Hq.
  - rewrite Forall_forall in Hall.
    rewrite <- (Hall (nth k (map snd inputs) (F64.PyInt 0))) by (apply nth_In; exact Hk).
    cbn [F64.value F64.to_float]. split; [ reflexivity | ].
    apply f64_round64_int. exact Hz.
Qed.

(** The threshold between a least and a greatest value that are one
    number is that number. *)
Lemma f64_threshold_flat (z : Z) (mn mx : F64.num) :
  Z.abs z < 2 ^ 53 ->
  (F64.value mn == inject_Z z)%Q /\ (F64.to_float mn == inject_Z z)%Q ->
  (F64.value mx == inject_Z z)%Q /\ (F64.to_float mx == inject_Z z)%Q ->
  (F64.value (F64.py_add mn (F64.py_mul (F64.py_sub mx mn) (F64.PyFloat (1 # 2))))
   == inject_Z z)%Q.
Proof.
  intros Hz [Vmn Fmn] [Vmx Fmx].
  assert (Hzero : forall q : Q, (q == 0)%Q -> F64.round64 q = 0%Q).
  { intros q Hq. rewrite (f64_round64_proper q 0 Hq). reflexivity. }
  assert (Hd : F64.to_float (F64.py_sub mx mn) = 0%Q).
  { destruct mx as [a | a], mn as [b | b]; cbn [F64.py_sub F64.to_float F64.value] in *.
    - assert (a = z) by (unfold Qeq in Vmx; simpl in Vmx; lia).
      assert (b = z) by (unfold Qeq in Vmn; simpl in Vmn; lia).
      subst a b. rewrite Z.sub_diag. reflexivity.
    - apply Hzero. rewrite Fmx, Fmn. ring.
    - apply Hzero. rewrite Fmx, Fmn. ring.
    - apply Hzero. rewrite Fmx, Fmn. ring. }
  assert (Hm : F64.py_mul (F64.py_sub mx mn) (F64.PyFloat (1 # 2)) = F64.PyFloat 0).
  { generalize dependent (F64.py_sub mx mn). intros D HD.
    destruct D as [x | x]; cbn [F64.py_mul F64.to_float] in *; rewrite HD; reflexivity. }
  rewrite Hm.
  assert (Ha : F64.py_add mn (F64.PyFloat 0)
               = F64.PyFloat (F64.round64 (F64.to_float mn + 0)))
    by (destruct mn; reflexivity).
  rewrite Ha. cbn [F64.value].
  rewrite (f64_round64_proper _ (inject_Z z)) by (rewrite Fmn; ring).
  apply f64_round64_int. exact Hz.
Qed.

Lemma f64_constant_run (c : F64.num) (inputs : list (Z * F64.num)) :
  (forall p, In p inputs -> snd p = c) ->
  F64.homogeneous (map snd inputs) /\
  forall i, (i < length (map snd inputs))%nat -> nth i (map snd inputs) (F64.PyInt 0) = c.
Proof.
  intros Hc.
  assert (Hall : forall x, In x (map snd inputs) -> x = c).
  { intros x Hx. apply in_map_iff in Hx. destruct Hx as (p & <- & Hp).
    apply Hc. exact Hp. }
  split.
  - destruct c as [z | q]; [ left | right ]; apply Forall_forall;
      intros x Hx; rewrite (Hall x Hx); reflexivity.
  - intros i Hi. apply Hall. apply nth_In. exact Hi.
Qed.

(** Constant readings give no peak. *)
Lemma f64_no_peaks_on_flat_run (sr ws sw : Z) (c : F64.num) (inputs : list (Z * F64.num)) :
  0 <= ws -> 1 <= sw ->
  (forall p, In p inputs -> snd p = c) ->
  F64.find_peaks (F64.fed sr ws sw inputs) = (Returns [], F64.fed sr ws sw inputs).
Proof.
  intros Hws Hsw Hc.
  destruct (f64_constant_run c inputs Hc) as [Hhom Hnth].
  destruct (Qlt_le_dec
              (F64.value (nth (Z.to_nat (sw - 2)) (map snd inputs) (F64.PyInt 0)))
              (F64.value (F64.smoothed sw (firstn (Z.to_nat sw) (map snd inputs)))))
    as [Hlt | Hge].
  - apply f64_no_peaks_on_rising_run; try assumption.
    + intros i Hi. rewrite !Hnth by lia. apply f64_le_refl.
    + right. right. right. right. apply Qlt_le_weak. exact Hlt.
  - apply f64_no_peaks_on_falling_run; try assumption.
    + intros i Hi. rewrite !Hnth by lia. apply f64_le_refl.
    + right. right. right. right. exact Hge.
Qed.

(** Falling [int] readings that are floats, averaged two by two, give no
    peak. *)
Lemma f64_no_peaks_on_falling_ints (sr ws : Z) (inputs : list (Z * F64.num))
      (zs : list Z) :
  0 <= ws ->
  map snd inputs = map F64.PyInt zs ->
  Forall (fun z => Z.abs z < 2 ^ 53) zs ->
  F64.strictly_decreasing (map snd inputs) ->
  F64.find_peaks (F64.fed sr ws 2 inputs) = (Returns [], F64.fed sr ws 2 inputs).
Proof.
  intros Hws Hzs Hbound Hdown.
  assert (Hlen : len inputs = len zs).
  { unfold len. apply (f_equal (@length F64.num)) in Hzs.
    rewrite !length_map in Hzs. lia. }
  apply f64_no_peaks_on_falling_run; [ exact Hws | lia | | | ].
  - left. rewrite Hzs. apply Forall_forall. intros x Hx.
    apply in_map_iff in Hx. destruct Hx as (z & <- & _). reflexivity.
  - intros i Hi. apply f64_lt_le. apply Hdown. exact Hi.
  - destruct zs as [ | a [ | b rest ] ].
    + left. rewrite Hlen. unfold len. simpl. lia.
    + left. rewrite Hlen. unfold len. simpl. lia.
    + right. right. right. right.
      assert (Hba : b < a).
      { specialize (Hdown 0%nat). rewrite Hzs in Hdown.
        cbn [map length nth] in Hdown. unfold F64.lt in Hdown.
        cbn [F64.value] in Hdown. rewrite <- Zlt_Qlt in Hdown. apply Hdown. lia. }
      rewrite Hzs. change (Z.to_nat (2 - 2)) with 0%nat.
      change (Z.to_nat 2) with 2%nat. cbn [map firstn nth].
      change [F64.PyInt a; F64.PyInt b] with (map F64.PyInt [a; b]).
      rewrite (f64_smoothed_ints 2 [a; b]) by lia.
      unfold F64.le. cbn [F64.value].
      inversion Hbound as [ | ? ? Ha _ ]; subst.
      rewrite <- (f64_round64_int a Ha). apply f64_round64_mono.
      unfold py_sumZ. cbn [fold_left].
      apply Qle_shift_div_r; [ reflexivity | ].
      rewrite <- inject_Z_mult, <- Zle_Qle. lia.
Qed.

(** ** Flat and monotonic signals *)



